(** * SimpleJobBot: a shallow embedding of the parser, the text normalizer,
    the fit scorer, the folder naming and the package assembly. *)

From Stdlib Require Import Ascii String List Bool Arith Lia ZArith NArith QArith Qminmax Lqa.
Import ListNotations.
Open Scope nat_scope.
Open Scope list_scope.

(** ** Python text primitives

    A Python [str] is a list of code points.  The character predicates
    below follow the Unicode tables of CPython 3.11 (Unicode 14.0.0). *)

Definition pychar := N.

Definition pystr := list pychar.

(** The code point of a character of a Rocq string literal. *)
Definition ch (a : ascii) : pychar := N_of_ascii a.

Definition lit (s : string) : pystr := map ch (list_ascii_of_string s).

Definition nl : pychar := 10%N.
Definition cr : pychar := 13%N.
Definition tab : pychar := 9%N.
Definition bslash : pychar := 92%N.
Definition dquote : pychar := 34%N.

(** [str.isspace], which is also the class [\s] of a [str] pattern. *)
Definition py_isspace (c : pychar) : bool :=
  (((9 <=? c) && (c <=? 13)) || ((28 <=? c) && (c <=? 32))
   || (c =? 133) || (c =? 160) || (c =? 5760)
   || ((8192 <=? c) && (c <=? 8202)) || (c =? 8232) || (c =? 8233)
   || (c =? 8239) || (c =? 8287) || (c =? 12288))%N.

(** Line boundaries of [str.splitlines]: \n, \v, \f, \r, \x1c, \x1d,
    \x1e, \x85, U+2028 and U+2029 (and the pair \r\n). *)
Definition py_is_line_break (c : pychar) : bool :=
  (((10 <=? c) && (c <=? 13)) || ((28 <=? c) && (c <=? 30)) || (c =? 133)
   || (c =? 8232) || (c =? 8233))%N.

(** The regular-expression class [[0-9]]. *)
Definition is_digit (c : pychar) : bool := ((48 <=? c) && (c <=? 57))%N.

Definition is_lower_ascii (c : pychar) : bool := ((97 <=? c) && (c <=? 122))%N.

Definition is_upper_ascii (c : pychar) : bool := ((65 <=? c) && (c <=? 90))%N.

(** *** [str.lower]

    The one-character lower-case mappings of CPython, as runs
    [(lo, hi, step, target)]: every [step]-th code point from [lo] to [hi]
    maps to [target + (c - lo)].  U+0130 lowers to the two code points
    U+0069 U+0307, and U+03A3 follows the Final_Sigma rule below. *)
Definition lower_runs : list (N * N * N * N) := [
   (65, 90, 1, 97); (192, 214, 1, 224); (216, 222, 1, 248); (256, 302, 2, 257); (306, 310, 2, 307);
   (313, 327, 2, 314); (330, 374, 2, 331); (376, 376, 1, 255); (377, 381, 2, 378); (385, 385, 1, 595);
   (386, 388, 2, 387); (390, 390, 1, 596); (391, 391, 1, 392); (393, 394, 1, 598); (395, 395, 1, 396);
   (398, 398, 1, 477); (399, 399, 1, 601); (400, 400, 1, 603); (401, 401, 1, 402); (403, 403, 1, 608);
   (404, 404, 1, 611); (406, 406, 1, 617); (407, 407, 1, 616); (408, 408, 1, 409); (412, 412, 1, 623);
   (413, 413, 1, 626); (415, 415, 1, 629); (416, 420, 2, 417); (422, 422, 1, 640); (423, 423, 1, 424);
   (425, 425, 1, 643); (428, 428, 1, 429); (430, 430, 1, 648); (431, 431, 1, 432); (433, 434, 1, 650);
   (435, 437, 2, 436); (439, 439, 1, 658); (440, 440, 1, 441); (444, 444, 1, 445); (452, 452, 1, 454);
   (453, 453, 1, 454); (455, 455, 1, 457); (456, 456, 1, 457); (458, 458, 1, 460); (459, 475, 2, 460);
   (478, 494, 2, 479); (497, 497, 1, 499); (498, 500, 2, 499); (502, 502, 1, 405); (503, 503, 1, 447);
   (504, 542, 2, 505); (544, 544, 1, 414); (546, 562, 2, 547); (570, 570, 1, 11365); (571, 571, 1, 572);
   (573, 573, 1, 410); (574, 574, 1, 11366); (577, 577, 1, 578); (579, 579, 1, 384); (580, 580, 1, 649);
   (581, 581, 1, 652); (582, 590, 2, 583); (880, 882, 2, 881); (886, 886, 1, 887); (895, 895, 1, 1011);
   (902, 902, 1, 940); (904, 906, 1, 941); (908, 908, 1, 972); (910, 911, 1, 973); (913, 929, 1, 945);
   (931, 939, 1, 963); (975, 975, 1, 983); (984, 1006, 2, 985); (1012, 1012, 1, 952); (1015, 1015, 1, 1016);
   (1017, 1017, 1, 1010); (1018, 1018, 1, 1019); (1021, 1023, 1, 891); (1024, 1039, 1, 1104); (1040, 1071, 1, 1072);
   (1120, 1152, 2, 1121); (1162, 1214, 2, 1163); (1216, 1216, 1, 1231); (1217, 1229, 2, 1218); (1232, 1326, 2, 1233);
   (1329, 1366, 1, 1377); (4256, 4293, 1, 11520); (4295, 4295, 1, 11559); (4301, 4301, 1, 11565); (5024, 5103, 1, 43888);
   (5104, 5109, 1, 5112); (7312, 7354, 1, 4304); (7357, 7359, 1, 4349); (7680, 7828, 2, 7681); (7838, 7838, 1, 223);
   (7840, 7934, 2, 7841); (7944, 7951, 1, 7936); (7960, 7965, 1, 7952); (7976, 7983, 1, 7968); (7992, 7999, 1, 7984);
   (8008, 8013, 1, 8000); (8025, 8031, 2, 8017); (8040, 8047, 1, 8032); (8072, 8079, 1, 8064); (8088, 8095, 1, 8080);
   (8104, 8111, 1, 8096); (8120, 8121, 1, 8112); (8122, 8123, 1, 8048); (8124, 8124, 1, 8115); (8136, 8139, 1, 8050);
   (8140, 8140, 1, 8131); (8152, 8153, 1, 8144); (8154, 8155, 1, 8054); (8168, 8169, 1, 8160); (8170, 8171, 1, 8058);
   (8172, 8172, 1, 8165); (8184, 8185, 1, 8056); (8186, 8187, 1, 8060); (8188, 8188, 1, 8179); (8486, 8486, 1, 969);
   (8490, 8490, 1, 107); (8491, 8491, 1, 229); (8498, 8498, 1, 8526); (8544, 8559, 1, 8560); (8579, 8579, 1, 8580);
   (9398, 9423, 1, 9424); (11264, 11311, 1, 11312); (11360, 11360, 1, 11361); (11362, 11362, 1, 619); (11363, 11363, 1, 7549);
   (11364, 11364, 1, 637); (11367, 11371, 2, 11368); (11373, 11373, 1, 593); (11374, 11374, 1, 625); (11375, 11375, 1, 592);
   (11376, 11376, 1, 594); (11378, 11378, 1, 11379); (11381, 11381, 1, 11382); (11390, 11391, 1, 575); (11392, 11490, 2, 11393);
   (11499, 11501, 2, 11500); (11506, 11506, 1, 11507); (42560, 42604, 2, 42561); (42624, 42650, 2, 42625); (42786, 42798, 2, 42787);
   (42802, 42862, 2, 42803); (42873, 42875, 2, 42874); (42877, 42877, 1, 7545); (42878, 42886, 2, 42879); (42891, 42891, 1, 42892);
   (42893, 42893, 1, 613); (42896, 42898, 2, 42897); (42902, 42920, 2, 42903); (42922, 42922, 1, 614); (42923, 42923, 1, 604);
   (42924, 42924, 1, 609); (42925, 42925, 1, 620); (42926, 42926, 1, 618); (42928, 42928, 1, 670); (42929, 42929, 1, 647);
   (42930, 42930, 1, 669); (42931, 42931, 1, 43859); (42932, 42946, 2, 42933); (42948, 42948, 1, 42900); (42949, 42949, 1, 642);
   (42950, 42950, 1, 7566); (42951, 42953, 2, 42952); (42960, 42960, 1, 42961); (42966, 42968, 2, 42967); (42997, 42997, 1, 42998);
   (65313, 65338, 1, 65345); (66560, 66599, 1, 66600); (66736, 66771, 1, 66776); (66928, 66938, 1, 66967); (66940, 66954, 1, 66979);
   (66956, 66962, 1, 66995); (66964, 66965, 1, 67003); (68736, 68786, 1, 68800); (71840, 71871, 1, 71872); (93760, 93791, 1, 93792);
   (125184, 125217, 1, 125218)]%N.

(** The code points of Case_Ignorable, as inclusive ranges. *)
Definition case_ignorable_ranges : list (N * N) := [
   (39, 39); (46, 46); (58, 58); (94, 94); (96, 96); (168, 168); (173, 173); (175, 175);
   (180, 180); (183, 184); (688, 879); (884, 885); (890, 890); (900, 901); (903, 903); (1155, 1161);
   (1369, 1369); (1375, 1375); (1425, 1469); (1471, 1471); (1473, 1474); (1476, 1477); (1479, 1479); (1524, 1524);
   (1536, 1541); (1552, 1562); (1564, 1564); (1600, 1600); (1611, 1631); (1648, 1648); (1750, 1757); (1759, 1768);
   (1770, 1773); (1807, 1807); (1809, 1809); (1840, 1866); (1958, 1968); (2027, 2037); (2042, 2042); (2045, 2045);
   (2070, 2093); (2137, 2139); (2184, 2184); (2192, 2193); (2200, 2207); (2249, 2306); (2362, 2362); (2364, 2364);
   (2369, 2376); (2381, 2381); (2385, 2391); (2402, 2403); (2417, 2417); (2433, 2433); (2492, 2492); (2497, 2500);
   (2509, 2509); (2530, 2531); (2558, 2558); (2561, 2562); (2620, 2620); (2625, 2626); (2631, 2632); (2635, 2637);
   (2641, 2641); (2672, 2673); (2677, 2677); (2689, 2690); (2748, 2748); (2753, 2757); (2759, 2760); (2765, 2765);
   (2786, 2787); (2810, 2815); (2817, 2817); (2876, 2876); (2879, 2879); (2881, 2884); (2893, 2893); (2901, 2902);
   (2914, 2915); (2946, 2946); (3008, 3008); (3021, 3021); (3072, 3072); (3076, 3076); (3132, 3132); (3134, 3136);
   (3142, 3144); (3146, 3149); (3157, 3158); (3170, 3171); (3201, 3201); (3260, 3260); (3263, 3263); (3270, 3270);
   (3276, 3277); (3298, 3299); (3328, 3329); (3387, 3388); (3393, 3396); (3405, 3405); (3426, 3427); (3457, 3457);
   (3530, 3530); (3538, 3540); (3542, 3542); (3633, 3633); (3636, 3642); (3654, 3662); (3761, 3761); (3764, 3772);
   (3782, 3782); (3784, 3789); (3864, 3865); (3893, 3893); (3895, 3895); (3897, 3897); (3953, 3966); (3968, 3972);
   (3974, 3975); (3981, 3991); (3993, 4028); (4038, 4038); (4141, 4144); (4146, 4151); (4153, 4154); (4157, 4158);
   (4184, 4185); (4190, 4192); (4209, 4212); (4226, 4226); (4229, 4230); (4237, 4237); (4253, 4253); (4348, 4348);
   (4957, 4959); (5906, 5908); (5938, 5939); (5970, 5971); (6002, 6003); (6068, 6069); (6071, 6077); (6086, 6086);
   (6089, 6099); (6103, 6103); (6109, 6109); (6155, 6159); (6211, 6211); (6277, 6278); (6313, 6313); (6432, 6434);
   (6439, 6440); (6450, 6450); (6457, 6459); (6679, 6680); (6683, 6683); (6742, 6742); (6744, 6750); (6752, 6752);
   (6754, 6754); (6757, 6764); (6771, 6780); (6783, 6783); (6823, 6823); (6832, 6862); (6912, 6915); (6964, 6964);
   (6966, 6970); (6972, 6972); (6978, 6978); (7019, 7027); (7040, 7041); (7074, 7077); (7080, 7081); (7083, 7085);
   (7142, 7142); (7144, 7145); (7149, 7149); (7151, 7153); (7212, 7219); (7222, 7223); (7288, 7293); (7376, 7378);
   (7380, 7392); (7394, 7400); (7405, 7405); (7412, 7412); (7416, 7417); (7468, 7530); (7544, 7544); (7579, 7679);
   (8125, 8125); (8127, 8129); (8141, 8143); (8157, 8159); (8173, 8175); (8189, 8190); (8203, 8207); (8216, 8217);
   (8228, 8228); (8231, 8231); (8234, 8238); (8288, 8292); (8294, 8303); (8305, 8305); (8319, 8319); (8336, 8348);
   (8400, 8432); (11388, 11389); (11503, 11505); (11631, 11631); (11647, 11647); (11744, 11775); (11823, 11823); (12293, 12293);
   (12330, 12333); (12337, 12341); (12347, 12347); (12441, 12446); (12540, 12542); (40981, 40981); (42232, 42237); (42508, 42508);
   (42607, 42610); (42612, 42621); (42623, 42623); (42652, 42655); (42736, 42737); (42752, 42785); (42864, 42864); (42888, 42890);
   (42994, 42996); (43000, 43001); (43010, 43010); (43014, 43014); (43019, 43019); (43045, 43046); (43052, 43052); (43204, 43205);
   (43232, 43249); (43263, 43263); (43302, 43309); (43335, 43345); (43392, 43394); (43443, 43443); (43446, 43449); (43452, 43453);
   (43471, 43471); (43493, 43494); (43561, 43566); (43569, 43570); (43573, 43574); (43587, 43587); (43596, 43596); (43632, 43632);
   (43644, 43644); (43696, 43696); (43698, 43700); (43703, 43704); (43710, 43711); (43713, 43713); (43741, 43741); (43756, 43757);
   (43763, 43764); (43766, 43766); (43867, 43871); (43881, 43883); (44005, 44005); (44008, 44008); (44013, 44013); (64286, 64286);
   (64434, 64450); (65024, 65039); (65043, 65043); (65056, 65071); (65106, 65106); (65109, 65109); (65279, 65279); (65287, 65287);
   (65294, 65294); (65306, 65306); (65342, 65342); (65344, 65344); (65392, 65392); (65438, 65439); (65507, 65507); (65529, 65531);
   (66045, 66045); (66272, 66272); (66422, 66426); (67456, 67461); (67463, 67504); (67506, 67514); (68097, 68099); (68101, 68102);
   (68108, 68111); (68152, 68154); (68159, 68159); (68325, 68326); (68900, 68903); (69291, 69292); (69446, 69456); (69506, 69509);
   (69633, 69633); (69688, 69702); (69744, 69744); (69747, 69748); (69759, 69761); (69811, 69814); (69817, 69818); (69821, 69821);
   (69826, 69826); (69837, 69837); (69888, 69890); (69927, 69931); (69933, 69940); (70003, 70003); (70016, 70017); (70070, 70078);
   (70089, 70092); (70095, 70095); (70191, 70193); (70196, 70196); (70198, 70199); (70206, 70206); (70367, 70367); (70371, 70378);
   (70400, 70401); (70459, 70460); (70464, 70464); (70502, 70508); (70512, 70516); (70712, 70719); (70722, 70724); (70726, 70726);
   (70750, 70750); (70835, 70840); (70842, 70842); (70847, 70848); (70850, 70851); (71090, 71093); (71100, 71101); (71103, 71104);
   (71132, 71133); (71219, 71226); (71229, 71229); (71231, 71232); (71339, 71339); (71341, 71341); (71344, 71349); (71351, 71351);
   (71453, 71455); (71458, 71461); (71463, 71467); (71727, 71735); (71737, 71738); (71995, 71996); (71998, 71998); (72003, 72003);
   (72148, 72151); (72154, 72155); (72160, 72160); (72193, 72202); (72243, 72248); (72251, 72254); (72263, 72263); (72273, 72278);
   (72281, 72283); (72330, 72342); (72344, 72345); (72752, 72758); (72760, 72765); (72767, 72767); (72850, 72871); (72874, 72880);
   (72882, 72883); (72885, 72886); (73009, 73014); (73018, 73018); (73020, 73021); (73023, 73029); (73031, 73031); (73104, 73105);
   (73109, 73109); (73111, 73111); (73459, 73460); (78896, 78904); (92912, 92916); (92976, 92982); (92992, 92995); (94031, 94031);
   (94095, 94111); (94176, 94177); (94179, 94180); (110576, 110579); (110581, 110587); (110589, 110590); (113821, 113822); (113824, 113827);
   (118528, 118573); (118576, 118598); (119143, 119145); (119155, 119170); (119173, 119179); (119210, 119213); (119362, 119364); (121344, 121398);
   (121403, 121452); (121461, 121461); (121476, 121476); (121499, 121503); (121505, 121519); (122880, 122886); (122888, 122904); (122907, 122913);
   (122915, 122916); (122918, 122922); (123184, 123197); (123566, 123566); (123628, 123631); (125136, 125142); (125252, 125259); (127995, 127999);
   (917505, 917505); (917536, 917631); (917760, 917999)]%N.

(** The Cased code points that are not Case_Ignorable (the Final_Sigma rule
    asks whether a character is cased only of characters that are not
    case-ignorable). *)
Definition cased_ranges : list (N * N) := [
   (65, 90); (97, 122); (170, 170); (181, 181); (186, 186); (192, 214); (216, 246); (248, 442);
   (444, 447); (452, 659); (661, 687); (880, 883); (886, 887); (891, 893); (895, 895); (902, 902);
   (904, 906); (908, 908); (910, 929); (931, 1013); (1015, 1153); (1162, 1327); (1329, 1366); (1376, 1416);
   (4256, 4293); (4295, 4295); (4301, 4301); (4304, 4346); (4349, 4351); (5024, 5109); (5112, 5117); (7296, 7304);
   (7312, 7354); (7357, 7359); (7424, 7467); (7531, 7543); (7545, 7578); (7680, 7957); (7960, 7965); (7968, 8005);
   (8008, 8013); (8016, 8023); (8025, 8025); (8027, 8027); (8029, 8029); (8031, 8061); (8064, 8116); (8118, 8124);
   (8126, 8126); (8130, 8132); (8134, 8140); (8144, 8147); (8150, 8155); (8160, 8172); (8178, 8180); (8182, 8188);
   (8450, 8450); (8455, 8455); (8458, 8467); (8469, 8469); (8473, 8477); (8484, 8484); (8486, 8486); (8488, 8488);
   (8490, 8493); (8495, 8500); (8505, 8505); (8508, 8511); (8517, 8521); (8526, 8526); (8544, 8575); (8579, 8580);
   (9398, 9449); (11264, 11387); (11390, 11492); (11499, 11502); (11506, 11507); (11520, 11557); (11559, 11559); (11565, 11565);
   (42560, 42605); (42624, 42651); (42786, 42863); (42865, 42887); (42891, 42894); (42896, 42954); (42960, 42961); (42963, 42963);
   (42965, 42969); (42997, 42998); (43002, 43002); (43824, 43866); (43872, 43880); (43888, 43967); (64256, 64262); (64275, 64279);
   (65313, 65338); (65345, 65370); (66560, 66639); (66736, 66771); (66776, 66811); (66928, 66938); (66940, 66954); (66956, 66962);
   (66964, 66965); (66967, 66977); (66979, 66993); (66995, 67001); (67003, 67004); (68736, 68786); (68800, 68850); (71840, 71903);
   (93760, 93823); (119808, 119892); (119894, 119964); (119966, 119967); (119970, 119970); (119973, 119974); (119977, 119980); (119982, 119993);
   (119995, 119995); (119997, 120003); (120005, 120069); (120071, 120074); (120077, 120084); (120086, 120092); (120094, 120121); (120123, 120126);
   (120128, 120132); (120134, 120134); (120138, 120144); (120146, 120485); (120488, 120512); (120514, 120538); (120540, 120570); (120572, 120596);
   (120598, 120628); (120630, 120654); (120656, 120686); (120688, 120712); (120714, 120744); (120746, 120770); (120772, 120779); (122624, 122633);
   (122635, 122654); (125184, 125251); (127280, 127305); (127312, 127337); (127344, 127369)]%N.

Definition in_ranges (rs : list (N * N)) (c : pychar) : bool :=
  existsb (fun r => (fst r <=? c)%N && (c <=? snd r)%N) rs.

Definition case_ignorable (c : pychar) : bool := in_ranges case_ignorable_ranges c.

Definition cased (c : pychar) : bool := in_ranges cased_ranges c.

Definition in_lower_run (c : pychar) (r : N * N * N * N) : bool :=
  let '(lo, hi, step, _) := r in
  ((lo <=? c) && (c <=? hi) && (N.modulo (c - lo) step =? 0))%N.

(** The lower case of one code point other than U+03A3. *)
Definition lower_char (c : pychar) : pystr :=
  if (c =? 304)%N then [105; 775]%N
  else match find (in_lower_run c) lower_runs with
       | Some (lo, _, _, target) => [(target + (c - lo))%N]
       | None => [c]
       end.

(** The first code point that is not case-ignorable. *)
Fixpoint first_non_ignorable (s : pystr) : option pychar :=
  match s with
  | [] => None
  | c :: t => if case_ignorable c then first_non_ignorable t else Some c
  end.

(** [handle_capital_sigma] of CPython: U+03A3 lowers to the final sigma
    U+03C2 when a cased letter precedes it and none follows it, skipping
    case-ignorable characters on both sides; [before] is the text before it,
    reversed. *)
Definition final_sigma (before after : pystr) : bool :=
  match first_non_ignorable before with
  | Some d => cased d && match first_non_ignorable after with
                         | Some e => negb (cased e)
                         | None => true
                         end
  | None => false
  end.

Fixpoint lower_from (before : pystr) (s : pystr) : pystr :=
  match s with
  | [] => []
  | c :: t =>
      (if (c =? 931)%N then [if final_sigma before t then 962%N else 963%N]
       else lower_char c) ++ lower_from (c :: before) t
  end.

Definition py_lower (s : pystr) : pystr := lower_from [] s.

Fixpoint prefixb (p s : pystr) : bool :=
  match p, s with
  | [], _ => true
  | a :: p', b :: s' => N.eqb a b && prefixb p' s'
  | _ :: _, [] => false
  end.

(** [str.find]: [None] plays the role of [-1]. *)
Fixpoint find_aux (s p : pystr) (i : nat) : option nat :=
  if prefixb p s then Some i
  else match s with
       | [] => None
       | _ :: s' => find_aux s' p (S i)
       end.

Definition py_find (s p : pystr) : option nat := find_aux s p 0.

(** [s.find(p, start)], used with [start <= len(s)]. *)
Definition py_find_from (s p : pystr) (start : nat) : option nat :=
  option_map (Nat.add start) (py_find (skipn start s) p).

(** [p in s]. *)
Definition py_contains (s p : pystr) : bool :=
  match py_find s p with Some _ => true | None => false end.

(** [s[a:b]] for [0 <= a] and [b <= len(s)]. *)
Definition py_slice (s : pystr) (a b : nat) : pystr := firstn (b - a) (skipn a s).

Fixpoint lstrip_by (f : pychar -> bool) (s : pystr) : pystr :=
  match s with
  | [] => []
  | c :: t => if f c then lstrip_by f t else s
  end.

Definition rstrip_by (f : pychar -> bool) (s : pystr) : pystr :=
  rev (lstrip_by f (rev s)).

Definition strip_by (f : pychar -> bool) (s : pystr) : pystr :=
  rstrip_by f (lstrip_by f s).

(** [str.strip()]. *)
Definition py_strip (s : pystr) : pystr := strip_by py_isspace s.

Fixpoint span (f : pychar -> bool) (s : pystr) : pystr * pystr :=
  match s with
  | [] => ([], [])
  | c :: t => if f c then let (a, b) := span f t in (c :: a, b) else ([], s)
  end.

(** [str.replace(old, new)] for a non-empty [old]: left to right, without
    overlaps.  [skip] counts the characters of the last match still to be
    passed over. *)
Fixpoint replace_st (old new : pystr) (skip : nat) (s : pystr) : pystr :=
  match s with
  | [] => []
  | c :: t =>
      match skip with
      | S k => replace_st old new k t
      | O => if prefixb old s then new ++ replace_st old new (pred (length old)) t
             else c :: replace_st old new 0 t
      end
  end.

Definition py_replace (s old new : pystr) : pystr := replace_st old new 0 s.

(** [str.splitlines()]: [cur] holds the current line reversed. *)
Fixpoint splitlines_aux (cur : pystr) (s : pystr) : list pystr :=
  match s with
  | [] => match cur with [] => [] | _ => [rev cur] end
  | c :: t =>
      if N.eqb c cr then
        match t with
        | c' :: t' => if N.eqb c' nl then rev cur :: splitlines_aux [] t'
                      else rev cur :: splitlines_aux [] t
        | [] => [rev cur]
        end
      else if py_is_line_break c then rev cur :: splitlines_aux [] t
      else splitlines_aux (c :: cur) t
  end.

Definition py_splitlines (s : pystr) : list pystr := splitlines_aux [] s.

(** ["\n".join(lines)]. *)
Fixpoint join_nl (ls : list pystr) : pystr :=
  match ls with
  | [] => []
  | [l] => l
  | l :: ls' => l ++ nl :: join_nl ls'
  end.

(** ** Text normalizer ([clean_model_text], src/main.py) *)

(** [re.sub(r"\[([^\]]+)\]\(([^)]+)\)", r"\1", s)]: the match at the head of
    [s], as the label and the length of the matched text.  Each [+] class
    stops at the first closing bracket, so no backtracking can help. *)
Definition link_match (s : pystr) : option (pystr * nat) :=
  match s with
  | c :: t =>
      if N.eqb c (ch "[") then
        let (lab, r1) := span (fun d => negb (N.eqb d (ch "]"))) t in
        match lab, r1 with
        | _ :: _, c1 :: c2 :: r2 =>
            if N.eqb c1 (ch "]") && N.eqb c2 (ch "(") then
              let (url, r3) := span (fun d => negb (N.eqb d (ch ")"))) r2 in
              match url, r3 with
              | _ :: _, c3 :: _ =>
                  if N.eqb c3 (ch ")")
                  then Some (lab, 1 + length lab + 2 + length url + 1)
                  else None
              | _, _ => None
              end
            else None
        | _, _ => None
        end
      else None
  | [] => None
  end.

Fixpoint links_st (skip : nat) (s : pystr) : pystr :=
  match s with
  | [] => []
  | c :: t =>
      match skip with
      | S k => links_st k t
      | O => match link_match s with
             | Some (lab, n) => lab ++ links_st (pred n) t
             | None => c :: links_st 0 t
             end
      end
  end.

Definition collapse_links (s : pystr) : pystr := links_st 0 s.

(** The placeholder-line filter of step 5. *)
Definition keep_line (line : pystr) : bool :=
  let stripped := py_strip line in
  let lower := py_lower stripped in
  if prefixb (lit "...") stripped then false
  else if py_contains lower (lit "continued") && py_contains stripped (lit "...")
  then false
  else true.

Definition drop_placeholder_lines (s : pystr) : pystr :=
  join_nl (filter keep_line (py_splitlines s)).

(** [re.sub(r"\n{3,}", "\n\n", s)]: at a newline the greedy run is taken
    whole; a run shorter than three never matches. *)
Fixpoint collapse_st (skip : nat) (s : pystr) : pystr :=
  match s with
  | [] => []
  | c :: t =>
      match skip with
      | S k => collapse_st k t
      | O =>
          if N.eqb c nl then
            let n := length (fst (span (fun d => N.eqb d nl) s)) in
            if 3 <=? n then [nl; nl] ++ collapse_st (pred n) t
            else c :: collapse_st 0 t
          else c :: collapse_st 0 t
      end
  end.

Definition collapse_blank_lines (s : pystr) : pystr := collapse_st 0 s.

Definition clean_model_text (text : pystr) : pystr :=
  match text with
  | [] => []
  | _ =>
    let s := text in
    let s := py_replace s [bslash; (ch "n")] [nl] in
    let s := py_replace s [bslash; (ch "r")] [cr] in
    let s := py_replace s [bslash; (ch "t")] [tab] in
    let s := py_replace s (bslash :: lit "u0022") [dquote] in
    let s := py_replace s (lit "```") [] in
    let s := collapse_links s in
    let s := drop_placeholder_lines s in
    let s := collapse_blank_lines s in
    py_strip s
  end.

(** ** Tagged-output parser ([parse_model_output], src/main.py) *)

Definition extract_block (text start_tag end_tag : pystr) : pystr :=
  match py_find text start_tag with
  | None => []
  | Some i =>
      let start_idx := i + length start_tag in
      let end_idx := match py_find_from text end_tag start_idx with
                     | Some j => j
                     | None => length text
                     end in
      py_strip (py_slice text start_idx end_idx)
  end.

(** The pattern repeated for each section: the tag followed by a newline
    first, the bare tag when that gives an empty block. *)
Definition extract_section (text tag end_tag : pystr) : pystr :=
  match extract_block text (tag ++ [nl]) end_tag with
  | [] => extract_block text tag end_tag
  | b => b
  end.

(** [FIT_SCORE:\s*([0-9]+(?:\.[0-9]+)?)] at the head of [s]: the integer
    digits and the fractional digits of group 1.  [\s*] and [[0-9]+] are
    followed by classes they exclude, so the greedy choice is the only one. *)
Definition fit_match_at (s : pystr) : option (pystr * pystr) :=
  if prefixb (lit "FIT_SCORE:") s then
    let s1 := snd (span py_isspace (skipn 10 s)) in
    let (ds, s2) := span is_digit s1 in
    match ds with
    | [] => None
    | _ :: _ =>
        match s2 with
        | c :: d :: rest =>
            if N.eqb c (ch ".") && is_digit d
            then Some (ds, fst (span is_digit (d :: rest)))
            else Some (ds, [])
        | _ => Some (ds, [])
        end
    end
  else None.

(** [re.search]: the leftmost position where the pattern matches. *)
Fixpoint fit_search (s : pystr) : option (pystr * pystr) :=
  match fit_match_at s with
  | Some r => Some r
  | None => match s with [] => None | _ :: t => fit_search t end
  end.

Definition digits_value (ds : pystr) : Z :=
  fold_left (fun acc c => acc * 10 + (Z.of_N c - 48))%Z ds 0%Z.

(** [float(m.group(1))], read as the exact decimal it denotes. *)
Definition decimal_value (ip fp : pystr) : Q :=
  digits_value (ip ++ fp) # Z.to_pos (10 ^ Z.of_nat (length fp)).

(** [re.sub(r"^[0-9]+\s*[\).\-\:]\s*", "", line)]. *)
Definition is_enum_punct (c : pychar) : bool :=
  N.eqb c (ch ")") || N.eqb c (ch ".")
  || N.eqb c (ch "-") || N.eqb c (ch ":").

Definition strip_enumerator (line : pystr) : pystr :=
  let (ds, r1) := span is_digit line in
  match ds with
  | [] => line
  | _ :: _ =>
      match snd (span py_isspace r1) with
      | c :: r2 => if is_enum_punct c then snd (span py_isspace r2) else line
      | [] => line
      end
  end.

(** The [for line in sa_block.splitlines()] loop. *)
Definition collect_answer (acc : list pystr) (line : pystr) : list pystr :=
  let line := py_strip line in
  match line with
  | [] => acc
  | _ :: _ => acc ++ [strip_enumerator line]
  end.

Fixpoint pad_answers (fuel : nat) (xs : list pystr) : list pystr :=
  match fuel with
  | O => xs
  | S f => if length xs <? 3 then pad_answers f (xs ++ [[]]) else xs
  end.

Definition short_answers_of (sa_block : pystr) : list pystr :=
  let xs := fold_left collect_answer (py_splitlines sa_block) [] in
  let xs := if 3 <? length xs then firstn 3 xs else xs in
  pad_answers 3 xs.

Record parsed := {
  fit_score : Q;
  reasoning : pystr;
  cover_letter : pystr;
  resume : pystr;
  short_answers : list pystr
}.

(** [HTTPException(500, "Could not find FIT_SCORE ... Snippet: " + text[:300])]
    is [MissingFitScore (text[:300])]. *)
Inductive parse_result :=
| MissingFitScore (snippet : pystr)
| Parsed (p : parsed).

Definition parse_model_output (raw : pystr) : parse_result :=
  let text := raw in
  match fit_search text with
  | None => MissingFitScore (firstn 300 text)
  | Some (ip, fp) =>
      let fit := decimal_value ip fp in
      let r := clean_model_text (extract_section text (lit "REASONING:") (lit "COVER_LETTER:")) in
      let c := clean_model_text (extract_section text (lit "COVER_LETTER:") (lit "END_COVER_LETTER")) in
      let res := clean_model_text (extract_section text (lit "RESUME:") (lit "END_RESUME")) in
      let sa := clean_model_text (extract_section text (lit "SHORT_ANSWERS:") (lit "END_SHORT_ANSWERS")) in
      Parsed {| fit_score := fit; reasoning := r; cover_letter := c; resume := res;
                short_answers := short_answers_of sa |}
  end.

(** ** The blob layout the system prompt of [process_job] asks for *)

Definition section_keywords : list pystr :=
  map lit ["COVER_LETTER:"; "END_COVER_LETTER"; "RESUME:"; "END_RESUME";
           "SHORT_ANSWERS:"; "END_SHORT_ANSWERS"]%string.

(** A section body that contains none of the section tags. *)
Definition body_ok (b : pystr) : Prop :=
  Forall (fun kw => py_find b kw = None) section_keywords.

Definition tagged_blob (score r c res sa : pystr) : pystr :=
  join_nl [lit "FIT_SCORE: " ++ score; lit "REASONING:"; r; lit "COVER_LETTER:"; c;
           lit "END_COVER_LETTER"; lit "RESUME:"; res; lit "END_RESUME";
           lit "SHORT_ANSWERS:"; sa; lit "END_SHORT_ANSWERS"].

(** Every tag the parser searches for. *)
Definition all_tags : list pystr := lit "FIT_SCORE:" :: lit "REASONING:" :: section_keywords.

(** Text around the sections that contains none of the tags. *)
Definition gap_ok (l : pystr) : Prop :=
  Forall (fun kw => py_find l kw = None) all_tags.

(** The layout of the system prompt with free text around the sections:
    [pre] before the fit-score line, [g1] between it and [REASONING:],
    [g2] and [g3] before [RESUME:] and [SHORT_ANSWERS:] (the blank lines
    the prompt asks for), and [post] after [END_SHORT_ANSWERS]. *)
Definition tagged_layout (pre g1 g2 g3 post : list pystr) (score r c res sa : pystr) : pystr :=
  join_nl (pre ++ [lit "FIT_SCORE: " ++ score] ++ g1
           ++ [lit "REASONING:"; r; lit "COVER_LETTER:"; c; lit "END_COVER_LETTER"] ++ g2
           ++ [lit "RESUME:"; res; lit "END_RESUME"] ++ g3
           ++ [lit "SHORT_ANSWERS:"; sa; lit "END_SHORT_ANSWERS"] ++ post).

(** ** The fit-score pattern, as the spec words it *)

(** [FIT_SCORE:] followed, after optional whitespace, by a number. *)
Definition fit_pattern_at (s : pystr) : Prop :=
  exists ws ds rest, s = lit "FIT_SCORE:" ++ ws ++ ds ++ rest /\
    Forall (fun c => py_isspace c = true) ws /\ ds <> [] /\
    Forall (fun c => is_digit c = true) ds.

(** The pattern occurs somewhere in [s]. *)
Definition has_fit_pattern (s : pystr) : Prop :=
  exists pre suf, s = pre ++ suf /\ fit_pattern_at suf.

Definition is_missing_fit_score (r : parse_result) : bool :=
  match r with MissingFitScore _ => true | Parsed _ => false end.

(** ** Short answers of the per-artifact variant ([generate_short_answers],
    src/app/services/generation.py) *)

(** [s.split(sep)] for a non-empty [sep]; [cur] holds the current piece
    reversed and [skip] the rest of the last separator. *)
Fixpoint split_st (sep : pystr) (skip : nat) (cur : pystr) (s : pystr) : list pystr :=
  match s with
  | [] => [rev cur]
  | c :: t =>
      match skip with
      | S k => split_st sep k cur t
      | O => if prefixb sep s then rev cur :: split_st sep (pred (length sep)) [] t
             else split_st sep 0 (c :: cur) t
      end
  end.

Definition py_split (s sep : pystr) : list pystr := split_st sep 0 [] s.

Definition is_empty_str (s : pystr) : bool := match s with [] => true | _ => false end.

(** [[p.strip() for p in raw.split("\n\n") if p.strip()]]. *)
Definition answer_parts (raw : pystr) : list pystr :=
  map py_strip (filter (fun p => negb (is_empty_str (py_strip p))) (py_split raw [nl; nl])).

(** [while len(parts) < 3: parts.append(parts[-1])]. *)
Fixpoint pad_with_last (fuel : nat) (xs : list pystr) : list pystr :=
  match fuel with
  | O => xs
  | S f => if length xs <? 3 then pad_with_last f (xs ++ [last xs []]) else xs
  end.

(** The list handling after [raw = await ollama_chat(prompt)]. *)
Definition generate_short_answers (raw : pystr) : list pystr :=
  let parts := answer_parts raw in
  if 3 <=? length parts then firstn 3 parts
  else match parts with
       | _ :: _ => firstn 3 (pad_with_last 3 parts)
       | [] => [[]; []; []]
       end.

(** The short-answer post-processing as the spec words it: every line that
    is non-empty after trimming loses its enumerator; keep the first three,
    pad with empty strings to three. *)
Definition short_answers_spec (block : pystr) : list pystr :=
  let xs := map (fun l => strip_enumerator (py_strip l))
                (filter (fun l => negb (is_empty_str (py_strip l))) (py_splitlines block)) in
  firstn 3 xs ++ repeat [] (3 - length xs).

(** ** The normalizer as the spec words it *)

(** Step 1 in one pass: each two-character sequence backslash-n, -r, -t
    becomes the control character. *)
Fixpoint unescape_spec (s : pystr) : pystr :=
  match s with
  | a :: ((b :: t) as s') =>
      if N.eqb a bslash then
        if N.eqb b (ch "n") then nl :: unescape_spec t
        else if N.eqb b (ch "r") then cr :: unescape_spec t
        else if N.eqb b (ch "t") then tab :: unescape_spec t
        else a :: unescape_spec s'
      else a :: unescape_spec s'
  | _ => s
  end.

(** Step 6: of every run of newlines keep the first two; [k] counts the
    newlines of the current run seen so far. *)
Fixpoint limit_newlines (k : nat) (s : pystr) : pystr :=
  match s with
  | [] => []
  | c :: t =>
      if N.eqb c nl then
        if k <? 2 then c :: limit_newlines (S k) t else limit_newlines (S k) t
      else c :: limit_newlines 0 t
  end.

(** Step 5 with lines read as the pieces between newline characters. *)
Definition drop_lines_between_newlines (s : pystr) : pystr :=
  join_nl (filter keep_line (py_split s [nl])).

(** The seven steps of the claim, in order. *)
Definition normalize_claimed (s : pystr) : pystr :=
  let s := unescape_spec s in
  let s := py_replace s (bslash :: lit "u0022") [dquote] in
  let s := py_replace s (lit "```") [] in
  let s := collapse_links s in
  let s := drop_lines_between_newlines s in
  let s := limit_newlines 0 s in
  py_strip s.

(** The same steps with step 5 splitting at [str.splitlines] boundaries and
    joining the kept lines with a newline. *)
Definition normalize_amended (s : pystr) : pystr :=
  let s := unescape_spec s in
  let s := py_replace s (bslash :: lit "u0022") [dquote] in
  let s := py_replace s (lit "```") [] in
  let s := collapse_links s in
  let s := drop_placeholder_lines s in
  let s := limit_newlines 0 s in
  py_strip s.

(** A two-character [str.replace] by one character, written out. *)
Fixpoint rep2 (b x y : pychar) (s : pystr) : pystr :=
  match s with
  | a :: ((c :: t) as s') =>
      if N.eqb b a && N.eqb x c then y :: rep2 b x y t else a :: rep2 b x y s'
  | _ => s
  end.

(** ** Fit labels *)

Definition pystr_eqb (a b : pystr) : bool :=
  if list_eq_dec N.eq_dec a b then true else false.

(** [map_score_to_label] of [src/main.py]. *)
Definition map_score_to_label (score : Q) : pystr :=
  if Qle_bool 85 score then lit "Strong fit"
  else if Qle_bool 70 score then lit "Good fit"
  else if Qle_bool 55 score then lit "Moderate fit"
  else lit "Low fit".

(** [label_fit] of [src/app/utils.py]. *)
Definition label_fit (score : Q) : pystr :=
  if Qle_bool 85 score then lit "Strong fit"
  else if Qle_bool 65 score then lit "Good fit"
  else lit "Weak fit".

(** The position of a label in the table, the lowest bucket being 0. *)
Definition label_rank (l : pystr) : nat :=
  if pystr_eqb l (lit "Strong fit") then 3
  else if pystr_eqb l (lit "Good fit") then 2
  else if pystr_eqb l (lit "Moderate fit") then 1
  else 0.

(** ** Folder-name sanitizers *)

Definition is_alnum (c : pychar) : bool :=
  is_upper_ascii c || is_lower_ascii c || is_digit c.

Definition underscore : pychar := (ch "_").

(** ** Decimal rendering and timestamps *)

Fixpoint dec_aux (fuel n : nat) (acc : pystr) : pystr :=
  match fuel with
  | O => acc
  | S f =>
      let acc' := N.of_nat (48 + n mod 10) :: acc in
      if n <? 10 then acc' else dec_aux f (n / 10) acc'
  end.

(** [str(n)] for a natural number. *)
Definition dec (n : nat) : pystr := dec_aux (S n) n [].

Definition zpad (w : nat) (s : pystr) : pystr := repeat (ch "0") (w - length s) ++ s.

Record datetime := {
  year : nat; month : nat; day : nat; hour : nat; minute : nat; second : nat
}.

(** [now.strftime("%Y%m%d_%H%M%S")]. *)
Definition strftime_stamp (d : datetime) : pystr :=
  zpad 4 (dec (year d)) ++ zpad 2 (dec (month d)) ++ zpad 2 (dec (day d)) ++ [underscore]
  ++ zpad 2 (dec (hour d)) ++ zpad 2 (dec (minute d)) ++ zpad 2 (dec (second d)).

(** Code-point order on strings, as [<] on [str]. *)
Fixpoint str_ltb (a b : pystr) : bool :=
  match a, b with
  | [], [] => false
  | [], _ :: _ => true
  | _ :: _, [] => false
  | x :: a', y :: b' =>
      if (x <? y)%N then true
      else if (x =? y)%N then str_ltb a' b' else false
  end.

Fixpoint insert_desc (x : pystr) (l : list pystr) : list pystr :=
  match l with
  | [] => [x]
  | y :: t => if str_ltb y x then x :: l else y :: insert_desc x t
  end.

(** [sorted(names, reverse=True)]. *)
Definition sort_desc (l : list pystr) : list pystr := fold_right insert_desc [] l.

(** ** A file system

    A path is a list of components written innermost first, so the parent
    of [c :: p] is [p]; [[]] is the top directory (the file-system root for
    an absolute path, the working directory for a relative one), which
    always exists.  The store is an association list with one entry per
    existing path. *)

Definition rpath := list pystr.

Inductive node := NDir | NFile (content : pystr).

Definition fstate := list (rpath * node).

Definition rpath_eqb (p q : rpath) : bool :=
  if list_eq_dec (list_eq_dec N.eq_dec) p q then true else false.

Fixpoint lookup (m : fstate) (p : rpath) : option node :=
  match m with
  | [] => None
  | (q, n) :: t => if rpath_eqb q p then Some n else lookup t p
  end.

Definition set_node (m : fstate) (p : rpath) (n : node) : fstate :=
  (p, n) :: filter (fun e => negb (rpath_eqb (fst e) p)) m.

(** [Path.exists()] and [Path.is_dir()]. *)
Definition exists_path (m : fstate) (p : rpath) : bool :=
  match p with
  | [] => true
  | _ => match lookup m p with Some _ => true | None => false end
  end.

Definition is_dir (m : fstate) (p : rpath) : bool :=
  match p with
  | [] => true
  | _ => match lookup m p with Some NDir => true | _ => false end
  end.

Inductive os_error := FileExistsError | FileNotFoundError | NotADirectoryError | IsADirectoryError.

Inductive failure :=
| OSError (e : os_error)
| AttributeError
| UnicodeEncodeError
| RuntimeError (message : pystr)
| HTTPStatusError
| HTTPException (detail : pystr).

Inductive result (A : Type) := Ok (a : A) | Err (f : failure).
Arguments Ok {A} a.
Arguments Err {A} f.

Definition bind {A B} (r : result A) (k : A -> result B) : result B :=
  match r with Ok a => k a | Err f => Err f end.

Notation "'let!' x ':=' r 'in' k" := (bind r (fun x => k))
  (at level 200, x name, r at level 100, k at level 200).
Notation "'let!' ' p ':=' r 'in' k" := (bind r (fun x => match x with p => k end))
  (at level 200, p pattern, r at level 100, k at level 200).

(** [os.mkdir(p)]: the parent must be a directory, [p] must not exist. *)
Definition os_mkdir (m : fstate) (p : rpath) : result fstate :=
  match p with
  | [] => Err (OSError FileExistsError)
  | _ :: par =>
      if is_dir m par then
        if exists_path m p then Err (OSError FileExistsError) else Ok (set_node m p NDir)
      else if exists_path m par then Err (OSError NotADirectoryError)
      else Err (OSError FileNotFoundError)
  end.

(** [Path.mkdir(parents=False, exist_ok=exist_ok)]. *)
Definition mkdir_noparents (m : fstate) (p : rpath) (exist_ok : bool) : result fstate :=
  match os_mkdir m p with
  | Ok m' => Ok m'
  | Err (OSError FileNotFoundError) => Err (OSError FileNotFoundError)
  | Err f => if exist_ok && is_dir m p then Ok m else Err f
  end.

(** [Path.mkdir(parents=True, exist_ok=exist_ok)]: try [os.mkdir]; when the
    parent is missing create it first (with [exist_ok=True]) and retry
    without [parents]; any other [OSError] is ignored when [exist_ok] holds
    and the path is a directory. *)
Fixpoint mkdir_parents (m : fstate) (p : rpath) (exist_ok : bool) : result fstate :=
  match os_mkdir m p with
  | Ok m' => Ok m'
  | Err (OSError FileNotFoundError) =>
      match p with
      | [] => Err (OSError FileNotFoundError)
      | _ :: par =>
          match mkdir_parents m par true with
          | Ok m1 => mkdir_noparents m1 p exist_ok
          | Err f => Err f
          end
      end
  | Err f => if exist_ok && is_dir m p then Ok m else Err f
  end.

(** A lone surrogate, U+D800 .. U+DFFF, which the strict [utf8] codec
    refuses to encode. *)
Definition is_surrogate (c : pychar) : bool := ((55296 <=? c) && (c <=? 57343))%N.

(** [Path.write_text(content, encoding="utf8")]: open for writing (create
    or truncate), then encode. *)
Definition write_text (m : fstate) (p : rpath) (content : pystr) : result fstate :=
  match p with
  | [] => Err (OSError IsADirectoryError)
  | _ :: par =>
      if is_dir m par then
        if is_dir m p then Err (OSError IsADirectoryError)
        else if existsb is_surrogate content then Err UnicodeEncodeError
        else Ok (set_node m p (NFile content))
      else if exists_path m par then Err (OSError NotADirectoryError)
      else Err (OSError FileNotFoundError)
  end.

(** [open(p, "r").read()]. *)
Definition read_text (m : fstate) (p : rpath) : result pystr :=
  match lookup m p with
  | Some (NFile c) => Ok c
  | Some NDir => Err (OSError IsADirectoryError)
  | None => Err (OSError FileNotFoundError)
  end.

(** The names listed by [Path.iterdir()]. *)
Definition iterdir (m : fstate) (p : rpath) : result (list pystr) :=
  if is_dir m p then
    Ok (flat_map (fun e => match fst e with
                           | c :: q => if rpath_eqb q p then [c] else []
                           | [] => []
                           end) m)
  else if exists_path m p then Err (OSError NotADirectoryError)
  else Err (OSError FileNotFoundError).

(** [str(path)] of an absolute path. *)
Definition abs_str (p : rpath) : pystr := concat (map (fun c => lit "/" ++ c) (rev p)).

(** ** JSON values *)

#[warnings="-register-all"]
Inductive json :=
| JNull
| JBool (b : bool)
| JNum (q : Q)
| JStr (s : pystr)
| JArr (l : list json)
| JObj (kvs : list (pystr * json)).

Definition json_opt_str (o : option pystr) : json :=
  match o with Some s => JStr s | None => JNull end.

(** [d.get(key, default)] on a decoded object. *)
Definition json_get (kvs : list (pystr * json)) (key : pystr) (default : json) : json :=
  match find (fun kv => pystr_eqb (fst kv) key) kvs with
  | Some (_, v) => v
  | None => default
  end.

(** [build_short_answers_text] of [src/app/utils.py]; [process_job] of
    [src/main.py] builds the same text inline. *)
Fixpoint answers_text_from (idx : nat) (answers : list pystr) : pystr :=
  match answers with
  | [] => []
  | a :: t => lit "Answer " ++ dec idx ++ lit ":" ++ [nl] ++ a ++ [nl; nl] ++ answers_text_from (S idx) t
  end.

Definition build_short_answers_text (answers : list pystr) : pystr := answers_text_from 1 answers.

(** ** The single-file variant, [src/main.py] *)

Module Main.


(** [re.sub(r"[^A-Za-z0-9]+", "_", text)]: every maximal run of other
    characters becomes one underscore.  [in_run] is set inside such a run. *)
Fixpoint sub_non_alnum (in_run : bool) (s : pystr) : pystr :=
  match s with
  | [] => []
  | c :: t =>
      if is_alnum c then c :: sub_non_alnum false t
      else if in_run then sub_non_alnum true t
      else underscore :: sub_non_alnum true t
  end.

(** [sanitize_part] of [src/main.py]. *)
Definition sanitize_part (text : pystr) : pystr :=
  match text with
  | [] => lit "job"
  | _ =>
      let cleaned := strip_by (fun c => N.eqb c underscore) (sub_non_alnum false text) in
      match cleaned with [] => lit "job" | _ => cleaned end
  end.

(** [OUTPUT_ROOT = Path("/app/output")]. *)
Definition OUTPUT_ROOT : rpath := [lit "output"; lit "app"].

Record JobInput := {
  resume_text : pystr;
  company : pystr;
  title : pystr;
  location : option pystr;
  job_description : pystr;
  seniority_hint : option pystr
}.

Definition folder_name (now : datetime) (job : JobInput) : pystr :=
  strftime_stamp now ++ [underscore] ++ sanitize_part (company job)
  ++ [underscore] ++ sanitize_part (title job).

Section Assembly.

(** [json.dumps(meta, indent=2)] and the [HOST_OUTPUT_ROOT] setting. *)
Variable json_dumps : json -> pystr.
Variable HOST_OUTPUT_ROOT : pystr.

(** [create_job_folder]: the folder path, the host path and the new state. *)
Definition create_job_folder (m : fstate) (now : datetime) (job : JobInput)
    : result (rpath * option pystr * fstate) :=
  let name := folder_name now job in
  let job_dir := name :: OUTPUT_ROOT in
  let! m1 := mkdir_parents m job_dir true in
  let host_path := match HOST_OUTPUT_ROOT with
                   | [] => None
                   | _ => Some (HOST_OUTPUT_ROOT ++ lit "/" ++ name)
                   end in
  Ok (job_dir, host_path, m1).

(** [process_job] after the model call: [raw] is the model's reply.  It
    returns the folder and the new state. *)
Definition process_job (m : fstate) (now : datetime) (job : JobInput) (raw : pystr)
    : result (rpath * fstate) :=
  match parse_model_output raw with
  | MissingFitScore snippet =>
      Err (HTTPException (lit "Could not find FIT_SCORE in model output. Snippet: " ++ snippet))
  | Parsed pr =>
      let fit_label := map_score_to_label (fit_score pr) in
      let! '(job_dir, host_path, m1) := create_job_folder m now job in
      let! m2 := write_text m1 (lit "cover_letter.txt" :: job_dir) (cover_letter pr) in
      let! m3 := write_text m2 (lit "resume_full.txt" :: job_dir) (resume pr) in
      let! m4 := write_text m3 (lit "short_answers.txt" :: job_dir)
                   (build_short_answers_text (short_answers pr)) in
      let meta := JObj [(lit "company", JStr (company job));
                        (lit "title", JStr (title job));
                        (lit "location", json_opt_str (location job));
                        (lit "seniority_hint", json_opt_str (seniority_hint job));
                        (lit "fit_score", JNum (fit_score pr));
                        (lit "fit_label", JStr fit_label);
                        (lit "reasoning", JStr (reasoning pr));
                        (lit "container_folder", JStr (abs_str job_dir));
                        (lit "host_folder", json_opt_str host_path)] in
      let! m5 := write_text m4 (lit "meta.json" :: job_dir) (json_dumps meta) in
      Ok (job_dir, m5)
  end.

End Assembly.

Record summary := {
  s_folder : pystr;
  s_host_folder : json;
  s_company : json;
  s_title : json;
  s_location : json;
  s_fit_score : json;
  s_fit_label : json
}.

Section Listing.

(** [json.load]: [None] when the text is not a JSON document. *)
Variable json_loads : pystr -> option json.

(** The loop of [get_recent_jobs] over the sorted names; [jobs] holds the
    summaries collected so far, in order.  [meta.get] is called outside the
    [try], so a document that is not an object raises [AttributeError]. *)
Fixpoint scan_entries (m : fstate) (limit : Z) (names : list pystr) (jobs : list summary)
    : result (list summary) :=
  match names with
  | [] => Ok jobs
  | name :: rest =>
      let entry := name :: OUTPUT_ROOT in
      if negb (is_dir m entry) then scan_entries m limit rest jobs
      else
        let meta_path := lit "meta.json" :: entry in
        if negb (exists_path m meta_path) then scan_entries m limit rest jobs
        else
          match read_text m meta_path with
          | Err _ => scan_entries m limit rest jobs
          | Ok txt =>
              match json_loads txt with
              | None => scan_entries m limit rest jobs
              | Some (JObj meta) =>
                  let jobs' := jobs ++ [{| s_folder := abs_str entry;
                                           s_host_folder := json_get meta (lit "host_folder") (JStr []);
                                           s_company := json_get meta (lit "company") (JStr []);
                                           s_title := json_get meta (lit "title") (JStr []);
                                           s_location := json_get meta (lit "location") (JStr []);
                                           s_fit_score := json_get meta (lit "fit_score") (JStr []);
                                           s_fit_label := json_get meta (lit "fit_label") (JStr []) |}] in
                  if (limit <=? Z.of_nat (length jobs'))%Z then Ok jobs'
                  else scan_entries m limit rest jobs'
              | Some _ => Err AttributeError
              end
          end
  end.

(** [get_recent_jobs(limit)]. *)
Definition get_recent_jobs (m : fstate) (limit : Z) : result (list summary) :=
  if negb (exists_path m OUTPUT_ROOT) then Ok []
  else
    let! names := iterdir m OUTPUT_ROOT in
    scan_entries m limit (sort_desc names) [].

End Listing.

(** [submit] builds its [JobInput] with [seniority_hint or None]. *)
Definition submit_job_input (resume_text company title location job_description seniority_hint : pystr)
    : JobInput :=
  {| resume_text := resume_text;
     company := company;
     title := title;
     location := match location with [] => None | _ => Some location end;
     job_description := job_description;
     seniority_hint := match seniority_hint with [] => None | _ => Some seniority_hint end |}.

End Main.

(** ** The package variant, [src/app] *)

Module App.


(** [re.sub(r"\s+", "_", text)]; [\s] of a [str] pattern is [str.isspace]. *)
Fixpoint sub_space_runs (in_run : bool) (s : pystr) : pystr :=
  match s with
  | [] => []
  | c :: t =>
      if py_isspace c then
        if in_run then sub_space_runs true t else underscore :: sub_space_runs true t
      else c :: sub_space_runs false t
  end.

Definition is_name_char (c : pychar) : bool :=
  is_lower_ascii c || is_digit c || N.eqb c underscore.

(** [sanitize_part] of [src/app/utils.py]. *)
Definition sanitize_part (text fallback : pystr) : pystr :=
  let cleaned := py_strip text in
  match cleaned with
  | [] => fallback
  | _ =>
      let cleaned := filter is_name_char (sub_space_runs false (py_lower cleaned)) in
      match cleaned with [] => fallback | _ => cleaned end
  end.

(** [SeniorityHint] of [src/app/models.py], a [str] enumeration. *)
Inductive SeniorityHint := junior | intermediate | senior | lead | director | executive.

Definition value (h : SeniorityHint) : pystr :=
  match h with
  | junior => lit "junior"
  | intermediate => lit "intermediate"
  | senior => lit "senior"
  | lead => lit "lead"
  | director => lit "director"
  | executive => lit "executive"
  end.

Definition all_hints : list SeniorityHint :=
  [junior; intermediate; senior; lead; director; executive].

(** [SeniorityHint(s)]: the member with that value; [None] stands for the
    [ValueError] raised otherwise. *)
Definition SeniorityHint_of (s : pystr) : option SeniorityHint :=
  find (fun h => pystr_eqb (value h) s) all_hints.

Record JobInput := {
  resume_text : pystr;
  company : pystr;
  title : pystr;
  location : option pystr;
  job_description : pystr;
  seniority_hint : option SeniorityHint
}.

(** [OUTPUT_ROOT = Path("job-packages")], relative to the working directory. *)
Definition OUTPUT_ROOT : rpath := [lit "job-packages"].

(** [estimate_fit_score]: a [str] enumeration member is compared with the
    strings of the set by its value, and it is truthy as its value is not
    empty. *)
Definition estimate_fit_score (job : JobInput) : Q :=
  let base : Q := 70%Q in
  let base :=
    match seniority_hint job with
    | Some h =>
        if negb (is_empty_str (value h))
           && existsb (pystr_eqb (value h))
                [lit "senior"; lit "lead"; lit "director"; lit "executive"]
        then (base + 5)%Q else base
    | None => base
    end in
  let base := if 1500 <? length (job_description job) then (base + 5)%Q else base in
  Qmax 0 (Qmin 100 base).

(** The scoring rule as the specification words it. *)
Definition estimate_fit_score_spec (job : JobInput) : Q :=
  let hint_bonus :=
    match seniority_hint job with
    | Some senior | Some lead | Some director | Some executive => 5%Q
    | _ => 0%Q
    end in
  let length_bonus := if 1500 <? length (job_description job) then 5%Q else 0%Q in
  Qmax 0 (Qmin 100 (70 + hint_bonus + length_bonus)%Q).

Definition folder_name (now : datetime) (job : JobInput) : pystr :=
  sanitize_part (company job) (lit "company") ++ [underscore]
  ++ sanitize_part (title job) (lit "title") ++ [underscore] ++ strftime_stamp now.

Section Assembly.

(** [json.dumps(meta, indent=2)]. *)
Variable json_dumps : json -> pystr.

(** The [ollama_chat] calls of [generate_resume], [generate_cover_letter]
    and [generate_short_answers] for a job: the model's reply, or the
    failure [ollama_chat] raises ([HTTPStatusError] from
    [raise_for_status], [RuntimeError] when the reply has no
    ["response"] field, or a transport error of [httpx]). *)
Variable generate_resume : JobInput -> result pystr.
Variable generate_cover_letter : JobInput -> result pystr.
Variable short_answers_reply : JobInput -> result pystr.

(** [generate_full_package].  It returns the folder name and the new
    state. *)
Definition generate_full_package (m : fstate) (now : datetime) (job : JobInput)
    : result (pystr * fstate) :=
  let timestamp := strftime_stamp now in
  let! m1 := mkdir_parents m OUTPUT_ROOT true in
  let name := folder_name now job in
  let job_dir := name :: OUTPUT_ROOT in
  let! m2 := mkdir_parents m1 job_dir true in
  let! resume_text := generate_resume job in
  let! cover_text := generate_cover_letter job in
  let! raw_answers := short_answers_reply job in
  let short_answers_list := generate_short_answers raw_answers in
  let answers_text := build_short_answers_text short_answers_list in
  let! m3 := write_text m2 (lit "resume_full.txt" :: job_dir) resume_text in
  let! m4 := write_text m3 (lit "cover_letter.txt" :: job_dir) cover_text in
  let! m5 := write_text m4 (lit "short_answers.txt" :: job_dir) answers_text in
  let fit_score := estimate_fit_score job in
  let fit_label := label_fit fit_score in
  let meta := JObj [(lit "company", JStr (company job));
                    (lit "title", JStr (title job));
                    (lit "location", json_opt_str (location job));
                    (lit "seniority_hint",
                       match seniority_hint job with Some h => JStr (value h) | None => JNull end);
                    (lit "fit_score", JNum fit_score);
                    (lit "fit_label", JStr fit_label);
                    (lit "folder_name", JStr name);
                    (lit "created_at", JStr timestamp)] in
  let! m6 := write_text m5 (lit "meta.json" :: job_dir) (json_dumps meta) in
  Ok (name, m6).

End Assembly.

(** The [JobInput] that [submit] of [src/app/routers/ui.py] builds from the
    form fields. *)
Definition submit_job_input (resume_text company title location job_description seniority_hint : pystr)
    : JobInput :=
  let hint := match seniority_hint with
              | [] => None
              | _ => SeniorityHint_of seniority_hint
              end in
  {| resume_text := resume_text;
     company := company;
     title := title;
     location := match location with [] => None | _ => Some location end;
     job_description := job_description;
     seniority_hint := hint |}.

End App.


(** ** Package folders *)

(** Every existing path has a directory as its parent. *)
Definition fs_wf (m : fstate) : bool :=
  forallb (fun e => match fst e with [] => true | _ :: par => is_dir m par end) m.

(** Writing files one after the other into [dir]. *)
Definition write_all (m : fstate) (dir : rpath) (files : list (pystr * pystr)) : fstate :=
  fold_left (fun acc fc => set_node acc (fst fc :: dir) (NFile (snd fc))) files m.

Definition package_files : list pystr :=
  [lit "resume_full.txt"; lit "cover_letter.txt"; lit "short_answers.txt"; lit "meta.json"].

(** [m'] is [m] with the new directory [job_dir] holding exactly the four
    package files, and nothing else changed. *)
Definition package_layout (m m' : fstate) (job_dir : rpath) : Prop :=
  lookup m job_dir = None /\
  lookup m' job_dir = Some NDir /\
  (forall f, In f package_files -> exists c, lookup m' (f :: job_dir) = Some (NFile c)) /\
  (forall f, lookup m' (f :: job_dir) <> None -> In f package_files) /\
  (forall q, q <> job_dir -> (forall f, In f package_files -> q <> f :: job_dir) ->
             lookup m' q = lookup m q) /\
  (forall q, lookup m' q = Some NDir -> lookup m q <> Some NDir -> q = job_dir).

(** [q] is a proper ancestor of [p]. *)
Fixpoint is_ancestor (q p : rpath) : bool :=
  match p with
  | [] => false
  | _ :: p' => rpath_eqb p' q || is_ancestor q p'
  end.

(** From [m] to [m']: each path keeps its entry, or was missing and is now
    a directory, [p] itself or one of its (non-root) ancestors. *)
Definition mkdir_frame (m m' : fstate) (p : rpath) : Prop :=
  forall q, lookup m' q = lookup m q \/
            (lookup m q = None /\ lookup m' q = Some NDir /\ q <> [] /\
             (q = p \/ is_ancestor q p = true)).

(** What a successful package assembly leaves: the output [root] and the
    folder [job_dir] are directories holding the four package files; any
    other path keeps its entry unless it was missing and is now a
    directory on the way to [job_dir]; a fresh folder under an existing
    root gives [package_layout]; an existing folder is reused, with every
    path but the four files unchanged. *)
Definition package_result (m m' : fstate) (root job_dir : rpath) : Prop :=
  lookup m' root = Some NDir /\
  lookup m' job_dir = Some NDir /\
  (forall f, In f package_files -> exists c, lookup m' (f :: job_dir) = Some (NFile c)) /\
  (forall q, (forall f, In f package_files -> q <> f :: job_dir) ->
             lookup m' q = lookup m q \/
             (lookup m q = None /\ lookup m' q = Some NDir /\ q <> [] /\
              (q = job_dir \/ is_ancestor q job_dir = true))) /\
  (is_dir m root = true -> lookup m job_dir = None -> package_layout m m' job_dir) /\
  (is_dir m job_dir = true ->
   forall q, (forall f, In f package_files -> q <> f :: job_dir) -> lookup m' q = lookup m q).

(** ** Diagnostics, [src/app/services/diagnostics.py] *)

Module Diagnostics.

(** [OUTPUT_ROOT = Path("job-packages")]. *)
Definition OUTPUT_ROOT : rpath := [lit "job-packages"].

Record error_entry := {
  time : pystr;
  message : pystr
}.

(** [datetime.isoformat(timespec="seconds")] of a naive datetime. *)
Definition isoformat_seconds (d : datetime) : pystr :=
  zpad 4 (dec (year d)) ++ lit "-" ++ zpad 2 (dec (month d)) ++ lit "-" ++ zpad 2 (dec (day d))
  ++ lit "T" ++ zpad 2 (dec (hour d)) ++ lit ":" ++ zpad 2 (dec (minute d))
  ++ lit ":" ++ zpad 2 (dec (second d)).

(** [deque.appendleft] on a deque with [maxlen]: the new item goes first,
    and a full deque drops its rightmost item. *)
Definition appendleft {A} (maxlen : nat) (x : A) (d : list A) : list A :=
  firstn maxlen (x :: d).

(** [ERROR_BUFFER = deque(maxlen=20)]. *)
Definition ERROR_BUFFER_maxlen : nat := 20.

(** [record_error(exc)] at time [now]; [exc_message] is [str(exc)]. *)
Definition record_error (buf : list error_entry) (now : datetime) (exc_message : pystr)
    : list error_entry :=
  appendleft ERROR_BUFFER_maxlen {| time := isoformat_seconds now; message := exc_message |} buf.

(** [get_recent_errors()]: [list(ERROR_BUFFER)], left to right. *)
Definition get_recent_errors (buf : list error_entry) : list error_entry := buf.

(** [init_diagnostics()]. *)
Definition init_diagnostics (m : fstate) : result fstate :=
  mkdir_parents m OUTPUT_ROOT true.

(** [stat().st_size] of a file written by [write_text]: its UTF-8 length
    (one byte below U+0080, two below U+0800, three below U+10000, four
    above). *)
Definition utf8_size (s : pystr) : nat :=
  fold_right (fun c n => (if (c <? 128)%N then 1 else if (c <? 2048)%N then 2
                          else if (c <? 65536)%N then 3 else 4) + n) 0 s.

(** [p] lies strictly below [root]. *)
Fixpoint is_below (root p : rpath) : bool :=
  match p with
  | [] => false
  | _ :: q => rpath_eqb q root || is_below root q
  end.

(** The sizes of the files [os.walk(root)] yields.  Each directory below
    the root is walked, so on a state where every path's parent is a
    directory (mkdir and write_text keep it so) these are the file entries
    below the root; [seen] holds the paths already counted, an entry
    shadowed by an earlier one with the same path is not a file of the
    state. *)
Fixpoint walk_aux (root : rpath) (seen : list rpath) (m : fstate) : nat :=
  match m with
  | [] => 0
  | (p, n) :: t =>
      if existsb (rpath_eqb p) seen then walk_aux root seen t
      else
        match n with
        | NFile c => if is_below root p then utf8_size c + walk_aux root (p :: seen) t
                     else walk_aux root (p :: seen) t
        | NDir => walk_aux root (p :: seen) t
        end
  end.

Definition walk_bytes (m : fstate) (root : rpath) : nat := walk_aux root [] m.

(** [get_output_stats()]: [total_jobs] and [total_bytes], and the state
    after the [mkdir]. *)
Definition get_output_stats (m : fstate) : result ((nat * nat) * fstate) :=
  let! m1 := mkdir_parents m OUTPUT_ROOT true in
  let! names := iterdir m1 OUTPUT_ROOT in
  let job_dirs := filter (fun name => is_dir m1 (name :: OUTPUT_ROOT)) names in
  let total_jobs := length job_dirs in
  let total_bytes := walk_bytes m1 OUTPUT_ROOT in
  Ok ((total_jobs, total_bytes), m1).

(** [get_dashboard_stats()]. *)
Definition get_dashboard_stats (buf : list error_entry) (m : fstate)
    : result ((list error_entry * (nat * nat)) * fstate) :=
  let errors := get_recent_errors buf in
  let! '(output, m1) := get_output_stats m in
  Ok ((errors, output), m1).

End Diagnostics.

(** ** Shapes of text used to state the normalizer's guarantees *)

(** Neither the first nor the last character is whitespace. *)
Definition trimmed (s : pystr) : Prop :=
  match s with
  | [] => True
  | c :: _ => py_isspace c = false /\ forall d, py_isspace (last s d) = false
  end.

(** No run of three newlines; [k] counts the newlines just before [s]. *)
Fixpoint nl_run_ok (k : nat) (s : pystr) : bool :=
  match s with
  | [] => true
  | c :: t => if N.eqb c nl then (k <? 2) && nl_run_ok (S k) t else nl_run_ok 0 t
  end.

(** Only [A-Za-z0-9] and single underscores; [prev_us] is set after an
    underscore. *)
Fixpoint us_ok (prev_us : bool) (s : pystr) : bool :=
  match s with
  | [] => true
  | c :: t => if is_alnum c then us_ok false t
              else N.eqb c underscore && negb prev_us && us_ok true t
  end.

(** The names [iterdir] lists for a directory [p]. *)
Definition children (m : fstate) (p : rpath) : list pystr :=
  flat_map (fun e => match fst e with
                     | c :: q => if rpath_eqb q p then [c] else []
                     | [] => []
                     end) m.

(** The UTF-8 sizes of the four package files of [job_dir]. *)
Definition package_bytes (m : fstate) (job_dir : rpath) : nat :=
  fold_right (fun f acc => match lookup m (f :: job_dir) with
                           | Some (NFile c) => Diagnostics.utf8_size c
                           | _ => 0
                           end + acc) 0 package_files.

(** ** Lemmas on the text primitives *)

Lemma prefixb_app_nl : forall q u v,
  ~ In nl q -> prefixb q (u ++ nl :: v) = prefixb q u.
Proof.
  induction q as [|a q IH]; intros u v Hq; [destruct u; reflexivity|].
  destruct u as [|b u]; simpl.
  - destruct (N.eqb_spec a nl) as [->|Hne]; [|reflexivity].
    exfalso; apply Hq; left; reflexivity.
  - rewrite IH; [reflexivity|intros H; apply Hq; right; exact H].
Qed.

Lemma prefixb_app_self : forall p s, prefixb p (p ++ s) = true.
Proof.
  induction p as [|a p IH]; intros s; simpl; [reflexivity|].
  rewrite N.eqb_refl, IH; reflexivity.
Qed.

Lemma prefixb_app_inv : forall p r s, prefixb (p ++ r) s = true -> prefixb p s = true.
Proof.
  induction p as [|a p IH]; intros r s H; [reflexivity|].
  destruct s as [|b s]; simpl in *; [discriminate|].
  apply andb_prop in H as [H1 H2]; rewrite H1; simpl; eapply IH; exact H2.
Qed.

Lemma prefixb_nil_r : forall p, p <> [] -> prefixb p [] = false.
Proof. intros [|a p] H; [congruence|reflexivity]. Qed.

Lemma find_aux_S : forall s q i, find_aux s q (S i) = option_map S (find_aux s q i).
Proof.
  induction s as [|c s IH]; intros q i; simpl;
    destruct (prefixb q _); simpl; auto.
Qed.

Lemma find_aux_shift : forall s q i,
  find_aux s q i = option_map (Nat.add i) (py_find s q).
Proof.
  intros s q i; unfold py_find; induction i as [|i IH].
  - destruct (find_aux s q 0); reflexivity.
  - rewrite find_aux_S, IH; destruct (find_aux s q 0); reflexivity.
Qed.

Lemma find_aux_app_nl : forall x y q i, q <> [] -> ~ In nl q ->
  find_aux (x ++ nl :: y) q i =
  match find_aux x q i with Some j => Some j | None => find_aux y q (S (length x + i)) end.
Proof.
  induction x as [|a x IH]; intros y q i Hq Hnl.
  - pose proof (prefixb_app_nl q [] y Hnl) as E. simpl in E |- *.
    rewrite E, (prefixb_nil_r q Hq). reflexivity.
  - change ((a :: x) ++ nl :: y) with (a :: (x ++ nl :: y)).
    pose proof (prefixb_app_nl q (a :: x) y Hnl) as E. simpl in E.
    cbn [find_aux]. rewrite E.
    destruct (prefixb q (a :: x)); [reflexivity|].
    rewrite IH by assumption. simpl length.
    replace (S (length x + S i)) with (S (S (length x + i))) by lia. reflexivity.
Qed.

Lemma py_find_app_nl : forall x y q, q <> [] -> ~ In nl q -> py_find x q = None ->
  py_find (x ++ nl :: y) q = option_map (Nat.add (S (length x))) (py_find y q).
Proof.
  intros x y q Hq Hnl Hx. unfold py_find in *.
  rewrite find_aux_app_nl, Hx by assumption.
  rewrite find_aux_shift, Nat.add_0_r. reflexivity.
Qed.

Lemma py_find_head : forall s q, prefixb q s = true -> py_find s q = Some 0.
Proof. intros [|c s] q H; unfold py_find; simpl; rewrite H; reflexivity. Qed.

Lemma py_find_nil : forall q, q <> [] -> py_find [] q = None.
Proof. intros q Hq; unfold py_find; simpl; rewrite prefixb_nil_r by exact Hq; reflexivity. Qed.

Lemma find_aux_ge : forall s q i j, find_aux s q i = Some j -> i <= j.
Proof.
  induction s as [|c s IH]; intros q i j H; simpl in H.
  - destruct (prefixb q []); inversion H; lia.
  - destruct (prefixb q (c :: s)); [inversion H; lia|].
    apply IH in H; lia.
Qed.

Lemma find_aux_ext : forall s kw r i j,
  find_aux s kw i = Some j -> prefixb (kw ++ r) (skipn (j - i) s) = true ->
  find_aux s (kw ++ r) i = Some j.
Proof.
  induction s as [|c s IH]; intros kw r i j H Hp.
  - simpl in *. destruct (prefixb kw []); inversion H; subst.
    rewrite Nat.sub_diag in Hp; simpl in Hp; rewrite Hp; reflexivity.
  - cbn [find_aux] in *. destruct (prefixb kw (c :: s)) eqn:Ek.
    + inversion H; subst. rewrite Nat.sub_diag in Hp; simpl in Hp.
      rewrite Hp; reflexivity.
    + destruct (prefixb (kw ++ r) (c :: s)) eqn:Er.
      { apply prefixb_app_inv in Er; congruence. }
      pose proof (find_aux_ge _ _ _ _ H) as Hge.
      apply IH; [exact H|].
      replace (j - i) with (S (j - S i)) in Hp by lia. exact Hp.
Qed.

Lemma py_find_ext : forall s kw r j,
  py_find s kw = Some j -> prefixb (kw ++ r) (skipn j s) = true ->
  py_find s (kw ++ r) = Some j.
Proof.
  intros s kw r j H Hp; unfold py_find in *; apply find_aux_ext; [exact H|].
  rewrite Nat.sub_0_r; exact Hp.
Qed.

Lemma find_aux_none_ext : forall s kw r i,
  find_aux s kw i = None -> find_aux s (kw ++ r) i = None.
Proof.
  induction s as [|c s IH]; intros kw r i H; cbn [find_aux] in *.
  - destruct (prefixb kw []) eqn:E; [discriminate|].
    destruct (prefixb (kw ++ r) []) eqn:Er; [apply prefixb_app_inv in Er; congruence|reflexivity].
  - destruct (prefixb kw (c :: s)) eqn:E; [discriminate|].
    destruct (prefixb (kw ++ r) (c :: s)) eqn:Er; [apply prefixb_app_inv in Er; congruence|].
    apply IH; exact H.
Qed.

Lemma py_find_none_ext : forall s kw r, py_find s kw = None -> py_find s (kw ++ r) = None.
Proof. intros; unfold py_find in *; apply find_aux_none_ext; assumption. Qed.

Lemma skipn_app_length : forall (a b : pystr), skipn (length a) (a ++ b) = b.
Proof. induction a as [|x a IH]; intros b; simpl; auto. Qed.

Lemma firstn_app_length : forall (a b : pystr), firstn (length a) (a ++ b) = a.
Proof. induction a as [|x a IH]; intros b; simpl; [reflexivity|]; rewrite IH; reflexivity. Qed.

Lemma lstrip_by_app : forall f x y,
  lstrip_by f (x ++ y) = match lstrip_by f x with [] => lstrip_by f y | z => z ++ y end.
Proof.
  induction x as [|c x IH]; intros y; simpl; [reflexivity|].
  destruct (f c); [apply IH|reflexivity].
Qed.

Lemma strip_snoc_space : forall b c, py_isspace c = true ->
  py_strip (b ++ [c]) = py_strip b.
Proof.
  intros b c Hc. unfold py_strip, strip_by, rstrip_by.
  rewrite lstrip_by_app. destruct (lstrip_by py_isspace b) as [|d z] eqn:E.
  - simpl. rewrite Hc. reflexivity.
  - rewrite rev_app_distr. simpl. rewrite Hc. reflexivity.
Qed.

Lemma strip_cons_space : forall b c, py_isspace c = true ->
  py_strip (c :: b) = py_strip b.
Proof. intros b c Hc. unfold py_strip, strip_by. simpl. rewrite Hc. reflexivity. Qed.

Lemma join_nl_cons : forall l ls,
  join_nl (l :: ls) = l ++ match ls with [] => [] | _ :: _ => nl :: join_nl ls end.
Proof. intros l [|l' ls]; simpl; [rewrite app_nil_r|]; reflexivity. Qed.

Lemma join_nl_app : forall ls1 ls2, ls1 <> [] -> ls2 <> [] ->
  join_nl (ls1 ++ ls2) = join_nl ls1 ++ nl :: join_nl ls2.
Proof.
  induction ls1 as [|a ls1 IH]; intros ls2 H1 H2; [congruence|].
  destruct ls1 as [|b ls1].
  - simpl. destruct ls2; [congruence|reflexivity].
  - change ((a :: b :: ls1) ++ ls2) with (a :: ((b :: ls1) ++ ls2)).
    change (join_nl (a :: (b :: ls1) ++ ls2))
      with (a ++ nl :: join_nl ((b :: ls1) ++ ls2)).
    rewrite IH by (congruence || assumption).
    change (join_nl (a :: b :: ls1)) with (a ++ nl :: join_nl (b :: ls1)).
    rewrite <- app_assoc. reflexivity.
Qed.

Lemma find_join_none : forall ls q, q <> [] -> ~ In nl q ->
  Forall (fun l => py_find l q = None) ls -> py_find (join_nl ls) q = None.
Proof.
  induction ls as [|l ls IH]; intros q Hq Hnl H; [apply py_find_nil; exact Hq|].
  inversion H as [|? ? Hl Hls]; subst.
  rewrite join_nl_cons. destruct ls as [|l' ls]; [rewrite app_nil_r; exact Hl|].
  rewrite py_find_app_nl, IH by assumption. reflexivity.
Qed.

(** ** Section extraction on a laid-out blob *)

Lemma extract_block_at : forall text a st rest ekw k,
  text = a ++ st ++ rest -> py_find text st = Some (length a) ->
  py_find rest ekw = Some k ->
  extract_block text st ekw = py_strip (firstn k rest).
Proof.
  intros text a st rest ekw k Et Hs He. unfold extract_block. rewrite Hs.
  assert (Hsk : skipn (length a + length st) text = rest).
  { rewrite Et, app_assoc, <- length_app. apply skipn_app_length. }
  unfold py_find_from. rewrite Hsk, He. simpl option_map.
  unfold py_slice. rewrite Hsk.
  replace (length a + length st + k - (length a + length st)) with k by lia.
  reflexivity.
Qed.

Section Sections.
Variables (pre kw body ekw post : pystr).
Hypothesis Hkw : kw <> [].
Hypothesis Hkw_nl : ~ In nl kw.
Hypothesis Hekw : ekw <> [].
Hypothesis Hekw_nl : ~ In nl ekw.
Hypothesis Hpre : py_find pre kw = None.
Hypothesis Hbody : py_find body ekw = None.

Let text := pre ++ nl :: kw ++ nl :: body ++ nl :: ekw ++ post.

Lemma find_tag_in_text : py_find text kw = Some (S (length pre)).
Proof.
  unfold text. rewrite py_find_app_nl by assumption.
  rewrite py_find_head by apply prefixb_app_self. simpl. f_equal; lia.
Qed.

Lemma find_end_tag_after : py_find (body ++ nl :: ekw ++ post) ekw = Some (S (length body)).
Proof.
  rewrite py_find_app_nl by assumption.
  rewrite py_find_head by apply prefixb_app_self. simpl. f_equal; lia.
Qed.

Lemma extract_block_tag_nl : extract_block text (kw ++ [nl]) ekw = py_strip body.
Proof.
  rewrite (extract_block_at text (pre ++ [nl]) (kw ++ [nl]) (body ++ nl :: ekw ++ post) ekw
             (S (length body))).
  - replace (body ++ nl :: ekw ++ post) with ((body ++ [nl]) ++ ekw ++ post)
      by (rewrite <- app_assoc; reflexivity).
    replace (S (length body)) with (length (body ++ [nl]))
      by (rewrite length_app; simpl; lia).
    rewrite firstn_app_length. apply strip_snoc_space. reflexivity.
  - unfold text. rewrite <- !app_assoc. reflexivity.
  - apply py_find_ext.
    + rewrite find_tag_in_text, length_app. simpl. f_equal; lia.
    + replace (S (length pre)) with (length (pre ++ [nl])) by (rewrite length_app; simpl; lia).
      unfold text. replace (pre ++ nl :: kw ++ nl :: body ++ nl :: ekw ++ post)
        with ((pre ++ [nl]) ++ (kw ++ [nl]) ++ (body ++ nl :: ekw ++ post))
        by (rewrite <- !app_assoc; reflexivity).
      rewrite skipn_app_length. apply prefixb_app_self.
  - exact find_end_tag_after.
Qed.

Lemma extract_block_tag_bare : extract_block text kw ekw = py_strip body.
Proof.
  rewrite (extract_block_at text (pre ++ [nl]) kw (nl :: body ++ nl :: ekw ++ post) ekw
             (S (S (length body)))).
  - replace (nl :: body ++ nl :: ekw ++ post) with ((nl :: body ++ [nl]) ++ ekw ++ post)
      by (simpl; rewrite <- app_assoc; reflexivity).
    replace (S (S (length body))) with (length (nl :: body ++ [nl]))
      by (simpl; rewrite length_app; simpl; lia).
    rewrite firstn_app_length, strip_cons_space by reflexivity.
    apply strip_snoc_space. reflexivity.
  - unfold text. rewrite <- !app_assoc. reflexivity.
  - rewrite find_tag_in_text, length_app. simpl. f_equal; lia.
  - change (nl :: body ++ nl :: ekw ++ post) with ([] ++ nl :: (body ++ nl :: ekw ++ post)).
    rewrite py_find_app_nl, find_end_tag_after by (try apply py_find_nil; assumption).
    reflexivity.
Qed.

Lemma extract_section_layout : extract_section text kw ekw = py_strip body.
Proof.
  unfold extract_section. rewrite extract_block_tag_nl.
  destruct (py_strip body) eqn:E; [|reflexivity].
  rewrite extract_block_tag_bare. exact E.
Qed.
End Sections.

(** The line list [join_nl (ls1 ++ kw :: body :: ekw :: ls2)] has the shape
    used above. *)
Lemma extract_section_join : forall ls1 kw body ekw ls2,
  ls1 <> [] -> kw <> [] -> ~ In nl kw -> ekw <> [] -> ~ In nl ekw ->
  Forall (fun l => py_find l kw = None) ls1 -> py_find body ekw = None ->
  extract_section (join_nl (ls1 ++ kw :: body :: ekw :: ls2)) kw ekw = py_strip body.
Proof.
  intros ls1 kw body ekw ls2 H1 Hkw Hkwn Hekw Hekwn Hls Hb.
  rewrite join_nl_app by (assumption || discriminate).
  rewrite !join_nl_cons.
  apply extract_section_layout; try assumption.
  apply find_join_none; assumption.
Qed.

Lemma extract_section_lines : forall text ls1 kw body ekw ls2,
  text = join_nl (ls1 ++ kw :: body :: ekw :: ls2) ->
  ls1 <> [] -> kw <> [] -> ~ In nl kw -> ekw <> [] -> ~ In nl ekw ->
  Forall (fun l => py_find l kw = None) ls1 -> py_find body ekw = None ->
  extract_section text kw ekw = py_strip body.
Proof. intros; subst; apply extract_section_join; assumption. Qed.

Lemma body_ok_inv : forall b, body_ok b ->
  py_find b (lit "COVER_LETTER:") = None /\ py_find b (lit "END_COVER_LETTER") = None /\
  py_find b (lit "RESUME:") = None /\ py_find b (lit "END_RESUME") = None /\
  py_find b (lit "SHORT_ANSWERS:") = None /\ py_find b (lit "END_SHORT_ANSWERS") = None.
Proof.
  intros b H. unfold body_ok, section_keywords in H. simpl in H.
  repeat match goal with H : Forall _ (_ :: _) |- _ => inversion H; subst; clear H end.
  repeat split; assumption.
Qed.

Lemma fit_search_73 : forall rest,
  fit_search (lit "FIT_SCORE: 73" ++ nl :: rest) = Some (lit "73", []).
Proof. intros [|c rest]; reflexivity. Qed.

Lemma fit_not_nl : ~ In nl (lit "FIT_SCORE:").
Proof. intros H. simpl in H. intuition discriminate. Qed.

(** No [FIT_SCORE:] before a line break: the search goes on after it. *)
Lemma fit_search_app_nl : forall a b, py_find a (lit "FIT_SCORE:") = None ->
  fit_search (a ++ nl :: b) = fit_search b.
Proof.
  induction a as [|c a IH]; intros b H; [reflexivity|].
  unfold py_find in H. cbn [find_aux] in H.
  destruct (prefixb (lit "FIT_SCORE:") (c :: a)) eqn:Hp; [discriminate|].
  rewrite find_aux_S in H. destruct (find_aux a _ 0) eqn:Ha; [discriminate|].
  assert (Hp' : prefixb (lit "FIT_SCORE:") (c :: a ++ nl :: b) = false)
    by exact (eq_trans (prefixb_app_nl _ (c :: a) b fit_not_nl) Hp).
  change ((c :: a) ++ nl :: b) with (c :: a ++ nl :: b). cbn [fit_search].
  unfold fit_match_at at 1. rewrite Hp'.
  apply IH. exact Ha.
Qed.

Lemma fit_search_layout : forall pre rest, rest <> [] ->
  Forall (fun l => py_find l (lit "FIT_SCORE:") = None) pre ->
  fit_search (join_nl (pre ++ [lit "FIT_SCORE: " ++ lit "73"] ++ rest)) = Some (lit "73", []).
Proof.
  intros pre rest Hr Hpre.
  change ([lit "FIT_SCORE: " ++ lit "73"] ++ rest) with ((lit "FIT_SCORE: " ++ lit "73") :: rest). destruct rest as [|l rest]; [contradiction|].
  assert (E : join_nl ((lit "FIT_SCORE: " ++ lit "73") :: l :: rest)
              = lit "FIT_SCORE: 73" ++ nl :: join_nl (l :: rest)) by reflexivity.
  destruct pre as [|p pre].
  - rewrite app_nil_l, E. apply fit_search_73.
  - rewrite join_nl_app by discriminate. rewrite fit_search_app_nl.
    + rewrite E. apply fit_search_73.
    + apply find_join_none; [discriminate | exact fit_not_nl | exact Hpre].
Qed.

Lemma gap_tag : forall kw ls, In kw all_tags -> Forall gap_ok ls ->
  Forall (fun l => py_find l kw = None) ls.
Proof.
  intros kw ls Hk H. eapply Forall_impl; [|exact H].
  intros l Hl. unfold gap_ok in Hl. rewrite Forall_forall in Hl. apply Hl, Hk.
Qed.

Lemma body_tag : forall kw b, In kw section_keywords -> body_ok b -> py_find b kw = None.
Proof. intros kw b Hk H. unfold body_ok in H. rewrite Forall_forall in H. apply H, Hk. Qed.

Ltac concrete_find := solve [ vm_compute; reflexivity | discriminate
                            | intros H; simpl in H; intuition discriminate ].

Ltac layout_side :=
  repeat match goal with
  | |- Forall _ (_ ++ _) => apply Forall_app; split
  | |- Forall _ (_ :: _) => apply Forall_cons
  | |- Forall _ [] => apply Forall_nil
  end;
  first [ reflexivity
        | assumption
        | f_equal; rewrite <- !app_assoc; reflexivity
        | let E := fresh in intros E; apply app_eq_nil in E as [_ E]; discriminate
        | apply gap_tag; [unfold all_tags, section_keywords; simpl; tauto | assumption]
        | apply body_tag; [unfold section_keywords; simpl; tauto | assumption]
        | concrete_find ].

(** ** Claim C1 *)

(** C1 (amended).  On a blob laid out as the system prompt asks -- the line
    [FIT_SCORE: 73], then [REASONING:], its body, [COVER_LETTER:], its body,
    [END_COVER_LETTER], [RESUME:], its body, [END_RESUME], [SHORT_ANSWERS:],
    its body, [END_SHORT_ANSWERS], each on a line of its own -- with any
    text before the fit-score line, between it and [REASONING:], before
    [RESUME:] and [SHORT_ANSWERS:] (such as the blank lines the prompt asks
    for) and after [END_SHORT_ANSWERS], as long as that text contains none
    of the tags and the bodies contain none of the section tags,
    [parse_model_output] returns the fit score 73 and every field is its
    body trimmed and then normalized; so a field is non-empty exactly when
    its normalized body is. *)
Theorem parse_tagged_blob : forall pre g1 g2 g3 post r c res sa,
  Forall gap_ok pre -> Forall gap_ok g1 -> Forall gap_ok g2 -> Forall gap_ok g3 ->
  Forall gap_ok post ->
  body_ok r -> body_ok c -> body_ok res -> body_ok sa ->
  parse_model_output (tagged_layout pre g1 g2 g3 post (lit "73") r c res sa) =
  Parsed {| fit_score := 73 # 1;
            reasoning := clean_model_text (py_strip r);
            cover_letter := clean_model_text (py_strip c);
            resume := clean_model_text (py_strip res);
            short_answers := short_answers_of (clean_model_text (py_strip sa)) |}.
Proof.
  intros pre g1 g2 g3 post r c res sa Hpre Hg1 Hg2 Hg3 Hpost Hr Hc Hres Hsa.
  unfold parse_model_output, tagged_layout.
  rewrite (fit_search_layout pre
             (g1 ++ [lit "REASONING:"; r; lit "COVER_LETTER:"; c; lit "END_COVER_LETTER"] ++ g2
              ++ [lit "RESUME:"; res; lit "END_RESUME"] ++ g3
              ++ [lit "SHORT_ANSWERS:"; sa; lit "END_SHORT_ANSWERS"] ++ post)).
  2:{ intros E. apply app_eq_nil in E as [_ E]. discriminate. }
  2:{ apply gap_tag; [left; reflexivity | exact Hpre]. }
  rewrite (extract_section_lines _ (pre ++ [lit "FIT_SCORE: " ++ lit "73"] ++ g1) (lit "REASONING:") r (lit "COVER_LETTER:")
             ([c; lit "END_COVER_LETTER"] ++ g2 ++ [lit "RESUME:"; res; lit "END_RESUME"] ++ g3
              ++ [lit "SHORT_ANSWERS:"; sa; lit "END_SHORT_ANSWERS"] ++ post))
    by layout_side.
  rewrite (extract_section_lines _ (pre ++ [lit "FIT_SCORE: " ++ lit "73"] ++ g1 ++ [lit "REASONING:"; r])
             (lit "COVER_LETTER:") c (lit "END_COVER_LETTER")
             (g2 ++ [lit "RESUME:"; res; lit "END_RESUME"] ++ g3
              ++ [lit "SHORT_ANSWERS:"; sa; lit "END_SHORT_ANSWERS"] ++ post))
    by layout_side.
  rewrite (extract_section_lines _
             (pre ++ [lit "FIT_SCORE: " ++ lit "73"] ++ g1 ++ [lit "REASONING:"; r; lit "COVER_LETTER:"; c;
                                   lit "END_COVER_LETTER"] ++ g2)
             (lit "RESUME:") res (lit "END_RESUME")
             (g3 ++ [lit "SHORT_ANSWERS:"; sa; lit "END_SHORT_ANSWERS"] ++ post))
    by layout_side.
  rewrite (extract_section_lines _
             (pre ++ [lit "FIT_SCORE: " ++ lit "73"] ++ g1 ++ [lit "REASONING:"; r; lit "COVER_LETTER:"; c;
                                   lit "END_COVER_LETTER"] ++ g2
              ++ [lit "RESUME:"; res; lit "END_RESUME"] ++ g3)
             (lit "SHORT_ANSWERS:") sa (lit "END_SHORT_ANSWERS") post)
    by layout_side.
  reflexivity.
Qed.

Ltac prove_body_ok :=
  unfold body_ok, section_keywords; simpl map;
  repeat (apply Forall_cons; [vm_compute; reflexivity|]); apply Forall_nil.

Ltac prove_gap_ok :=
  repeat (apply Forall_cons; [unfold gap_ok, all_tags, section_keywords; simpl map;
                              repeat (apply Forall_cons; [vm_compute; reflexivity|]);
                              apply Forall_nil|]);
  apply Forall_nil.

(** The theorem on a reply laid out as the prompt of [process_job] shows it:
    a preamble line, the reasoning paragraph followed by a blank line,
    blank lines before [RESUME:] and [SHORT_ANSWERS:], and a closing
    line. *)
Lemma parse_tagged_blob_witness :
  let pre := [lit "Here is the package."] in
  let g1 := [] in
  let g2 := [[]] in
  let g3 := [[]] in
  let post := [lit "Thank you."] in
  let r := lit "Good match." ++ [nl] in
  Forall gap_ok pre /\ Forall gap_ok g2 /\ Forall gap_ok post /\
  body_ok r /\ body_ok (lit "Dear team,") /\
  body_ok (lit "Jane Doe") /\ body_ok (lit "1) Because.") /\
  parse_model_output (tagged_layout pre g1 g2 g3 post (lit "73") r (lit "Dear team,")
                        (lit "Jane Doe") (lit "1) Because.")) =
  Parsed {| fit_score := 73 # 1;
            reasoning := clean_model_text (py_strip r);
            cover_letter := clean_model_text (py_strip (lit "Dear team,"));
            resume := clean_model_text (py_strip (lit "Jane Doe"));
            short_answers := short_answers_of (clean_model_text (py_strip (lit "1) Because."))) |}.
Proof.
  intros pre g1 g2 g3 post r.
  assert (Hpre : Forall gap_ok pre) by prove_gap_ok.
  assert (Hg1 : Forall gap_ok g1) by prove_gap_ok.
  assert (Hg2 : Forall gap_ok g2) by prove_gap_ok.
  assert (Hg3 : Forall gap_ok g3) by prove_gap_ok.
  assert (Hpost : Forall gap_ok post) by prove_gap_ok.
  assert (Hr : body_ok r) by prove_body_ok.
  assert (Hc : body_ok (lit "Dear team,")) by prove_body_ok.
  assert (Hres : body_ok (lit "Jane Doe")) by prove_body_ok.
  assert (Hsa : body_ok (lit "1) Because.")) by prove_body_ok.
  repeat (split; [assumption|]).
  exact (parse_tagged_blob pre g1 g2 g3 post r _ _ _ Hpre Hg1 Hg2 Hg3 Hpost Hr Hc Hres Hsa).
Defined.

(** Counterexample to C1 as stated: the reasoning body [...] is not empty, yet
    the normalizer drops it as a placeholder line, so the parsed reasoning is
    empty. *)
Lemma parse_placeholder_reasoning_empty :
  exists p, parse_model_output (tagged_blob (lit "73") (lit "...") (lit "Dear team,")
                                  (lit "Jane Doe") (lit "1) Because.")) = Parsed p /\
            fit_score p = 73 # 1 /\ reasoning p = [] /\ cover_letter p <> [] /\ resume p <> [].
Proof.
  vm_compute. eexists. split; [reflexivity|]. split; [reflexivity|].
  split; [reflexivity|]. split; discriminate.
Qed.

(** ** Claim C2 *)

Ltac nat_cmp :=
  repeat match goal with
         | |- context [?a <=? ?b] => destruct (Nat.leb_spec a b)
         | |- context [?a =? ?b] => destruct (Nat.eqb_spec a b)
         end; simpl; try reflexivity; lia.

Ltac n_cmp :=
  repeat match goal with
         | |- context [(?a <=? ?b)%N] => destruct (N.leb_spec a b)
         | |- context [(?a =? ?b)%N] => destruct (N.eqb_spec a b)
         end; simpl; try reflexivity; lia.

Lemma digit_not_space : forall c, is_digit c = true -> py_isspace c = false.
Proof.
  intros c H. unfold is_digit, py_isspace in *.
  apply andb_prop in H as [H1 H2]. apply N.leb_le in H1, H2. n_cmp.
Qed.

Lemma prefixb_true_app : forall p s, prefixb p s = true -> s = p ++ skipn (length p) s.
Proof.
  induction p as [|a p IH]; intros s H; [reflexivity|].
  destruct s as [|b s]; [discriminate|]. simpl in H.
  apply andb_prop in H as [H1 H2]. apply N.eqb_eq in H1. subst b.
  simpl. f_equal. apply IH; exact H2.
Qed.

Lemma span_app : forall f s, fst (span f s) ++ snd (span f s) = s.
Proof.
  induction s as [|c s IH]; simpl; [reflexivity|].
  destruct (f c); [|reflexivity]. destruct (span f s) as [a b]; simpl in *. rewrite IH; reflexivity.
Qed.

Lemma span_fst_all : forall f s, Forall (fun c => f c = true) (fst (span f s)).
Proof.
  induction s as [|c s IH]; simpl; [constructor|].
  destruct (f c) eqn:E; [|constructor]. destruct (span f s) as [a b]; simpl in *.
  constructor; assumption.
Qed.

Lemma span_stop : forall f xs y ys, Forall (fun c => f c = true) xs -> f y = false ->
  span f (xs ++ y :: ys) = (xs, y :: ys).
Proof.
  induction xs as [|x xs IH]; intros y ys Hx Hy; simpl; [rewrite Hy; reflexivity|].
  inversion Hx; subst. rewrite H1, IH by assumption. reflexivity.
Qed.

Lemma span_nonempty_head : forall f c s, f c = true -> fst (span f (c :: s)) <> [].
Proof. intros f c s H. simpl. rewrite H. destruct (span f s); discriminate. Qed.

Lemma fit_match_at_pattern : forall s, fit_match_at s <> None <-> fit_pattern_at s.
Proof.
  intros s; split.
  - unfold fit_match_at. intros H. destruct (prefixb (lit "FIT_SCORE:") s) eqn:Ep; [|congruence].
    apply prefixb_true_app in Ep. simpl length in Ep.
    pose proof (span_app py_isspace (skipn 10 s)) as A1.
    pose proof (span_fst_all py_isspace (skipn 10 s)) as F1.
    destruct (span py_isspace (skipn 10 s)) as [ws s1]. simpl in *.
    pose proof (span_app is_digit s1) as A2. pose proof (span_fst_all is_digit s1) as F2.
    destruct (span is_digit s1) as [ds s2]. simpl in *.
    destruct ds as [|d ds']; [congruence|].
    exists ws, (d :: ds'), s2. repeat split; try assumption; [|discriminate].
    rewrite Ep at 1. rewrite <- A1, <- A2. reflexivity.
  - intros (ws & ds & rest & Es & Hws & Hds & Hdig).
    destruct ds as [|d ds']; [congruence|]. inversion Hdig as [|? ? Hd Hds']; subst.
    unfold fit_match_at. rewrite prefixb_app_self.
    change 10 with (length (lit "FIT_SCORE:")). rewrite skipn_app_length.
    change ((d :: ds') ++ rest) with (d :: ds' ++ rest).
    rewrite (span_stop py_isspace ws d (ds' ++ rest) Hws (digit_not_space d Hd)). simpl snd.
    pose proof (span_nonempty_head is_digit d (ds' ++ rest) Hd) as Hne.
    destruct (span is_digit (d :: ds' ++ rest)) as [ds2 s2]. simpl in Hne.
    destruct ds2 as [|x xs]; [congruence|].
    destruct s2 as [|c1 [|c2 s3]]; [discriminate|discriminate|].
    destruct (N.eqb c1 (ch ".") && is_digit c2); discriminate.
Qed.

Lemma fit_search_pattern : forall s, fit_search s <> None <-> has_fit_pattern s.
Proof.
  induction s as [|c s IH]; split.
  - intros H. exists [], []. split; [reflexivity|]. apply fit_match_at_pattern.
    simpl in H. destruct (fit_match_at []); congruence.
  - intros (pre & suf & E & Hp). destruct pre; [|discriminate]. simpl in E; subst.
    apply fit_match_at_pattern in Hp. exfalso; apply Hp; reflexivity.
  - intros H. simpl in H. destruct (fit_match_at (c :: s)) eqn:E.
    + exists [], (c :: s). split; [reflexivity|]. apply fit_match_at_pattern. congruence.
    + apply IH in H as (pre & suf & E2 & Hp). exists (c :: pre), suf. subst; split; [reflexivity|exact Hp].
  - intros (pre & suf & E & Hp). simpl. destruct (fit_match_at (c :: s)) eqn:Em; [discriminate|].
    destruct pre as [|c' pre].
    + simpl in E; subst. apply fit_match_at_pattern in Hp. congruence.
    + inversion E; subst. apply IH. exists pre, suf. split; [reflexivity|exact Hp].
Qed.

Lemma extract_section_absent : forall text kw ekw,
  py_contains text kw = false -> extract_section text kw ekw = [].
Proof.
  intros text kw ekw H. unfold py_contains in H.
  destruct (py_find text kw) eqn:E; [discriminate|].
  unfold extract_section, extract_block. rewrite py_find_none_ext, E by exact E. reflexivity.
Qed.

(** C2.  [parse_model_output] fails, with the missing-field error carrying the
    first 300 characters of the text, exactly when no [FIT_SCORE:] followed
    (after optional whitespace) by a number occurs anywhere in the text;
    otherwise it succeeds, and a section whose start tag does not occur
    yields the empty string (three empty answers for [SHORT_ANSWERS:]). *)
Theorem parse_fails_iff_no_fit_score : forall raw,
  (is_missing_fit_score (parse_model_output raw) = true <-> ~ has_fit_pattern raw) /\
  (forall snip, parse_model_output raw = MissingFitScore snip -> snip = firstn 300 raw) /\
  (forall p, parse_model_output raw = Parsed p ->
     (py_contains raw (lit "REASONING:") = false -> reasoning p = []) /\
     (py_contains raw (lit "COVER_LETTER:") = false -> cover_letter p = []) /\
     (py_contains raw (lit "RESUME:") = false -> resume p = []) /\
     (py_contains raw (lit "SHORT_ANSWERS:") = false -> short_answers p = [[]; []; []])).
Proof.
  intros raw. unfold parse_model_output.
  pose proof (fit_search_pattern raw) as Hiff.
  destruct (fit_search raw) as [[ip fp]|] eqn:Es.
  - split; [simpl; split; [discriminate|intros Hn; exfalso; apply Hn, Hiff; discriminate]|].
    split; [discriminate|].
    intros p Hp. inversion Hp; subst; simpl.
    repeat split; intros Ha; rewrite (extract_section_absent _ _ _ Ha); reflexivity.
  - split; [simpl; split; [intros _ Hn; apply Hiff in Hn; congruence|reflexivity]|].
    split; [intros snip Hs; inversion Hs; reflexivity|discriminate].
Qed.

(** ** Claim C3 *)

Lemma fold_collect_answer : forall lines acc,
  fold_left collect_answer lines acc =
  acc ++ map (fun l => strip_enumerator (py_strip l))
             (filter (fun l => negb (is_empty_str (py_strip l))) lines).
Proof.
  induction lines as [|l lines IH]; intros acc; simpl; [rewrite app_nil_r; reflexivity|].
  rewrite IH. unfold collect_answer. destruct (py_strip l) eqn:E; simpl.
  - reflexivity.
  - rewrite E, <- app_assoc. reflexivity.
Qed.

Lemma pad_answers_closed : forall k xs, length xs <= 3 -> 3 <= length xs + k ->
  pad_answers k xs = xs ++ repeat [] (3 - length xs).
Proof.
  induction k as [|k IH]; intros xs H1 H2; cbn [pad_answers].
  - replace (3 - length xs) with 0 by lia. simpl. rewrite app_nil_r. reflexivity.
  - destruct (Nat.ltb_spec (length xs) 3).
    + rewrite IH by (rewrite length_app; simpl; lia).
      rewrite length_app, <- app_assoc.
      change (length [@nil pychar]) with 1.
      replace (3 - length xs) with (S (3 - (length xs + 1))) by lia.
      reflexivity.
    + replace (3 - length xs) with 0 by lia. simpl. rewrite app_nil_r. reflexivity.
Qed.

Lemma short_answers_of_spec : forall block, short_answers_of block = short_answers_spec block.
Proof.
  intros block. unfold short_answers_of, short_answers_spec.
  rewrite fold_collect_answer, app_nil_l.
  set (xs := map _ _).
  destruct (Nat.ltb_spec 3 (length xs)).
  - rewrite pad_answers_closed by (rewrite length_firstn; lia).
    rewrite length_firstn. replace (3 - Nat.min 3 (length xs)) with 0 by lia.
    replace (3 - length xs) with 0 by lia. reflexivity.
  - rewrite pad_answers_closed by lia. rewrite firstn_all2 by lia. reflexivity.
Qed.

Lemma short_answers_spec_length : forall block, length (short_answers_spec block) = 3.
Proof.
  intros block. unfold short_answers_spec. rewrite length_app, repeat_length, length_firstn. lia.
Qed.

(** C3 (amended).  In the tagged-blob variant, the short answers are the
    non-empty trimmed lines of the block with their enumerator removed, cut to
    the first three and padded with empty strings to three.  In the
    per-artifact variant the answers are the non-blank paragraphs of the model
    output (separated by a blank line), trimmed, without enumerator removal:
    the first three, or with the last one repeated up to three, or three empty
    strings when there is none.  Both return exactly three strings. *)
Theorem short_answers_three : forall block raw,
  short_answers_of block = short_answers_spec block /\
  length (short_answers_of block) = 3 /\
  generate_short_answers raw =
    match answer_parts raw with
    | [] => [[]; []; []]
    | [a] => [a; a; a]
    | [a; b] => [a; b; b]
    | a :: b :: c :: _ => [a; b; c]
    end /\
  length (generate_short_answers raw) = 3.
Proof.
  intros block raw.
  assert (Hg : generate_short_answers raw =
    match answer_parts raw with
    | [] => [[]; []; []]
    | [a] => [a; a; a]
    | [a; b] => [a; b; b]
    | a :: b :: c :: _ => [a; b; c]
    end).
  { unfold generate_short_answers.
    destruct (answer_parts raw) as [|a [|b [|c rest]]]; reflexivity. }
  rewrite short_answers_of_spec. repeat split.
  - apply short_answers_spec_length.
  - exact Hg.
  - rewrite Hg. destruct (answer_parts raw) as [|a [|b [|c rest]]]; reflexivity.
Qed.

(** Counterexample to C3 as stated: with a single answer paragraph the
    per-artifact variant repeats it instead of padding with empty strings. *)
Lemma generate_short_answers_repeats_last :
  generate_short_answers (lit "Only one answer.") =
    [lit "Only one answer."; lit "Only one answer."; lit "Only one answer."] /\
  generate_short_answers (lit "Only one answer.") <> [lit "Only one answer."; []; []].
Proof. split; [vm_compute; reflexivity|vm_compute; congruence]. Qed.

(** ** Claim C4 *)

Lemma replace_st_two : forall b x y s, replace_st [b; x] [y] 0 s = rep2 b x y s.
Proof.
  intros b x y s. remember (length s) as n eqn:En.
  revert s En. induction n as [n IH] using lt_wf_ind. intros s En.
  destruct s as [|a [|c t]]; [reflexivity| |].
  - simpl. rewrite andb_false_r. reflexivity.
  - change (replace_st [b; x] [y] 0 (a :: c :: t)) with
      (if N.eqb b a && (N.eqb x c && true)
       then y :: replace_st [b; x] [y] 0 t
       else a :: replace_st [b; x] [y] 0 (c :: t)).
    change (rep2 b x y (a :: c :: t)) with
      (if N.eqb b a && N.eqb x c then y :: rep2 b x y t else a :: rep2 b x y (c :: t)).
    rewrite andb_true_r. simpl in En.
    destruct (N.eqb b a && N.eqb x c); f_equal;
      [apply (IH (length t))|apply (IH (length (c :: t)))]; simpl; lia.
Qed.

Lemma rep2_cons : forall b x y a z,
  (a <> b \/ hd_error z <> Some x) -> rep2 b x y (a :: z) = a :: rep2 b x y z.
Proof.
  intros b x y a [|c t] H; [reflexivity|]. cbn [rep2].
  destruct (N.eqb_spec b a), (N.eqb_spec x c); subst; simpl; try reflexivity.
  destruct H as [H|H]; [congruence|simpl in H; congruence].
Qed.

Lemma rep2_hd : forall b x y s,
  hd_error (rep2 b x y s) = hd_error s \/ hd_error (rep2 b x y s) = Some y.
Proof.
  intros b x y [|a [|c t]]; simpl; auto.
  destruct (N.eqb b a && N.eqb x c); simpl; auto.
Qed.

Lemma rep2_match : forall b x y t, rep2 b x y (b :: x :: t) = y :: rep2 b x y t.
Proof. intros. simpl. rewrite !N.eqb_refl. reflexivity. Qed.

Lemma unescape_sequential : forall s,
  rep2 bslash (ch "t") tab (rep2 bslash (ch "r") cr (rep2 bslash (ch "n") nl s)) =
  unescape_spec s.
Proof.
  intros s. remember (length s) as n eqn:En.
  revert s En. induction n as [n IH] using lt_wf_ind. intros s En.
  destruct s as [|a [|c t]]; [reflexivity|reflexivity|].
  assert (IHt : forall u, length u < n -> rep2 bslash (ch "t") tab
            (rep2 bslash (ch "r") cr (rep2 bslash (ch "n") nl u)) = unescape_spec u)
    by (intros u Hu; apply (IH (length u)); [lia|reflexivity]).
  simpl in En.
  destruct (N.eqb_spec a bslash) as [->|Ha].
  - destruct (N.eqb_spec c (ch "n")) as [->|Hn];
      [|destruct (N.eqb_spec c (ch "r")) as [->|Hr];
        [|destruct (N.eqb_spec c (ch "t")) as [->|Ht]]].
    + rewrite rep2_match, rep2_cons, rep2_cons by (left; discriminate).
      rewrite IHt by lia. reflexivity.
    + rewrite rep2_cons by (right; discriminate).
      rewrite (rep2_cons _ _ _ (ch "r")) by (left; discriminate).
      rewrite rep2_match, rep2_cons by (left; discriminate).
      rewrite IHt by lia. reflexivity.
    + rewrite rep2_cons by (right; discriminate).
      rewrite (rep2_cons _ _ _ (ch "t")) by (left; discriminate).
      rewrite rep2_cons by (right; discriminate).
      rewrite (rep2_cons _ _ _ (ch "t")) by (left; discriminate).
      rewrite rep2_match, IHt by lia. reflexivity.
    + cbn [unescape_spec]. rewrite N.eqb_refl.
      destruct (N.eqb_spec c (ch "n")); [congruence|].
      destruct (N.eqb_spec c (ch "r")); [congruence|].
      destruct (N.eqb_spec c (ch "t")); [congruence|].
      rewrite (rep2_cons _ _ _ bslash (c :: t)) by (right; cbn [hd_error]; congruence).
      set (X := rep2 bslash (ch "n") nl (c :: t)).
      assert (HX : hd_error X = Some c \/ hd_error X = Some nl) by apply rep2_hd.
      rewrite (rep2_cons _ _ _ bslash X)
        by (right; destruct HX as [-> | ->]; [congruence|discriminate]).
      set (Y := rep2 bslash (ch "r") cr X).
      assert (HY : hd_error Y = Some c \/ hd_error Y = Some nl \/ hd_error Y = Some cr)
        by (unfold Y; destruct (rep2_hd bslash (ch "r") cr X) as [E|E]; rewrite E;
            [destruct HX as [E2|E2]; rewrite E2|]; tauto).
      rewrite (rep2_cons _ _ _ bslash Y)
        by (right; destruct HY as [-> | [-> | ->]]; [congruence|discriminate|discriminate]).
      f_equal. unfold Y, X. apply IHt. simpl; lia.
  - cbn [unescape_spec].
    destruct (N.eqb_spec a bslash); [congruence|].
    rewrite !rep2_cons by (left; exact Ha).
    f_equal. apply IHt. simpl; lia.
Qed.

Lemma collapse_skip : forall xs rest, collapse_st (length xs) (xs ++ rest) = collapse_st 0 rest.
Proof. induction xs as [|x xs IH]; intros rest; [reflexivity|]. simpl. apply IH. Qed.

Lemma span_nl_run : forall n rest, hd_error rest <> Some nl ->
  span (fun d => N.eqb d nl) (repeat nl n ++ rest) = (repeat nl n, rest).
Proof.
  induction n as [|n IH]; intros rest H.
  - destruct rest as [|c t]; [reflexivity|]. simpl.
    destruct (N.eqb_spec c nl); [subst; simpl in H; congruence|reflexivity].
  - simpl. rewrite IH by exact H. reflexivity.
Qed.

Lemma collapse_nl : forall t, collapse_st 0 (nl :: t) =
  if 3 <=? length (fst (span (fun d => N.eqb d nl) (nl :: t)))
  then [nl; nl] ++ collapse_st (pred (length (fst (span (fun d => N.eqb d nl) (nl :: t))))) t
  else nl :: collapse_st 0 t.
Proof. reflexivity. Qed.

Lemma collapse_run : forall n rest, hd_error rest <> Some nl ->
  collapse_st 0 (repeat nl n ++ rest) = repeat nl (Nat.min n 2) ++ collapse_st 0 rest.
Proof.
  intros n rest H. destruct n as [|m]; [reflexivity|].
  pose proof (span_nl_run (S m) rest H) as E.
  change (repeat nl (S m) ++ rest) with (nl :: (repeat nl m ++ rest)) in *.
  rewrite collapse_nl, E. simpl fst.
  change (length (nl :: repeat nl m)) with (S (length (repeat nl m))). rewrite repeat_length.
  destruct (Nat.leb_spec 3 (S m)).
  - replace (pred (S m)) with (length (repeat nl m)) by (rewrite repeat_length; reflexivity).
    rewrite collapse_skip. replace (Nat.min (S m) 2) with 2 by lia. reflexivity.
  - destruct m as [|[|m]]; [reflexivity| |lia].
    pose proof (span_nl_run 1 rest H) as E1.
    change (repeat nl 1 ++ rest) with (nl :: rest) in *.
    rewrite collapse_nl, E1. reflexivity.
Qed.

Lemma limit_not_nl : forall k rest, hd_error rest <> Some nl ->
  limit_newlines k rest = limit_newlines 0 rest.
Proof.
  intros k [|c t] H; [reflexivity|]. simpl.
  destruct (N.eqb_spec c nl); [subst; simpl in H; congruence|reflexivity].
Qed.

Lemma limit_saturated : forall n k rest, 2 <= k ->
  limit_newlines k (repeat nl n ++ rest) = limit_newlines (k + n) rest.
Proof.
  induction n as [|n IH]; intros k rest Hk; [rewrite Nat.add_0_r; reflexivity|].
  change (repeat nl (S n) ++ rest) with (nl :: (repeat nl n ++ rest)).
  cbn [limit_newlines]. rewrite N.eqb_refl.
  destruct (Nat.ltb_spec k 2); [lia|].
  rewrite IH by lia. f_equal; lia.
Qed.

Lemma limit_run : forall n rest, hd_error rest <> Some nl ->
  limit_newlines 0 (repeat nl n ++ rest) = repeat nl (Nat.min n 2) ++ limit_newlines 0 rest.
Proof.
  intros n rest H. destruct n as [|[|n]]; [reflexivity| |].
  - change (repeat nl 1 ++ rest) with (nl :: rest).
    cbn [limit_newlines]. rewrite N.eqb_refl. cbn.
    rewrite limit_not_nl by exact H. reflexivity.
  - change (repeat nl (S (S n)) ++ rest) with (nl :: nl :: (repeat nl n ++ rest)).
    cbn [limit_newlines]. rewrite N.eqb_refl. cbn [Nat.ltb Nat.leb].
    rewrite limit_saturated, limit_not_nl by (assumption || lia).
    replace (Nat.min (S (S n)) 2) with 2 by lia. reflexivity.
Qed.

Lemma span_snd_hd : forall f s c, hd_error (snd (span f s)) = Some c -> f c = false.
Proof.
  induction s as [|d s IH]; intros c H; simpl in H; [discriminate|].
  destruct (f d) eqn:E.
  - apply IH. destruct (span f s) as [a b]. exact H.
  - simpl in H. inversion H; subst. exact E.
Qed.

Lemma forall_nl_repeat : forall xs, Forall (fun c => N.eqb c nl = true) xs ->
  xs = repeat nl (length xs).
Proof.
  induction xs as [|x xs IH]; intros H; [reflexivity|]. inversion H; subst.
  apply N.eqb_eq in H2. subst. simpl. f_equal. apply IH; assumption.
Qed.

Lemma collapse_limit : forall s, collapse_st 0 s = limit_newlines 0 s.
Proof.
  intros s. remember (length s) as n eqn:En.
  revert s En. induction n as [n IH] using lt_wf_ind. intros s En.
  destruct s as [|c t]; [reflexivity|].
  destruct (N.eqb_spec c nl) as [->|Hc].
  - pose proof (span_app (fun d => N.eqb d nl) (nl :: t)) as A.
    pose proof (span_fst_all (fun d => N.eqb d nl) (nl :: t)) as F.
    pose proof (span_snd_hd (fun d => N.eqb d nl) (nl :: t)) as Hh.
    pose proof (span_nonempty_head (fun d => N.eqb d nl) nl t (N.eqb_refl nl)) as Hne.
    destruct (span (fun d => N.eqb d nl) (nl :: t)) as [run rest].
    cbn [fst snd] in A, F, Hh, Hne.
    apply forall_nl_repeat in F.
    assert (Hr : hd_error rest <> Some nl)
      by (intros E; apply Hh in E; rewrite N.eqb_refl in E; discriminate).
    rewrite <- A, F, collapse_run, limit_run by exact Hr. f_equal.
    apply (IH (length rest)); [|reflexivity].
    rewrite En, <- A, length_app. destruct run; [congruence|simpl; lia].
  - change (collapse_st 0 (c :: t)) with
      (if N.eqb c nl
       then (if 3 <=? length (fst (span (fun d => N.eqb d nl) (c :: t)))
             then [nl; nl] ++ collapse_st (pred (length (fst (span (fun d => N.eqb d nl) (c :: t))))) t
             else c :: collapse_st 0 t)
       else c :: collapse_st 0 t).
    simpl limit_newlines.
    destruct (N.eqb_spec c nl); [congruence|].
    f_equal. apply (IH (length t)); [simpl in En; lia|reflexivity].
Qed.

(** C4 (amended).  [clean_model_text] is the seven steps of the spec in
    order -- the escapes replaced in one pass, the escaped quote, the fences,
    the links, the placeholder lines, runs of newlines cut to two, the final
    trim -- where step 5 splits the text at every [str.splitlines] boundary
    (newline, carriage return, CR-LF, vertical tab, form feed, U+001C ..
    U+001E, U+0085) and joins the kept lines with a newline.  It is a total
    function and maps the empty string to the empty string. *)
Theorem clean_model_text_pipeline : forall s,
  clean_model_text s = normalize_amended s /\ clean_model_text [] = [].
Proof.
  intros s. split; [|reflexivity].
  destruct s as [|a s]; [reflexivity|].
  unfold clean_model_text, normalize_amended, collapse_blank_lines, py_replace.
  cbv beta iota zeta.
  rewrite !replace_st_two, unescape_sequential, collapse_limit. reflexivity.
Qed.

(** Counterexample to C4 as stated: a CR-LF line ending survives the claimed
    pipeline but [clean_model_text] turns it into a newline. *)
Lemma clean_model_text_crlf :
  clean_model_text (lit "a" ++ [cr; nl] ++ lit "b") = lit "a" ++ [nl] ++ lit "b" /\
  normalize_claimed (lit "a" ++ [cr; nl] ++ lit "b") = lit "a" ++ [cr; nl] ++ lit "b".
Proof. split; vm_compute; reflexivity. Qed.

(** ** Claim C5 *)

Lemma Qle_bool_false : forall a b, Qle_bool a b = false -> (b < a)%Q.
Proof.
  intros a b H. apply Qnot_le_lt. intros Hle. apply Qle_bool_iff in Hle. congruence.
Qed.

Ltac q_cases :=
  repeat match goal with
         | |- context [Qle_bool ?a ?b] =>
             let E := fresh "E" in
             destruct (Qle_bool a b) eqn:E;
             [apply Qle_bool_iff in E | apply Qle_bool_false in E]
         end.

(** C5.  Both label tables are monotone: a higher score never lands in a
    lower bucket.  [map_score_to_label] maps 90, 75, 60 and 0 to Strong,
    Good, Moderate and Low fit; [label_fit] maps them to Strong, Good, Weak
    and Weak fit.  A score above 100 is Strong fit in both, a negative score
    falls into the lowest bucket, and every score gets one of the labels of
    the table. *)
Theorem fit_label_table (x y : Q) (Hxy : (x <= y)%Q) :
  label_rank (map_score_to_label x) <= label_rank (map_score_to_label y) /\
  label_rank (label_fit x) <= label_rank (label_fit y) /\
  map_score_to_label 90 = lit "Strong fit" /\ label_fit 90 = lit "Strong fit" /\
  map_score_to_label 75 = lit "Good fit" /\ label_fit 75 = lit "Good fit" /\
  map_score_to_label 60 = lit "Moderate fit" /\ label_fit 60 = lit "Weak fit" /\
  map_score_to_label 0 = lit "Low fit" /\ label_fit 0 = lit "Weak fit" /\
  (forall z, (100 < z)%Q -> map_score_to_label z = lit "Strong fit" /\ label_fit z = lit "Strong fit") /\
  (forall z, (z < 0)%Q -> map_score_to_label z = lit "Low fit" /\ label_fit z = lit "Weak fit") /\
  (forall z, In (map_score_to_label z)
               [lit "Strong fit"; lit "Good fit"; lit "Moderate fit"; lit "Low fit"] /\
             In (label_fit z) [lit "Strong fit"; lit "Good fit"; lit "Weak fit"]).
Proof.
  split; [|split]; [unfold map_score_to_label | unfold label_fit | ];
    [q_cases; first [vm_compute; lia | exfalso; lra] .. |].
  split; [reflexivity|]. split; [reflexivity|]. split; [reflexivity|].
  split; [reflexivity|]. split; [reflexivity|]. split; [reflexivity|].
  split; [reflexivity|]. split; [reflexivity|].
  split; [|split].
  - intros z Hz. unfold map_score_to_label, label_fit. q_cases; first [reflexivity | split; reflexivity | exfalso; lra].
  - intros z Hz. unfold map_score_to_label, label_fit. q_cases; first [split; reflexivity | exfalso; lra].
  - intros z. unfold map_score_to_label, label_fit. q_cases; simpl; tauto.
Qed.

Lemma fit_label_table_witness :
  (60 # 1 <= 90 # 1)%Q /\
  label_rank (map_score_to_label (60 # 1)) <= label_rank (map_score_to_label (90 # 1)).
Proof.
  split; [vm_compute; discriminate|].
  apply (fit_label_table (60 # 1) (90 # 1)). vm_compute. discriminate.
Defined.

(** ** Claim C6 *)

Lemma Forall_lstrip_by : forall (P : pychar -> Prop) f s, Forall P s -> Forall P (lstrip_by f s).
Proof.
  intros P f s H. induction H as [|c t Hc Ht IH]; simpl; [constructor|].
  destruct (f c); [exact IH | constructor; assumption].
Qed.

Lemma Forall_strip_by : forall (P : pychar -> Prop) f s, Forall P s -> Forall P (strip_by f s).
Proof.
  intros P f s H. unfold strip_by, rstrip_by.
  apply Forall_rev, Forall_lstrip_by, Forall_rev, Forall_lstrip_by, H.
Qed.

Lemma lstrip_by_all : forall f s, Forall (fun c => f c = true) s -> lstrip_by f s = [].
Proof.
  intros f s H. induction H as [|c t Hc Ht IH]; simpl; [reflexivity|]. rewrite Hc. exact IH.
Qed.

Lemma Forall_filter_true : forall (f : pychar -> bool) s, Forall (fun c => f c = true) (filter f s).
Proof.
  intros f s. induction s as [|c t IH]; simpl; [constructor|].
  destruct (f c) eqn:E; [constructor; assumption | exact IH].
Qed.

Lemma sub_non_alnum_chars : forall b s,
  Forall (fun c => is_alnum c || N.eqb c underscore = true) (Main.sub_non_alnum b s).
Proof.
  intros b s. revert b. induction s as [|c t IH]; intros b; simpl; [constructor|].
  destruct (is_alnum c) eqn:E.
  - constructor; [rewrite E; reflexivity | apply IH].
  - destruct b; [apply IH | constructor; [apply orb_true_r | apply IH]].
Qed.

Lemma sub_non_alnum_underscores : forall b s, Forall (fun c => is_alnum c = false) s ->
  Forall (fun c => N.eqb c underscore = true) (Main.sub_non_alnum b s).
Proof.
  intros b s H. revert b. induction H as [|c t Hc Ht IH]; intros b; simpl; [constructor|].
  rewrite Hc. destruct b; [apply IH | constructor; [reflexivity | apply IH]].
Qed.

Lemma sub_space_runs_dropped : forall b s,
  Forall (fun c => negb (py_isspace c) && negb (App.is_name_char c) = true) s ->
  filter App.is_name_char (App.sub_space_runs b s) = [].
Proof.
  intros b s H. revert b. induction H as [|c t Hc Ht IH]; intros b; simpl; [reflexivity|].
  apply andb_true_iff in Hc as [Hs Hn]. apply negb_true_iff in Hs, Hn.
  rewrite Hs. simpl. rewrite Hn. apply IH.
Qed.

(** ** The file-system model *)

Lemma rpath_eqb_spec : forall p q, reflect (p = q) (rpath_eqb p q).
Proof.
  intros p q. unfold rpath_eqb. destruct (list_eq_dec (list_eq_dec N.eq_dec) p q);
    constructor; assumption.
Qed.

Lemma lookup_filter_other : forall m p q, p <> q ->
  lookup (filter (fun e => negb (rpath_eqb (fst e) p)) m) q = lookup m q.
Proof.
  intros m p q Hpq. induction m as [|[r n] m IH]; [reflexivity|]. simpl.
  destruct (rpath_eqb_spec r p) as [->|Hrp]; simpl.
  - destruct (rpath_eqb_spec p q); [contradiction | exact IH].
  - destruct (rpath_eqb r q); [reflexivity | exact IH].
Qed.

Lemma lookup_set_same : forall m p n, lookup (set_node m p n) p = Some n.
Proof.
  intros m p n. unfold set_node. simpl. destruct (rpath_eqb_spec p p); [reflexivity | congruence].
Qed.

Lemma lookup_set_other : forall m p q n, p <> q -> lookup (set_node m p n) q = lookup m q.
Proof.
  intros m p q n Hpq. unfold set_node. simpl.
  destruct (rpath_eqb_spec p q); [contradiction|]. apply lookup_filter_other, Hpq.
Qed.

Lemma lookup_in : forall m q n, lookup m q = Some n -> In (q, n) m.
Proof.
  induction m as [|[r k] m IH]; intros q n H; simpl in H; [discriminate|].
  destruct (rpath_eqb_spec r q) as [->|]; [inversion H; subst; left; reflexivity|].
  right. apply IH, H.
Qed.

Lemma cons_neq_self : forall (x : pystr) (p : rpath), x :: p <> p.
Proof. intros x p E. apply (f_equal (@length pystr)) in E. simpl in E. lia. Qed.

Lemma wf_parent : forall m c p, fs_wf m = true -> lookup m (c :: p) <> None -> is_dir m p = true.
Proof.
  intros m c p Hwf H. destruct (lookup m (c :: p)) as [n|] eqn:E; [|congruence].
  apply lookup_in in E. unfold fs_wf in Hwf. rewrite forallb_forall in Hwf.
  apply (Hwf _ E).
Qed.

Lemma wf_child_absent : forall m f p, fs_wf m = true -> p <> [] -> lookup m p = None ->
  lookup m (f :: p) = None.
Proof.
  intros m f p Hwf Hp Hn. destruct (lookup m (f :: p)) eqn:E; [|reflexivity].
  exfalso. assert (D : is_dir m p = true) by (apply (wf_parent m f); [exact Hwf | congruence]).
  unfold is_dir in D. destruct p; [congruence|]. rewrite Hn in D. discriminate.
Qed.

Lemma mkdir_fresh : forall m c par, is_dir m par = true -> lookup m (c :: par) = None ->
  mkdir_parents m (c :: par) true = Ok (set_node m (c :: par) NDir).
Proof.
  intros m c par Hd Hn. simpl. unfold os_mkdir. rewrite Hd.
  unfold exists_path. rewrite Hn. reflexivity.
Qed.

Lemma mkdir_existing : forall m c par, is_dir m par = true -> is_dir m (c :: par) = true ->
  mkdir_parents m (c :: par) true = Ok m.
Proof.
  intros m c par Hp Hd.
  assert (E : lookup m (c :: par) = Some NDir)
    by (unfold is_dir in Hd; destruct (lookup m (c :: par)) as [[|]|]; congruence).
  simpl. unfold os_mkdir. rewrite Hp. unfold exists_path. rewrite E. reflexivity.
Qed.

(** A successful [write_text] stores the file. *)
Lemma write_text_ok : forall m f dir c m', write_text m (f :: dir) c = Ok m' ->
  is_dir m dir = true /\ m' = set_node m (f :: dir) (NFile c).
Proof.
  intros m f dir c m' H. unfold write_text in H.
  destruct (is_dir m dir) eqn:Hd; [|destruct (exists_path m dir); discriminate].
  destruct (is_dir m (f :: dir)); [discriminate|].
  destruct (existsb is_surrogate c); [discriminate|].
  injection H as <-. split; reflexivity.
Qed.

Lemma write_all_other : forall files m dir q,
  (forall f, In f (map fst files) -> q <> f :: dir) ->
  lookup (write_all m dir files) q = lookup m q.
Proof.
  induction files as [|[f c] files IH]; intros m dir q H; [reflexivity|].
  unfold write_all. simpl. fold (write_all (set_node m (f :: dir) (NFile c)) dir files).
  rewrite IH by (intros g Hg; apply H; right; exact Hg).
  apply lookup_set_other. intros E. apply (H f); [left; reflexivity | symmetry; exact E].
Qed.

Lemma write_all_in : forall files m dir f c, NoDup (map fst files) -> In (f, c) files ->
  lookup (write_all m dir files) (f :: dir) = Some (NFile c).
Proof.
  induction files as [|[g d] files IH]; intros m dir f c Hnd Hin; [destruct Hin|].
  unfold write_all. simpl. fold (write_all (set_node m (g :: dir) (NFile d)) dir files).
  simpl in Hnd. inversion Hnd as [|x y Hg Hnd']; subst.
  destruct Hin as [E|Hin].
  - inversion E; subst. rewrite write_all_other.
    + apply lookup_set_same.
    + intros h Hh E'. inversion E'; subst. contradiction.
  - apply IH; assumption.
Qed.

(** The four writes after a fresh [mkdir] leave the package layout. *)
Lemma write_all_layout : forall m name root files,
  fs_wf m = true -> lookup m (name :: root) = None ->
  NoDup (map fst files) -> (forall f, In f (map fst files) <-> In f package_files) ->
  package_layout m (write_all (set_node m (name :: root) NDir) (name :: root) files) (name :: root).
Proof.
  intros m name root files Hwf Hnew Hnd Hfiles.
  set (jd := name :: root).
  assert (Habs : forall f, lookup m (f :: jd) = None)
    by (intros f; apply wf_child_absent; [exact Hwf | discriminate | exact Hnew]).
  assert (Hframe : forall q, q <> jd -> (forall f, In f package_files -> q <> f :: jd) ->
            lookup (write_all (set_node m jd NDir) jd files) q = lookup m q).
  { intros q Hq Hf. rewrite write_all_other.
    - apply lookup_set_other. intros E. apply Hq. symmetry. exact E.
    - intros f Hin. apply Hf, Hfiles, Hin. }
  unfold package_layout. split; [exact Hnew|]. split; [|split; [|split; [|split]]].
  - rewrite write_all_other; [apply lookup_set_same|].
    intros f _ E. apply (cons_neq_self f jd). symmetry. exact E.
  - intros f Hf. apply Hfiles in Hf. apply in_map_iff in Hf as [[g c] [Eg Hin]].
    simpl in Eg. subst g. exists c. apply write_all_in; assumption.
  - intros f Hf. destruct (in_dec (list_eq_dec N.eq_dec) f package_files) as [Hin|Hout];
      [exact Hin|].
    exfalso. apply Hf. rewrite Hframe; [apply Habs | apply cons_neq_self |].
    intros g Hg E. inversion E; subst. contradiction.
  - exact Hframe.
  - intros q Hq Hm. destruct (list_eq_dec (list_eq_dec N.eq_dec) q jd) as [E|Hne]; [exact E|].
    exfalso. destruct q as [|f q'].
    + rewrite Hframe in Hq; [congruence | exact Hne | intros f _ E; discriminate].
    + destruct (list_eq_dec (list_eq_dec N.eq_dec) q' jd) as [->|Hq'].
      * destruct (in_dec (list_eq_dec N.eq_dec) f package_files) as [Hin|Hout].
        -- apply Hfiles in Hin. apply in_map_iff in Hin as [[g c] [Eg Hin]]. simpl in Eg. subst g.
           rewrite (write_all_in files _ jd f c) in Hq by assumption. discriminate.
        -- rewrite Hframe in Hq; [congruence | exact Hne |].
           intros g Hg E. inversion E; subst. contradiction.
      * rewrite Hframe in Hq; [congruence | exact Hne |].
        intros g _ E. inversion E. contradiction.
Qed.

Lemma is_dir_cons : forall m c p,
  is_dir m (c :: p) = match lookup m (c :: p) with Some NDir => true | _ => false end.
Proof. reflexivity. Qed.

Lemma file_neq : forall (a b : pystr) (d : rpath), pystr_eqb a b = false -> a :: d <> b :: d.
Proof.
  intros a b d H E. inversion E; subst. unfold pystr_eqb in H.
  destruct (list_eq_dec N.eq_dec b b); congruence.
Qed.

Lemma is_dir_lookup : forall m c p, is_dir m (c :: p) = true -> lookup m (c :: p) = Some NDir.
Proof.
  intros m c p H. unfold is_dir in H. destruct (lookup m (c :: p)) as [[|]|]; congruence.
Qed.

Lemma is_dir_set_dir : forall m p q, is_dir m q = true -> is_dir (set_node m p NDir) q = true.
Proof.
  intros m p q H. destruct q as [|c q]; [reflexivity|].
  rewrite is_dir_cons. destruct (rpath_eqb_spec p (c :: q)) as [<-|Hne].
  - rewrite lookup_set_same. reflexivity.
  - rewrite lookup_set_other by exact Hne. exact H.
Qed.

Lemma wf_set_dir : forall m c par, fs_wf m = true -> is_dir m par = true ->
  fs_wf (set_node m (c :: par) NDir) = true.
Proof.
  intros m c par Hwf Hd. unfold fs_wf. apply forallb_forall. intros [q n] Hin.
  unfold set_node in Hin at 1. destruct Hin as [E|Hin].
  - injection E as <- <-. apply is_dir_set_dir, Hd.
  - apply filter_In in Hin as [Hin _]. unfold fs_wf in Hwf. rewrite forallb_forall in Hwf.
    specialize (Hwf _ Hin). simpl in Hwf |- *. destruct q as [|x q]; [reflexivity|].
    apply is_dir_set_dir, Hwf.
Qed.

Lemma ancestor_cons_inv : forall q c p, is_ancestor q (c :: p) = true -> q = p \/ is_ancestor q p = true.
Proof.
  intros q c p H. cbn [is_ancestor] in H. apply orb_true_iff in H as [E|E]; [|right; exact E].
  left. destruct (rpath_eqb_spec p q); [symmetry; assumption | discriminate].
Qed.

Lemma ancestor_cons : forall q c p, q = p \/ is_ancestor q p = true -> is_ancestor q (c :: p) = true.
Proof.
  intros q c p [->|H]; cbn [is_ancestor].
  - destruct (rpath_eqb_spec p p) as [_|Hn]; [reflexivity | contradiction].
  - rewrite H, orb_true_r. reflexivity.
Qed.

Lemma ancestor_length : forall q p, is_ancestor q p = true -> length q < length p.
Proof.
  intros q p. induction p as [|c p IH]; intros H; [discriminate|].
  apply ancestor_cons_inv in H as [->|H]; simpl; [lia | specialize (IH H); lia].
Qed.

(** In a well-formed state the (non-root) ancestors of a directory are
    directories. *)
Lemma ancestors_dir : forall m p q, fs_wf m = true -> is_dir m p = true -> q <> [] ->
  q = p \/ is_ancestor q p = true -> lookup m q = Some NDir.
Proof.
  intros m p q Hwf. induction p as [|c p IH]; intros Hd Hq [E|E].
  - subst. contradiction.
  - discriminate.
  - subst. apply is_dir_lookup, Hd.
  - apply IH; [|exact Hq | apply ancestor_cons_inv in E; exact E].
    apply (wf_parent m c p Hwf). rewrite (is_dir_lookup m c p Hd). discriminate.
Qed.

Lemma mkdir_frame_refl : forall m p, mkdir_frame m m p.
Proof. intros m p q. left. reflexivity. Qed.

Lemma mkdir_frame_up : forall m m1 c p, mkdir_frame m m1 p -> mkdir_frame m m1 (c :: p).
Proof.
  intros m m1 c p H q. destruct (H q) as [E|(E1 & E2 & Hq & Ha)]; [left; exact E|].
  right. repeat split; try assumption. right. apply ancestor_cons, Ha.
Qed.

Lemma mkdir_frame_trans : forall m m1 m2 p, mkdir_frame m m1 p -> mkdir_frame m1 m2 p ->
  mkdir_frame m m2 p.
Proof.
  intros m m1 m2 p H1 H2 q. destruct (H2 q) as [E|(E1 & E2 & Hq & Ha)].
  - rewrite E. apply H1.
  - right. destruct (H1 q) as [E'|(E1' & E2' & _)]; [|congruence].
    repeat split; try assumption. congruence.
Qed.

Lemma mkdir_set_frame : forall m p, p <> [] -> lookup m p = None -> mkdir_frame m (set_node m p NDir) p.
Proof.
  intros m p Hp Hn q. destruct (rpath_eqb_spec p q) as [<-|Hne].
  - right. rewrite lookup_set_same. repeat split; auto.
  - left. apply lookup_set_other, Hne.
Qed.

Lemma os_mkdir_ok : forall m p m', os_mkdir m p = Ok m' ->
  exists c par, p = c :: par /\ is_dir m par = true /\ lookup m p = None /\ m' = set_node m p NDir.
Proof.
  intros m p m' H. destruct p as [|c par]; [discriminate|]. unfold os_mkdir in H.
  destruct (is_dir m par) eqn:Hd; [|destruct (exists_path m par); discriminate].
  unfold exists_path in H. destruct (lookup m (c :: par)) eqn:Hn; [discriminate|].
  injection H as <-. exists c, par. repeat split; assumption.
Qed.

(** [Path.mkdir(parents=True, exist_ok=True)] on a well-formed state: when
    it succeeds the path is a directory, the state stays well-formed, and
    only the path and its missing ancestors are added, as directories. *)
Lemma mkdir_parents_spec : forall p m m1, fs_wf m = true -> mkdir_parents m p true = Ok m1 ->
  fs_wf m1 = true /\ is_dir m1 p = true /\ mkdir_frame m m1 p.
Proof.
  induction p as [|c par IH]; intros m m1 Hwf H.
  - cbn in H. injection H as <-. split; [exact Hwf | split; [reflexivity | apply mkdir_frame_refl]].
  - cbn [mkdir_parents] in H. destruct (os_mkdir m (c :: par)) as [m'|f] eqn:E.
    + apply os_mkdir_ok in E as (c' & par' & Ep & Hd & Hn & ->). injection Ep as <- <-.
      injection H as <-. split; [apply wf_set_dir; assumption|]. split.
      * rewrite is_dir_cons, lookup_set_same. reflexivity.
      * apply mkdir_set_frame; [discriminate | exact Hn].
    + assert (Hother : (if true && is_dir m (c :: par) then Ok m else Err f) = Ok m1 ->
                       fs_wf m1 = true /\ is_dir m1 (c :: par) = true /\ mkdir_frame m m1 (c :: par)).
      { cbn [andb]. destruct (is_dir m (c :: par)) eqn:D; [|discriminate].
        intros Hm. injection Hm as <-. split; [exact Hwf | split; [exact D | apply mkdir_frame_refl]]. }
      destruct f as [[| | |]| | | | |]; try (apply Hother; exact H).
      cbn [andb] in H. destruct (mkdir_parents m par true) as [a|f] eqn:E2; [|discriminate].
      apply IH in E2 as (Hwf1 & Hd1 & Hfr1); [|exact Hwf].
      unfold mkdir_noparents in H. destruct (os_mkdir a (c :: par)) as [a'|f] eqn:E3.
      * injection H as <-. apply os_mkdir_ok in E3 as (c' & par' & Ep & _ & Hn & ->).
        injection Ep as <- <-. split; [apply wf_set_dir; assumption|]. split.
        -- rewrite is_dir_cons, lookup_set_same. reflexivity.
        -- apply (mkdir_frame_trans m a); [apply mkdir_frame_up, Hfr1|].
           apply mkdir_set_frame; [discriminate | exact Hn].
      * assert (Hf : f <> OSError FileNotFoundError).
        { unfold os_mkdir in E3. rewrite Hd1 in E3. destruct (exists_path a (c :: par));
            [injection E3 as <-; discriminate | discriminate]. }
        assert (Hm : (if true && is_dir a (c :: par) then Ok a else Err f) = Ok m1).
        { destruct f as [[| | |]| | | | |]; try exact H. contradiction. }
        cbn [andb] in Hm. destruct (is_dir a (c :: par)) eqn:D; [|discriminate].
        injection Hm as <-. split; [exact Hwf1 | split; [exact D | apply mkdir_frame_up, Hfr1]].
Qed.

Lemma grandchild_neq : forall (f name : pystr) (root : rpath), root <> f :: name :: root.
Proof. intros f name root E. apply (f_equal (@length pystr)) in E. simpl in E. lia. Qed.

Lemma file_not_package : forall (f : pystr) (d : rpath), ~ In f package_files ->
  forall g, In g package_files -> f :: d <> g :: d.
Proof. intros f d Hf g Hg E. injection E as ->. contradiction. Qed.

(** The four writes into a folder that [mkdir] made or found. *)
Lemma package_after_mkdir : forall m m2 root name files,
  fs_wf m = true -> root <> [] -> fs_wf m2 = true -> is_dir m2 (name :: root) = true ->
  mkdir_frame m m2 (name :: root) ->
  NoDup (map fst files) -> (forall f, In f (map fst files) <-> In f package_files) ->
  package_result m (write_all m2 (name :: root) files) root (name :: root).
Proof.
  intros m m2 root name files Hwf Hroot Hwf2 Hd2 Hfr Hnd Hfiles.
  set (jd := name :: root). set (m' := write_all m2 jd files).
  assert (Hw : forall q, (forall f, In f package_files -> q <> f :: jd) -> lookup m' q = lookup m2 q).
  { intros q Hq. apply write_all_other. intros f Hf. apply Hq, Hfiles, Hf. }
  assert (Hjd : lookup m' jd = Some NDir).
  { rewrite Hw by (intros f _; apply not_eq_sym, cons_neq_self). apply is_dir_lookup, Hd2. }
  assert (Hin : forall f, In f package_files -> exists c, lookup m' (f :: jd) = Some (NFile c)).
  { intros f Hf. apply Hfiles in Hf. apply in_map_iff in Hf as [[g c] [Eg Hin]].
    simpl in Eg. subst g. exists c. apply write_all_in; assumption. }
  assert (Hfr' : forall q, (forall f, In f package_files -> q <> f :: jd) ->
            lookup m' q = lookup m q \/
            (lookup m q = None /\ lookup m' q = Some NDir /\ q <> [] /\
             (q = jd \/ is_ancestor q jd = true))).
  { intros q Hq. rewrite (Hw q Hq). apply Hfr. }
  unfold package_result. split; [|split; [exact Hjd | split; [exact Hin | split; [exact Hfr' | split]]]].
  - rewrite Hw by (intros f _; apply grandchild_neq).
    destruct root as [|c r]; [contradiction|]. apply is_dir_lookup.
    apply (wf_parent m2 name); [exact Hwf2|]. rewrite (is_dir_lookup m2 name _ Hd2). discriminate.
  - intros Hroot_dir Hnew.
    assert (Hanc : forall q, q <> [] -> is_ancestor q jd = true -> lookup m q = Some NDir).
    { intros q Hq Ha. apply (ancestors_dir m root); try assumption.
      apply ancestor_cons_inv in Ha. exact Ha. }
    unfold package_layout. split; [exact Hnew | split; [exact Hjd | split; [exact Hin | split; [|split]]]].
    + intros f Hf. destruct (in_dec (list_eq_dec N.eq_dec) f package_files) as [Hp|Hp]; [exact Hp|].
      exfalso. apply Hf.
      destruct (Hfr' (f :: jd) (file_not_package f jd Hp)) as [E|(_ & _ & _ & [E|E])].
      * rewrite E. apply wf_child_absent; [exact Hwf | discriminate | exact Hnew].
      * exfalso. apply (cons_neq_self f jd), E.
      * apply ancestor_length in E. simpl in E. lia.
    + intros q Hq Hp. destruct (Hfr' q Hp) as [E|(E1 & _ & Hq0 & [E|E])]; [exact E | contradiction |].
      rewrite (Hanc q Hq0 E) in E1. discriminate.
    + intros q Hq Hq'.
      assert (Hp : forall f, In f package_files -> q <> f :: jd).
      { intros f Hf E. subst q. destruct (Hin f Hf) as [c Hc]. congruence. }
      destruct (Hfr' q Hp) as [E|(E1 & _ & Hq0 & [E|E])]; [congruence | exact E |].
      rewrite (Hanc q Hq0 E) in E1. discriminate.
  - intros Hold q Hp. destruct (Hfr' q Hp) as [E|(E1 & _ & Hq0 & Ha)]; [exact E|].
    rewrite (ancestors_dir m jd q Hwf Hold Hq0 Ha) in E1. discriminate.
Qed.

Lemma process_job_ok : forall json_dumps host_root m now job raw d m',
  Main.process_job json_dumps host_root m now job raw = Ok (d, m') ->
  exists m2 c1 c2 c3 c4,
    mkdir_parents m (Main.folder_name now job :: Main.OUTPUT_ROOT) true = Ok m2 /\
    d = Main.folder_name now job :: Main.OUTPUT_ROOT /\
    m' = write_all m2 d [(lit "cover_letter.txt", c1); (lit "resume_full.txt", c2);
                         (lit "short_answers.txt", c3); (lit "meta.json", c4)].
Proof.
  intros json_dumps host_root m now job raw d m' H. unfold Main.process_job in H.
  destruct (parse_model_output raw) as [|pr]; [discriminate|].
  unfold Main.create_job_folder in H. cbv zeta in H.
  destruct (mkdir_parents m _ true) as [m1|] eqn:E; cbn [bind] in H; [|discriminate].
  destruct (write_text m1 _ _) as [m2|] eqn:W1; cbn [bind] in H; [|discriminate].
  destruct (write_text m2 _ _) as [m3|] eqn:W2; cbn [bind] in H; [|discriminate].
  destruct (write_text m3 _ _) as [m4|] eqn:W3; cbn [bind] in H; [|discriminate].
  destruct (write_text m4 _ _) as [m5|] eqn:W4; cbn [bind] in H; [|discriminate].
  apply write_text_ok in W1 as [_ ->]. apply write_text_ok in W2 as [_ ->].
  apply write_text_ok in W3 as [_ ->]. apply write_text_ok in W4 as [_ ->].
  injection H as <- <-. do 5 eexists. split; [first [exact E | reflexivity] | split; reflexivity].
Qed.

Lemma generate_full_package_ok : forall json_dumps gen_resume gen_cover gen_answers m now job name m',
  App.generate_full_package json_dumps gen_resume gen_cover gen_answers m now job = Ok (name, m') ->
  exists m1 m2 c1 c2 c3 c4,
    mkdir_parents m App.OUTPUT_ROOT true = Ok m1 /\
    mkdir_parents m1 (App.folder_name now job :: App.OUTPUT_ROOT) true = Ok m2 /\
    name = App.folder_name now job /\
    m' = write_all m2 (name :: App.OUTPUT_ROOT)
           [(lit "resume_full.txt", c1); (lit "cover_letter.txt", c2);
            (lit "short_answers.txt", c3); (lit "meta.json", c4)].
Proof.
  intros json_dumps gen_resume gen_cover gen_answers m now job name m' H.
  unfold App.generate_full_package in H. cbv zeta in H.
  destruct (mkdir_parents m _ true) as [m1|] eqn:E1; cbn [bind] in H; [|discriminate].
  destruct (mkdir_parents m1 _ true) as [m2|] eqn:E2; cbn [bind] in H; [|discriminate].
  destruct (gen_resume job); cbn [bind] in H; [|discriminate].
  destruct (gen_cover job); cbn [bind] in H; [|discriminate].
  destruct (gen_answers job); cbn [bind] in H; [|discriminate].
  destruct (write_text m2 _ _) as [m3|] eqn:W1; cbn [bind] in H; [|discriminate].
  destruct (write_text m3 _ _) as [m4|] eqn:W2; cbn [bind] in H; [|discriminate].
  destruct (write_text m4 _ _) as [m5|] eqn:W3; cbn [bind] in H; [|discriminate].
  destruct (write_text m5 _ _) as [m6|] eqn:W4; cbn [bind] in H; [|discriminate].
  apply write_text_ok in W1 as [_ ->]. apply write_text_ok in W2 as [_ ->].
  apply write_text_ok in W3 as [_ ->]. apply write_text_ok in W4 as [_ ->].
  injection H as <- <-. do 6 eexists. split; [first [exact E1 | reflexivity] | split; [first [exact E2 | reflexivity] | split; reflexivity]].
Qed.

Lemma package_names_perm1 : forall c1 c2 c3 c4 : pystr,
  NoDup (map fst [(lit "cover_letter.txt", c1); (lit "resume_full.txt", c2);
                  (lit "short_answers.txt", c3); (lit "meta.json", c4)]) /\
  (forall f, In f (map fst [(lit "cover_letter.txt", c1); (lit "resume_full.txt", c2);
                            (lit "short_answers.txt", c3); (lit "meta.json", c4)])
             <-> In f package_files).
Proof.
  intros. split; [repeat constructor; simpl; intuition discriminate | intros f; simpl; tauto].
Qed.

Lemma package_names_perm2 : forall c1 c2 c3 c4 : pystr,
  NoDup (map fst [(lit "resume_full.txt", c1); (lit "cover_letter.txt", c2);
                  (lit "short_answers.txt", c3); (lit "meta.json", c4)]) /\
  (forall f, In f (map fst [(lit "resume_full.txt", c1); (lit "cover_letter.txt", c2);
                            (lit "short_answers.txt", c3); (lit "meta.json", c4)])
             <-> In f package_files).
Proof.
  intros. split; [repeat constructor; simpl; intuition discriminate | intros f; simpl; tauto].
Qed.

Ltac path_neq :=
  first [ apply cons_neq_self
        | apply not_eq_sym, cons_neq_self
        | apply file_neq; reflexivity ].

Ltac fs_lookup :=
  repeat first [ rewrite lookup_set_same | rewrite lookup_set_other by path_neq ].

(** ** Claim C7 *)

(** C7 (amended).  On a well-formed state, whenever an assembly succeeds
    the folder is named <timestamp>_<company>_<title> by [src/main.py]
    (under /app/output, case kept) and <company>_<title>_<timestamp> by
    [src/app] (under job-packages); afterwards the output root and the
    folder are directories and the folder holds the four files
    resume_full.txt, cover_letter.txt, short_answers.txt and meta.json.
    Every other path keeps its entry, except that the folder and a missing
    output root (or a missing ancestor of it) are created as directories.
    So when the root exists and the folder is new, exactly one new
    directory appears, holding exactly those four files; when the folder
    already exists it is reused and only the four files change. *)
Theorem package_folder_layout (json_dumps : json -> pystr) (host_root : pystr)
    (gen_resume gen_cover gen_answers : App.JobInput -> result pystr)
    (m : fstate) (now : datetime) (mjob : Main.JobInput) (raw : pystr) (ajob : App.JobInput)
    (Hwf : fs_wf m = true) :
  (forall d m', Main.process_job json_dumps host_root m now mjob raw = Ok (d, m') ->
     d = Main.folder_name now mjob :: Main.OUTPUT_ROOT /\
     package_result m m' Main.OUTPUT_ROOT d) /\
  (forall name m', App.generate_full_package json_dumps gen_resume gen_cover gen_answers m now ajob
                     = Ok (name, m') ->
     name = App.folder_name now ajob /\
     package_result m m' App.OUTPUT_ROOT (name :: App.OUTPUT_ROOT)).
Proof.
  split.
  - intros d m' H. apply process_job_ok in H as (m2 & c1 & c2 & c3 & c4 & Hmk & -> & ->).
    split; [reflexivity|].
    apply mkdir_parents_spec in Hmk as (Hwf2 & Hd2 & Hfr); [|exact Hwf].
    destruct (package_names_perm1 c1 c2 c3 c4) as [Hnd Hfiles].
    apply package_after_mkdir; try assumption. discriminate.
  - intros name m' H.
    apply generate_full_package_ok in H as (m1 & m2 & c1 & c2 & c3 & c4 & Hmk1 & Hmk2 & -> & ->).
    split; [reflexivity|].
    apply mkdir_parents_spec in Hmk1 as (Hwf1 & _ & Hfr1); [|exact Hwf].
    apply mkdir_parents_spec in Hmk2 as (Hwf2 & Hd2 & Hfr2); [|exact Hwf1].
    destruct (package_names_perm2 c1 c2 c3 c4) as [Hnd Hfiles].
    apply package_after_mkdir; try assumption; [discriminate|].
    apply (mkdir_frame_trans m m1); [apply mkdir_frame_up, Hfr1 | exact Hfr2].
Qed.

(** Both variants on the well-formed state holding /app/output, with the
    [src/app] output root missing: both succeed, so the theorem describes
    their results; [src/app] creates job-packages as well. *)
Lemma package_folder_layout_witness :
  let m0 := [([lit "output"; lit "app"], NDir); ([lit "app"], NDir)] in
  let now0 := {| year := 2026; month := 10; day := 19; hour := 9; minute := 5; second := 7 |} in
  let mjob := {| Main.resume_text := lit "Resume"; Main.company := lit "Acme Corp";
                 Main.title := lit "Staff Engineer"; Main.location := None;
                 Main.job_description := lit "Build things"; Main.seniority_hint := None |} in
  let ajob := {| App.resume_text := lit "Resume"; App.company := lit "Acme Corp";
                 App.title := lit "Staff Engineer"; App.location := None;
                 App.job_description := lit "Build things"; App.seniority_hint := None |} in
  let raw := tagged_blob (lit "88") (lit "Strong match") (lit "Dear team")
                         (lit "Resume") (lit "1) Yes") in
  let reply := fun _ : App.JobInput => Ok (lit "Model text") in
  fs_wf m0 = true /\
  (exists m', Main.process_job (fun _ => lit "{}") [] m0 now0 mjob raw
                = Ok (Main.folder_name now0 mjob :: Main.OUTPUT_ROOT, m') /\
              package_result m0 m' Main.OUTPUT_ROOT (Main.folder_name now0 mjob :: Main.OUTPUT_ROOT)) /\
  (exists m', App.generate_full_package (fun _ => lit "{}") reply reply reply m0 now0 ajob
                = Ok (App.folder_name now0 ajob, m') /\
              lookup m0 App.OUTPUT_ROOT = None /\
              package_result m0 m' App.OUTPUT_ROOT (App.folder_name now0 ajob :: App.OUTPUT_ROOT)).
Proof.
  intros m0 now0 mjob ajob raw reply.
  assert (Hwf : fs_wf m0 = true) by (vm_compute; reflexivity).
  destruct (package_folder_layout (fun _ => lit "{}") [] reply reply reply m0 now0 mjob raw ajob Hwf)
    as [Hmain Happ].
  split; [exact Hwf | split].
  - destruct (Main.process_job (fun _ => lit "{}") [] m0 now0 mjob raw) as [[d m']|f] eqn:E.
    + destruct (Hmain d m' eq_refl) as [Ed Hres]. subst d. exists m'. split; [reflexivity | exact Hres].
    + vm_compute in E. discriminate.
  - destruct (App.generate_full_package (fun _ => lit "{}") reply reply reply m0 now0 ajob)
      as [[name m']|f] eqn:E.
    + destruct (Happ name m' eq_refl) as [En Hres]. subst name.
      exists m'. split; [reflexivity | split; [vm_compute; reflexivity | exact Hres]].
    + vm_compute in E. discriminate.
Defined.

(** Counterexample to C7 as stated: [src/main.py] names the folder
    <timestamp>_<company>_<title> with the case kept, so no folder
    <company>_<title>_<timestamp> appears; and when the output root is
    missing, [src/app] creates it as well as the package folder. *)
Lemma package_folder_name_order :
  let m0 := [([lit "output"; lit "app"], NDir); ([lit "app"], NDir)] in
  let now0 := {| year := 2026; month := 10; day := 19; hour := 9; minute := 5; second := 7 |} in
  let mjob := {| Main.resume_text := lit "Resume"; Main.company := lit "Acme Corp";
                 Main.title := lit "Staff Engineer"; Main.location := None;
                 Main.job_description := lit "Build things"; Main.seniority_hint := None |} in
  let ajob := {| App.resume_text := lit "Resume"; App.company := lit "Acme Corp";
                 App.title := lit "Staff Engineer"; App.location := None;
                 App.job_description := lit "Build things"; App.seniority_hint := None |} in
  let raw := tagged_blob (lit "88") (lit "Strong match") (lit "Dear team")
                         (lit "Resume") (lit "1) Yes") in
  let reply := fun _ : App.JobInput => Ok (lit "Model text") in
  (exists m', Main.process_job (fun _ => lit "{}") [] m0 now0 mjob raw
                = Ok (lit "20261019_090507_Acme_Corp_Staff_Engineer" :: Main.OUTPUT_ROOT, m') /\
              lookup m' (lit "acme_corp_staff_engineer_20261019_090507" :: Main.OUTPUT_ROOT) = None) /\
  (exists m', App.generate_full_package (fun _ => lit "{}") reply reply reply [] now0 ajob
                = Ok (lit "acme_corp_staff_engineer_20261019_090507", m') /\
              lookup [] App.OUTPUT_ROOT = None /\ lookup m' App.OUTPUT_ROOT = Some NDir /\
              lookup m' (lit "acme_corp_staff_engineer_20261019_090507" :: App.OUTPUT_ROOT) = Some NDir).
Proof.
  intros m0 now0 mjob ajob raw reply.
  split; eexists; split; [vm_compute; reflexivity | vm_compute; reflexivity
                         | vm_compute; reflexivity | vm_compute; repeat split].
Qed.

(** ** Claim C8 *)

(** C8.  [estimate_fit_score] equals 70, plus 5 when the seniority hint is
    senior, lead, director or executive, plus 5 when the job description is
    longer than 1500 characters, clamped to [0, 100]; the value is one of
    70, 75 and 80. *)
Theorem estimate_fit_score_formula : forall job : App.JobInput,
  (App.estimate_fit_score job == App.estimate_fit_score_spec job)%Q /\
  (App.estimate_fit_score job == 70 \/ App.estimate_fit_score job == 75 \/
   App.estimate_fit_score job == 80)%Q.
Proof.
  intros job. unfold App.estimate_fit_score, App.estimate_fit_score_spec.
  destruct (App.seniority_hint job) as [[]|];
    destruct (1500 <? length (App.job_description job));
    split; vm_compute; auto.
Qed.

(** ** Claim C10 *)

Lemma pystr_eqb_true : forall a b, pystr_eqb a b = true -> a = b.
Proof. intros a b. unfold pystr_eqb. destruct (list_eq_dec N.eq_dec a b); congruence. Qed.

Lemma SeniorityHint_of_none : forall s, ~ In s (map App.value App.all_hints) ->
  App.SeniorityHint_of s = None.
Proof.
  intros s Hs. unfold App.SeniorityHint_of, App.all_hints. simpl find.
  repeat match goal with
         | |- context [pystr_eqb ?v s] =>
             let E := fresh "E" in
             destruct (pystr_eqb v s) eqn:E;
             [apply pystr_eqb_true in E; exfalso; apply Hs; rewrite <- E; simpl; tauto |]
         end.
  reflexivity.
Qed.

(** C10.  In [src/app], [submit] turns a non-empty seniority hint that is
    not one of junior, intermediate, senior, lead, director, executive into
    no hint: the job is the one built from an empty hint, it gets no
    seniority bonus, and the package run is the same as for an empty
    hint. *)
Theorem submit_unknown_hint_dropped
    (resume_text company title location job_description hint : pystr)
    (Hne : hint <> [])
    (Hunknown : ~ In hint (map App.value App.all_hints)) :
  let job := App.submit_job_input resume_text company title location job_description hint in
  job = App.submit_job_input resume_text company title location job_description [] /\
  App.seniority_hint job = None /\
  (App.estimate_fit_score job ==
     if 1500 <? length job_description then 75 else 70)%Q /\
  (forall json_dumps gen_resume gen_cover gen_answers m now,
     App.generate_full_package json_dumps gen_resume gen_cover gen_answers m now job =
     App.generate_full_package json_dumps gen_resume gen_cover gen_answers m now
       (App.submit_job_input resume_text company title location job_description [])).
Proof.
  intros job.
  assert (E : job = App.submit_job_input resume_text company title location job_description []).
  { unfold job, App.submit_job_input. destruct hint as [|c t]; [congruence|].
    rewrite SeniorityHint_of_none by exact Hunknown. reflexivity. }
  split; [exact E|]. rewrite E. split; [reflexivity|]. split.
  - unfold App.estimate_fit_score. simpl.
    destruct (1500 <? length job_description); vm_compute; reflexivity.
  - reflexivity.
Qed.

Lemma submit_unknown_hint_dropped_witness :
  App.seniority_hint
    (App.submit_job_input (lit "Resume") (lit "Acme") (lit "Engineer") [] (lit "Build") (lit "Senior"))
  = None.
Proof.
  refine (proj1 (proj2 (submit_unknown_hint_dropped (lit "Resume") (lit "Acme") (lit "Engineer") []
                          (lit "Build") (lit "Senior") _ _))).
  - discriminate.
  - vm_compute. intros H. repeat (destruct H as [H|H]; [discriminate H|]). exact H.
Defined.

(** ** Claim C9 *)

(** C9 (code).  [get_recent_jobs] raises [AttributeError] when a meta.json
    holds a JSON document that is not an object, such as [[]], because the
    [meta.get] calls sit outside the [try].  On a root with one folder with
    a readable object and one folder without meta.json it returns exactly
    one summary, and with [limit = 0] it still returns that summary. *)
Theorem get_recent_jobs_non_object_meta (json_loads : pystr -> option json)
    (Harr : json_loads (lit "[]") = Some (JArr []))
    (Hobj : json_loads (lit "{}") = Some (JObj [])) :
  let root_dirs := [([lit "output"; lit "app"], NDir); ([lit "app"], NDir)] in
  let m_bad := ([lit "meta.json"; lit "job1"; lit "output"; lit "app"], NFile (lit "[]"))
               :: ([lit "job1"; lit "output"; lit "app"], NDir) :: root_dirs in
  let m_ok := ([lit "meta.json"; lit "job2"; lit "output"; lit "app"], NFile (lit "{}"))
              :: ([lit "job2"; lit "output"; lit "app"], NDir)
              :: ([lit "job1"; lit "output"; lit "app"], NDir) :: root_dirs in
  Main.get_recent_jobs json_loads m_bad 20 = Err AttributeError /\
  match Main.get_recent_jobs json_loads m_ok 20 with Ok l => length l = 1 | Err _ => False end /\
  match Main.get_recent_jobs json_loads m_ok 0 with Ok l => length l = 1 | Err _ => False end.
Proof.
  intros root_dirs m_bad m_ok. vm_compute in Harr, Hobj.
  split; [|split]; vm_compute; [rewrite Harr | rewrite Hobj | rewrite Hobj]; reflexivity.
Qed.

Lemma get_recent_jobs_non_object_meta_witness :
  let json_loads := fun s => if pystr_eqb s (lit "[]") then Some (JArr [])
                             else if pystr_eqb s (lit "{}") then Some (JObj []) else None in
  Main.get_recent_jobs json_loads
    [([lit "meta.json"; lit "job1"; lit "output"; lit "app"], NFile (lit "[]"));
     ([lit "job1"; lit "output"; lit "app"], NDir);
     ([lit "output"; lit "app"], NDir); ([lit "app"], NDir)] 20 = Err AttributeError.
Proof.
  intros json_loads.
  exact (proj1 (get_recent_jobs_non_object_meta json_loads
                  ltac:(vm_compute; reflexivity) ltac:(vm_compute; reflexivity))).
Defined.

(** ** Further properties of the code *)

(** *** Trimming *)

Lemma lstrip_by_head : forall f s,
  match lstrip_by f s with [] => True | c :: _ => f c = false end.
Proof.
  intros f s; induction s as [|a s IH]; simpl; [exact I|].
  destruct (f a) eqn:E; [exact IH | exact E].
Qed.

Lemma lstrip_by_suffix : forall f s, exists pre, s = pre ++ lstrip_by f s.
Proof.
  intros f s; induction s as [|a s [pre IH]]; simpl; [exists []; reflexivity|].
  destruct (f a); [exists (a :: pre); simpl; f_equal; exact IH | exists []; reflexivity].
Qed.

Lemma rstrip_by_prefix : forall f s, exists suf, s = rstrip_by f s ++ suf.
Proof.
  intros f s. unfold rstrip_by. destruct (lstrip_by_suffix f (rev s)) as [pre E].
  exists (rev pre). rewrite <- rev_app_distr, <- E, rev_involutive. reflexivity.
Qed.

Lemma last_app_cons : forall (a : pystr) c t d, last (a ++ c :: t) d = last (c :: t) d.
Proof.
  induction a as [|x a IH]; intros c t d; [reflexivity|].
  simpl. rewrite IH. destruct a; reflexivity.
Qed.

Lemma strip_trimmed : forall s, trimmed (py_strip s).
Proof.
  intros s. unfold py_strip, strip_by, rstrip_by.
  set (y := lstrip_by py_isspace s).
  pose proof (lstrip_by_head py_isspace s) as Hy. fold y in Hy.
  destruct (lstrip_by_suffix py_isspace (rev y)) as [pre E].
  pose proof (lstrip_by_head py_isspace (rev y)) as Hz.
  destruct (lstrip_by py_isspace (rev y)) as [|c t] eqn:Ez; [exact I|].
  assert (Ey : y = rev (c :: t) ++ rev pre)
    by (rewrite <- rev_app_distr, <- E, rev_involutive; reflexivity).
  simpl rev. destruct (rev t) as [|h r] eqn:Et.
  - simpl. split; [exact Hz | intros _; exact Hz].
  - change (py_isspace h = false /\ forall d, py_isspace (last ((h :: r) ++ [c]) d) = false).
    split.
    + rewrite Ey in Hy. simpl rev in Hy. rewrite Et in Hy. exact Hy.
    + intros d. rewrite (last_app_cons (h :: r) c [] d). exact Hz.
Qed.

Lemma trimmed_strip : forall s, trimmed s -> py_strip s = s.
Proof.
  intros [|c t] H; [reflexivity|]. destruct H as [Hc Hl].
  unfold py_strip, strip_by. simpl. rewrite Hc.
  unfold rstrip_by.
  assert (E : c :: t = removelast (c :: t) ++ [last (c :: t) c])
    by (apply app_removelast_last; discriminate).
  set (x := last (c :: t) c) in *. set (r := removelast (c :: t)) in *.
  rewrite E at 1. rewrite rev_app_distr.
  change (rev (lstrip_by py_isspace (x :: rev r)) = c :: t).
  cbn [lstrip_by]. rewrite (Hl c : py_isspace x = false).
  change (rev (rev r) ++ [x] = c :: t).
  rewrite rev_involutive. symmetry. exact E.
Qed.

Lemma strip_idem : forall s, py_strip (py_strip s) = py_strip s.
Proof. intros s. apply trimmed_strip, strip_trimmed. Qed.

(** *** Runs of newlines *)

Lemma nl_run_ok_prefix3 : forall k s, nl_run_ok k s = true -> prefixb [nl; nl; nl] s = false.
Proof.
  intros k [|a [|b [|c s]]] H; try reflexivity.
  - cbn [prefixb]. destruct (N.eqb nl a); reflexivity.
  - cbn [prefixb]. destruct (N.eqb nl a), (N.eqb nl b); reflexivity.
  - cbn [prefixb]. cbn [nl_run_ok] in H.
    destruct (N.eqb nl a) eqn:Ea; [|reflexivity].
    destruct (N.eqb nl b) eqn:Eb; [|reflexivity].
    destruct (N.eqb nl c) eqn:Ec; [|reflexivity].
    apply N.eqb_eq in Ea, Eb, Ec. subst a b c. rewrite N.eqb_refl in H.
    destruct (k <? 2) eqn:Ek; [|discriminate]. destruct (S k <? 2) eqn:Ek1; [|discriminate].
    destruct (S (S k) <? 2) eqn:Ek2; [|discriminate]. apply Nat.ltb_lt in Ek2. lia.
Qed.

Lemma nl_run_ok_tail : forall k c t, nl_run_ok k (c :: t) = true -> exists k', nl_run_ok k' t = true.
Proof.
  intros k c t H. simpl in H. destruct (N.eqb c nl).
  - apply andb_prop in H. exists (S k). apply H.
  - exists 0. exact H.
Qed.

Lemma nl_run_ok_find : forall s k i, nl_run_ok k s = true -> find_aux s [nl; nl; nl] i = None.
Proof.
  induction s as [|c s IH]; intros k i H; cbn [find_aux].
  - reflexivity.
  - rewrite (nl_run_ok_prefix3 k (c :: s) H).
    destruct (nl_run_ok_tail k c s H) as [k' H']. apply (IH k'), H'.
Qed.

Lemma nl_run_ok_app_l : forall x b k, nl_run_ok k (x ++ b) = true -> nl_run_ok k x = true.
Proof.
  induction x as [|c x IH]; intros b k H; [reflexivity|]. simpl in *.
  destruct (N.eqb c nl).
  - apply andb_prop in H as [H1 H2]. rewrite H1. apply (IH b), H2.
  - apply (IH b), H.
Qed.

Lemma nl_run_ok_app_r : forall a x k, nl_run_ok k (a ++ x) = true -> exists k', nl_run_ok k' x = true.
Proof.
  induction a as [|c a IH]; intros x k H; [exists k; exact H|].
  destruct (nl_run_ok_tail k c (a ++ x) H) as [k' H']. apply (IH x k'), H'.
Qed.

Lemma strip_nl_run_ok : forall k s, nl_run_ok k s = true -> exists k', nl_run_ok k' (py_strip s) = true.
Proof.
  intros k s H. unfold py_strip, strip_by.
  destruct (lstrip_by_suffix py_isspace s) as [pre E].
  rewrite E in H. apply nl_run_ok_app_r in H as [k' H].
  destruct (rstrip_by_prefix py_isspace (lstrip_by py_isspace s)) as [suf E'].
  rewrite E' in H. exists k'. apply (nl_run_ok_app_l _ suf), H.
Qed.

Lemma limit_newlines_run_ok : forall s k, nl_run_ok (Nat.min k 2) (limit_newlines k s) = true.
Proof.
  induction s as [|c s IH]; intros k; [reflexivity|]. simpl limit_newlines.
  destruct (N.eqb c nl) eqn:Ec.
  - destruct (k <? 2) eqn:Ek.
    + apply Nat.ltb_lt in Ek. simpl. rewrite Ec.
      replace (Nat.min k 2) with k by lia.
      rewrite (proj2 (Nat.ltb_lt k 2) Ek). simpl.
      replace (S k) with (Nat.min (S k) 2) at 1 by lia. apply IH.
    + apply Nat.ltb_ge in Ek. replace (Nat.min k 2) with (Nat.min (S k) 2) by lia. apply IH.
  - simpl. rewrite Ec. apply (IH 0).
Qed.

Lemma no_triple_nl : forall s k, nl_run_ok k s = true -> py_contains s [nl; nl; nl] = false.
Proof.
  intros s k H. unfold py_contains, py_find. rewrite (nl_run_ok_find s k 0 H). reflexivity.
Qed.

Lemma strip_limit_no_triple : forall x,
  py_contains (py_strip (limit_newlines 0 x)) [nl; nl; nl] = false.
Proof.
  intros x. destruct (strip_nl_run_ok _ _ (limit_newlines_run_ok x 0)) as [k H].
  apply (no_triple_nl _ k), H.
Qed.

(** What every output of [clean_model_text] looks like. *)
Lemma clean_model_text_shape : forall text,
  py_strip (clean_model_text text) = clean_model_text text /\
  py_contains (clean_model_text text) [nl; nl; nl] = false.
Proof.
  intros [|c t]; [split; reflexivity|].
  change (clean_model_text (c :: t)) with
    (py_strip (collapse_blank_lines (drop_placeholder_lines (collapse_links
      (py_replace (py_replace (py_replace (py_replace (py_replace (c :: t)
        [bslash; (ch "n")] [nl]) [bslash; (ch "r")] [cr]) [bslash; (ch "t")] [tab])
        (bslash :: lit "u0022") [dquote]) (lit "```") []))))).
  split; [apply strip_idem|].
  unfold collapse_blank_lines. rewrite collapse_limit. apply strip_limit_no_triple.
Qed.

(** X1: [clean_model_text] returns text with no leading or trailing
    whitespace and with no run of three newlines. *)
Theorem clean_model_text_normal_form : forall text,
  py_strip (clean_model_text text) = clean_model_text text /\
  py_contains (clean_model_text text) [nl; nl; nl] = false.
Proof. exact clean_model_text_shape. Qed.

(** *** The parser's fields *)

Lemma Forall_firstn_l : forall {A} (P : A -> Prop) n xs, Forall P xs -> Forall P (firstn n xs).
Proof.
  intros A P n xs; revert n; induction xs as [|x xs IH]; intros [|n] H; simpl; try constructor.
  - inversion H; assumption.
  - inversion H; subst. apply IH; assumption.
Qed.

Lemma digits_value_nonneg_aux : forall ds acc, Forall (fun c => is_digit c = true) ds ->
  (0 <= acc)%Z -> (0 <= fold_left (fun acc c => acc * 10 + (Z.of_N c - 48))%Z ds acc)%Z.
Proof.
  induction ds as [|c ds IH]; intros acc Hd Ha; simpl; [exact Ha|].
  inversion Hd as [|x y Hc Hds]; subst. apply IH; [exact Hds|].
  unfold is_digit in Hc. apply andb_prop in Hc as [Hc _]. apply N.leb_le in Hc. lia.
Qed.

Lemma decimal_value_nonneg : forall ip fp,
  Forall (fun c => is_digit c = true) ip -> Forall (fun c => is_digit c = true) fp ->
  (0 <= decimal_value ip fp)%Q.
Proof.
  intros ip fp Hi Hf. unfold decimal_value, Qle. simpl.
  rewrite Z.mul_1_r. apply digits_value_nonneg_aux; [apply Forall_app; split; assumption | lia].
Qed.

Lemma fit_match_at_digits : forall s ip fp, fit_match_at s = Some (ip, fp) ->
  Forall (fun c => is_digit c = true) ip /\ Forall (fun c => is_digit c = true) fp.
Proof.
  intros s ip fp H. unfold fit_match_at in H.
  destruct (prefixb (lit "FIT_SCORE:") s); [|discriminate].
  pose proof (span_fst_all is_digit (snd (span py_isspace (skipn 10 s)))) as Hds.
  destruct (span is_digit (snd (span py_isspace (skipn 10 s)))) as [ds s2]. simpl in Hds.
  destruct ds as [|d ds]; [discriminate|].
  destruct s2 as [|c [|d' rest]];
    [injection H as <- <-; split; [exact Hds | constructor]
    | injection H as <- <-; split; [exact Hds | constructor] |].
  destruct (N.eqb c (ch ".") && is_digit d'); injection H as <- <-;
    split; [exact Hds | exact (span_fst_all is_digit (d' :: rest)) | exact Hds | constructor].
Qed.

Lemma fit_search_digits : forall s ip fp, fit_search s = Some (ip, fp) ->
  Forall (fun c => is_digit c = true) ip /\ Forall (fun c => is_digit c = true) fp.
Proof.
  induction s as [|c s IH]; intros ip fp H; cbn [fit_search] in H;
    destruct (fit_match_at _) as [[a b]|] eqn:E.
  - injection H as <- <-. exact (fit_match_at_digits _ _ _ E).
  - discriminate.
  - injection H as <- <-. exact (fit_match_at_digits _ _ _ E).
  - apply IH, H.
Qed.

Lemma last_in : forall (xs : list pystr) d, xs <> [] -> In (last xs d) xs.
Proof.
  intros xs d Hx. rewrite (app_removelast_last d Hx) at 2. apply in_or_app. right. left. reflexivity.
Qed.

Lemma strip_enumerator_trimmed : forall line, trimmed line -> trimmed (strip_enumerator line).
Proof.
  intros line Hl. unfold strip_enumerator.
  pose proof (span_app is_digit line) as A1.
  destruct (span is_digit line) as [ds r1]. simpl in A1.
  destruct ds as [|d ds]; [exact Hl|].
  pose proof (span_app py_isspace r1) as A2.
  destruct (span py_isspace r1) as [sp r1']. simpl in A2 |- *.
  destruct r1' as [|c r2]; [exact Hl|].
  destruct (is_enum_punct c); [|exact Hl].
  pose proof (span_app py_isspace r2) as A3.
  pose proof (span_snd_hd py_isspace r2) as H3.
  destruct (span py_isspace r2) as [sp2 X]. simpl in A3, H3 |- *.
  destruct X as [|x xs]; [exact I|]. split; [apply H3; reflexivity|].
  intros d0. subst line r1 r2. destruct Hl as [_ Hlast]. specialize (Hlast d0).
  replace ((d :: ds) ++ sp ++ c :: sp2 ++ x :: xs)
    with ((d :: ds ++ sp ++ c :: sp2) ++ x :: xs) in Hlast
    by (simpl; rewrite <- !app_assoc; reflexivity).
  rewrite last_app_cons in Hlast. exact Hlast.
Qed.

Lemma fold_collect_answer_trimmed : forall lines acc, Forall trimmed acc ->
  Forall trimmed (fold_left collect_answer lines acc).
Proof.
  induction lines as [|l lines IH]; intros acc H; simpl; [exact H|].
  apply IH. unfold collect_answer. pose proof (strip_trimmed l) as Ht.
  destruct (py_strip l) as [|c t]; [exact H|].
  apply Forall_app. split; [exact H|]. constructor; [|constructor].
  apply strip_enumerator_trimmed, Ht.
Qed.

Lemma pad_answers_trimmed : forall fuel xs, Forall trimmed xs -> Forall trimmed (pad_answers fuel xs).
Proof.
  induction fuel as [|f IH]; intros xs H; simpl; [exact H|].
  destruct (length xs <? 3); [|exact H].
  apply IH, Forall_app. split; [exact H | constructor; [exact I | constructor]].
Qed.

Lemma short_answers_of_trimmed : forall block, Forall trimmed (short_answers_of block).
Proof.
  intros block. unfold short_answers_of. apply pad_answers_trimmed.
  pose proof (fold_collect_answer_trimmed (py_splitlines block) [] (Forall_nil _)) as H.
  destruct (3 <? length _); [apply Forall_firstn_l|]; exact H.
Qed.

(** X2: every text field [parse_model_output] returns is free of leading and
    trailing whitespace and of runs of three newlines, each short answer is
    trimmed, and the fit score is not negative. *)
Theorem parse_model_output_fields (raw : pystr) (pr : parsed)
    (H : parse_model_output raw = Parsed pr) :
  (0 <= fit_score pr)%Q /\
  Forall (fun s => py_strip s = s /\ py_contains s [nl; nl; nl] = false)
         [reasoning pr; cover_letter pr; resume pr] /\
  Forall (fun a => py_strip a = a) (short_answers pr).
Proof.
  unfold parse_model_output in H.
  destruct (fit_search raw) as [[ip fp]|] eqn:Ef; [|discriminate].
  inversion H; subst; clear H. cbn [fit_score reasoning cover_letter resume short_answers].
  split; [|split].
  - destruct (fit_search_digits raw ip fp Ef). apply decimal_value_nonneg; assumption.
  - repeat constructor; apply clean_model_text_shape.
  - eapply Forall_impl; [|apply short_answers_of_trimmed]. intros a Ha. apply trimmed_strip, Ha.
Qed.

Lemma parse_model_output_fields_witness :
  parse_model_output (tagged_blob (lit "88") (lit "Strong match") (lit "Dear team")
                                  (lit "Resume") (lit "1) Yes"))
    = Parsed {| fit_score := 88; reasoning := lit "Strong match"; cover_letter := lit "Dear team";
                resume := lit "Resume"; short_answers := [lit "Yes"; []; []] |} /\
  (0 <= 88)%Q /\
  Forall (fun s => py_strip s = s /\ py_contains s [nl; nl; nl] = false)
         [lit "Strong match"; lit "Dear team"; lit "Resume"] /\
  Forall (fun a => py_strip a = a) [lit "Yes"; []; []].
Proof.
  assert (E : parse_model_output (tagged_blob (lit "88") (lit "Strong match") (lit "Dear team")
                                  (lit "Resume") (lit "1) Yes"))
    = Parsed {| fit_score := 88; reasoning := lit "Strong match"; cover_letter := lit "Dear team";
                resume := lit "Resume"; short_answers := [lit "Yes"; []; []] |})
    by (vm_compute; reflexivity).
  split; [exact E|]. exact (parse_model_output_fields _ _ E).
Defined.

(** *** The package variant's short answers *)

Lemma answer_parts_shape : forall raw,
  Forall (fun a => py_strip a = a /\ a <> []) (answer_parts raw).
Proof.
  intros raw. unfold answer_parts. apply Forall_forall. intros a Ha.
  apply in_map_iff in Ha as [p [Ep Hp]]. subst a. apply filter_In in Hp as [_ Hp].
  split; [apply strip_idem|]. intros E. rewrite E in Hp. discriminate.
Qed.

Lemma pad_with_last_Forall : forall (P : pystr -> Prop) fuel xs, Forall P xs -> xs <> [] ->
  Forall P (pad_with_last fuel xs).
Proof.
  intros P; induction fuel as [|f IH]; intros xs H Hne; simpl; [exact H|].
  destruct (length xs <? 3); [|exact H].
  apply IH.
  - apply Forall_app. split; [exact H|]. constructor; [|constructor].
    rewrite Forall_forall in H. apply H, last_in, Hne.
  - intros E. apply app_eq_nil in E as [_ E]. discriminate.
Qed.

(** X3: the answers of [generate_short_answers] are trimmed, and either all
    three are empty or none is. *)
Theorem generate_short_answers_trimmed : forall raw,
  Forall (fun a => py_strip a = a) (generate_short_answers raw) /\
  (generate_short_answers raw = [[]; []; []] \/
   Forall (fun a => a <> []) (generate_short_answers raw)).
Proof.
  intros raw. pose proof (answer_parts_shape raw) as Hp. unfold generate_short_answers.
  destruct (3 <=? length (answer_parts raw)).
  - split; right + idtac; apply Forall_firstn_l; eapply Forall_impl; try exact Hp;
      intros a [H1 H2]; assumption.
  - destruct (answer_parts raw) as [|p ps] eqn:E.
    + split; [repeat constructor | left; reflexivity].
    + split; [|right]; apply Forall_firstn_l, pad_with_last_Forall; try discriminate;
        eapply Forall_impl; try exact Hp; intros a [H1 H2]; assumption.
Qed.

(** *** Fit score of the package variant *)

(** X4: [label_fit] of the score [estimate_fit_score] gives is always
    "Good fit": the score is one of 70, 75 and 80. *)
Theorem estimate_fit_score_label : forall job : App.JobInput,
  label_fit (App.estimate_fit_score job) = lit "Good fit" /\
  (70 <= App.estimate_fit_score job <= 80)%Q.
Proof.
  intros job. unfold label_fit, App.estimate_fit_score.
  destruct (App.seniority_hint job) as [[]|]; destruct (1500 <? length (App.job_description job));
    split; try reflexivity; vm_compute; split; discriminate.
Qed.

(** *** Seniority hints *)

(** X5: every [SeniorityHint] value typed into the form reaches the
    [JobInput] as that member: [SeniorityHint(h.value)] is [h]. *)
Theorem submit_hint_round_trip : forall (h : App.SeniorityHint) r c t l d,
  App.SeniorityHint_of (App.value h) = Some h /\
  App.seniority_hint (App.submit_job_input r c t l d (App.value h)) = Some h.
Proof. intros [] r c t l d; split; reflexivity. Qed.

(** *** The error buffer *)

Lemma firstn_app_firstn : forall (A : Type) (a b : list A) n k, n <= length a + k ->
  firstn n (a ++ firstn k b) = firstn n (a ++ b).
Proof.
  intros A; induction a as [|x a IH]; intros b n k Hn.
  - simpl in *. rewrite firstn_firstn. f_equal. lia.
  - destruct n as [|n]; [reflexivity|]. simpl in *. f_equal. apply IH. lia.
Qed.

(** The entry [record_error] stores for an error raised at [now]. *)
Lemma record_error_step : forall buf now msg,
  Diagnostics.record_error buf now msg
  = firstn 20 ({| Diagnostics.time := Diagnostics.isoformat_seconds now;
                  Diagnostics.message := msg |} :: buf).
Proof. reflexivity. Qed.

(** X6: after the errors [evs] (time, message) are recorded in order,
    [get_recent_errors] lists them newest first followed by the earlier
    buffer, cut to the 20 most recent. *)
Theorem recent_errors_window : forall (evs : list (datetime * pystr)) buf,
  length buf <= 20 ->
  Diagnostics.get_recent_errors
    (fold_left (fun b ev => Diagnostics.record_error b (fst ev) (snd ev)) evs buf)
  = firstn 20 (rev (map (fun ev => {| Diagnostics.time := Diagnostics.isoformat_seconds (fst ev);
                                      Diagnostics.message := snd ev |}) evs) ++ buf).
Proof.
  induction evs as [|ev evs IH]; intros buf Hb; cbn [fold_left map rev app].
  - symmetry. apply firstn_all2. exact Hb.
  - rewrite IH by (rewrite record_error_step; apply firstn_le_length).
    rewrite record_error_step, firstn_app_firstn by lia.
    rewrite <- app_assoc. reflexivity.
Qed.

(** The theorem on a full buffer of twenty entries and two new errors: the
    two new entries come first, newest first, and the two oldest entries
    are dropped. *)
Lemma recent_errors_window_witness :
  let buf := map (fun k => {| Diagnostics.time := dec k; Diagnostics.message := lit "old" |})
                 (seq 0 20) in
  let t0 := {| year := 2026; month := 10; day := 19; hour := 9; minute := 5; second := 7 |} in
  let evs := [(t0, lit "timeout"); (t0, lit "refused")] in
  length buf <= 20 /\
  Diagnostics.get_recent_errors
    (fold_left (fun b ev => Diagnostics.record_error b (fst ev) (snd ev)) evs buf)
  = firstn 20 (rev (map (fun ev => {| Diagnostics.time := Diagnostics.isoformat_seconds (fst ev);
                                      Diagnostics.message := snd ev |}) evs) ++ buf) /\
  map Diagnostics.message
    (Diagnostics.get_recent_errors
       (fold_left (fun b ev => Diagnostics.record_error b (fst ev) (snd ev)) evs buf))
  = [lit "refused"; lit "timeout"] ++ repeat (lit "old") 18 /\
  map Diagnostics.time
    (skipn 2 (Diagnostics.get_recent_errors
                (fold_left (fun b ev => Diagnostics.record_error b (fst ev) (snd ev)) evs buf)))
  = map dec (seq 0 18).
Proof.
  intros buf t0 evs.
  assert (Hb : length buf <= 20) by (unfold buf; rewrite length_map, length_seq; lia).
  pose proof (recent_errors_window evs buf Hb) as E.
  split; [exact Hb|]. split; [exact E|]. rewrite E. split; vm_compute; reflexivity.
Defined.

(** *** Listing the recent jobs *)

Lemma scan_entries_bound : forall json_loads m limit names jobs res,
  (Z.of_nat (length jobs) < Z.max 1 limit)%Z ->
  Main.scan_entries json_loads m limit names jobs = Ok res ->
  (Z.of_nat (length res) <= Z.max 1 limit)%Z.
Proof.
  intros json_loads m limit names; induction names as [|name names IH];
    intros jobs res Hj H; cbn [Main.scan_entries] in H.
  - injection H as <-. lia.
  - destruct (negb (is_dir m (name :: Main.OUTPUT_ROOT))); [eapply IH; eassumption|].
    destruct (negb (exists_path _ _)); [eapply IH; eassumption|].
    destruct (read_text _ _) as [txt|f]; [|eapply IH; eassumption].
    destruct (json_loads txt) as [[| | | | |kvs]|]; try discriminate; [|eapply IH; eassumption].
    match type of H with
    | context [(limit <=? Z.of_nat (length ?j))%Z] => set (jobs' := j) in H
    end.
    assert (Hl : Z.of_nat (length jobs') = (Z.of_nat (length jobs) + 1)%Z)
      by (unfold jobs'; rewrite length_app; simpl; lia).
    destruct (limit <=? Z.of_nat (length jobs'))%Z eqn:El.
    + injection H as <-. apply Z.leb_le in El. lia.
    + apply Z.leb_gt in El. eapply IH; [|exact H]. lia.
Qed.

(** X7: [get_recent_jobs(limit)] returns at most [limit] jobs when
    [limit >= 1], and at most one job when [limit <= 0]: the limit is checked
    only after a job has been added. *)
Theorem get_recent_jobs_bound (json_loads : pystr -> option json) (m : fstate) (limit : Z)
    (jobs : list Main.summary) (H : Main.get_recent_jobs json_loads m limit = Ok jobs) :
  (Z.of_nat (length jobs) <= Z.max 1 limit)%Z.
Proof.
  unfold Main.get_recent_jobs in H.
  destruct (negb (exists_path m Main.OUTPUT_ROOT)); [injection H as <-; simpl; lia|].
  destruct (iterdir m Main.OUTPUT_ROOT) as [names|f]; cbn [bind] in H; [|discriminate].
  eapply scan_entries_bound; [|exact H]. simpl. lia.
Qed.

Lemma get_recent_jobs_bound_witness :
  let m0 := [([lit "meta.json"; lit "b"; lit "output"; lit "app"], NFile (lit "{}"));
             ([lit "b"; lit "output"; lit "app"], NDir);
             ([lit "meta.json"; lit "a"; lit "output"; lit "app"], NFile (lit "{}"));
             ([lit "a"; lit "output"; lit "app"], NDir);
             ([lit "output"; lit "app"], NDir); ([lit "app"], NDir)] in
  let loads := fun _ : pystr => Some (JObj []) in
  exists jobs, Main.get_recent_jobs loads m0 0 = Ok jobs /\ length jobs = 1 /\
               (Z.of_nat (length jobs) <= Z.max 1 0)%Z.
Proof.
  intros m0 loads.
  destruct (Main.get_recent_jobs loads m0 0) as [jobs|f] eqn:E.
  - exists jobs. split; [reflexivity|].
    pose proof (get_recent_jobs_bound loads m0 0 jobs E) as B.
    split; [|exact B]. vm_compute in E. injection E as <-. reflexivity.
  - vm_compute in E. discriminate.
Defined.

(** X8: the loop of [get_recent_jobs] skips an entry that is not a
    directory, has no meta.json, or whose meta.json cannot be read or is
    not valid JSON; a meta.json holding valid JSON that is not an object
    makes the call fail with [AttributeError], since [meta.get] runs
    outside the [try]. *)
Theorem get_recent_jobs_errors (json_loads : pystr -> option json) (m : fstate) (limit : Z)
    (name : pystr) (rest : list pystr) (jobs : list Main.summary) :
  let entry := name :: Main.OUTPUT_ROOT in
  let meta_path := lit "meta.json" :: entry in
  let scan := Main.scan_entries json_loads m limit in
  (is_dir m entry = false -> scan (name :: rest) jobs = scan rest jobs) /\
  (exists_path m meta_path = false -> scan (name :: rest) jobs = scan rest jobs) /\
  (forall f, read_text m meta_path = Err f -> scan (name :: rest) jobs = scan rest jobs) /\
  (forall txt, read_text m meta_path = Ok txt -> json_loads txt = None ->
     scan (name :: rest) jobs = scan rest jobs) /\
  (forall txt v, is_dir m entry = true -> read_text m meta_path = Ok txt ->
     json_loads txt = Some v -> (forall kvs, v <> JObj kvs) ->
     scan (name :: rest) jobs = Err AttributeError).
Proof.
  intros entry meta_path scan. unfold scan; cbn [Main.scan_entries]. fold entry meta_path.
  repeat split.
  - intros H. rewrite H. reflexivity.
  - intros H. rewrite H. destruct (negb (is_dir m entry)); reflexivity.
  - intros f H. destruct (negb (is_dir m entry)); [reflexivity|].
    destruct (negb (exists_path m meta_path)); [reflexivity|]. rewrite H. reflexivity.
  - intros txt H Hj. destruct (negb (is_dir m entry)); [reflexivity|].
    destruct (negb (exists_path m meta_path)); [reflexivity|]. rewrite H, Hj. reflexivity.
  - intros txt v Hd H Hj Hv. rewrite Hd. cbn [negb].
    assert (Hex : exists_path m meta_path = true)
      by (unfold read_text in H; unfold exists_path, meta_path;
          destruct (lookup m _) as [[|c]|]; congruence).
    rewrite Hex. cbn [negb]. rewrite H, Hj.
    destruct v as [| | | | |kvs]; try reflexivity. exfalso. apply (Hv kvs). reflexivity.
Qed.

(** A folder whose meta.json is a JSON list: the listing fails, and it
    fails at that folder. *)
Lemma get_recent_jobs_errors_witness :
  let entry := lit "acme" :: Main.OUTPUT_ROOT in
  let m0 := [(lit "meta.json" :: entry, NFile (lit "[]")); (entry, NDir);
             (Main.OUTPUT_ROOT, NDir); ([lit "app"], NDir)] in
  let loads := fun txt : pystr => if pystr_eqb txt (lit "[]") then Some (JArr []) else None in
  Main.get_recent_jobs loads m0 20 = Err AttributeError /\
  Main.scan_entries loads m0 20 [lit "acme"] [] = Err AttributeError.
Proof.
  intros entry m0 loads.
  split; [vm_compute; reflexivity|].
  destruct (get_recent_jobs_errors loads m0 20 (lit "acme") [] []) as (_ & _ & _ & _ & H).
  apply (H (lit "[]") (JArr [])); [vm_compute; reflexivity | vm_compute; reflexivity
                                  | vm_compute; reflexivity | discriminate].
Defined.

(** *** Folder-name sanitizers *)

Lemma strip_by_ends : forall f s,
  match strip_by f s with [] => True | c :: _ => f c = false /\ forall d, f (last (strip_by f s) d) = false end.
Proof.
  intros f s. unfold strip_by, rstrip_by.
  set (y := lstrip_by f s).
  pose proof (lstrip_by_head f s) as Hy. fold y in Hy.
  destruct (lstrip_by_suffix f (rev y)) as [pre E].
  pose proof (lstrip_by_head f (rev y)) as Hz.
  destruct (lstrip_by f (rev y)) as [|c t] eqn:Ez; [exact I|].
  assert (Ey : y = rev (c :: t) ++ rev pre)
    by (rewrite <- rev_app_distr, <- E, rev_involutive; reflexivity).
  simpl rev. destruct (rev t) as [|h r] eqn:Et.
  - simpl. split; [exact Hz | intros _; exact Hz].
  - change (f h = false /\ forall d, f (last ((h :: r) ++ [c]) d) = false).
    split.
    + rewrite Ey in Hy. simpl rev in Hy. rewrite Et in Hy. exact Hy.
    + intros d. rewrite (last_app_cons (h :: r) c [] d). exact Hz.
Qed.

Lemma strip_by_fixed : forall f s,
  match s with [] => True | c :: _ => f c = false /\ forall d, f (last s d) = false end ->
  strip_by f s = s.
Proof.
  intros f [|c t] H; [reflexivity|]. destruct H as [Hc Hl].
  unfold strip_by. simpl. rewrite Hc.
  unfold rstrip_by.
  assert (E : c :: t = removelast (c :: t) ++ [last (c :: t) c])
    by (apply app_removelast_last; discriminate).
  set (x := last (c :: t) c) in *. set (r := removelast (c :: t)) in *.
  rewrite E at 1. rewrite rev_app_distr.
  change (rev (lstrip_by f (x :: rev r)) = c :: t).
  cbn [lstrip_by]. rewrite (Hl c : f x = false).
  change (rev (rev r) ++ [x] = c :: t).
  rewrite rev_involutive. symmetry. exact E.
Qed.

Lemma sub_non_alnum_us_ok : forall s b, us_ok b (Main.sub_non_alnum b s) = true.
Proof.
  induction s as [|c t IH]; intros b; simpl; [reflexivity|].
  destruct (is_alnum c) eqn:E.
  - simpl. rewrite E. apply IH.
  - destruct b; [apply IH|]. simpl. apply IH.
Qed.

Lemma us_ok_sub_non_alnum : forall s b, us_ok b s = true -> Main.sub_non_alnum b s = s.
Proof.
  induction s as [|c t IH]; intros b H; simpl in *; [reflexivity|].
  destruct (is_alnum c).
  - f_equal. apply IH, H.
  - apply andb_prop in H as [H1 H3]. apply andb_prop in H1 as [H1 H2].
    apply N.eqb_eq in H1. subst c. destruct b; [discriminate|].
    f_equal. apply IH, H3.
Qed.

Lemma us_ok_app_l : forall x y b, us_ok b (x ++ y) = true -> us_ok b x = true.
Proof.
  induction x as [|c x IH]; intros y b H; simpl in *; [reflexivity|].
  destruct (is_alnum c); [apply (IH y), H|].
  apply andb_prop in H as [H1 H2]. rewrite H1. apply (IH y), H2.
Qed.

Lemma us_ok_app_r : forall x y b, us_ok b (x ++ y) = true -> exists b', us_ok b' y = true.
Proof.
  induction x as [|c x IH]; intros y b H; simpl in *; [exists b; exact H|].
  destruct (is_alnum c); [apply (IH y false), H|].
  apply andb_prop in H as [_ H2]. apply (IH y true), H2.
Qed.

Lemma us_ok_head : forall s b, us_ok b s = true ->
  match s with [] => True | c :: _ => N.eqb c underscore = false end -> us_ok false s = true.
Proof.
  intros [|c t] b H Hc; [reflexivity|]. simpl in *.
  destruct (is_alnum c); [exact H|]. rewrite Hc in H. discriminate.
Qed.

Lemma main_sanitize_out : forall text,
  Main.sanitize_part text = lit "job" \/
  (Main.sanitize_part text <> [] /\ us_ok false (Main.sanitize_part text) = true /\
   strip_by (fun c => N.eqb c underscore) (Main.sanitize_part text) = Main.sanitize_part text).
Proof.
  intros [|c0 t0]; [left; reflexivity|]. unfold Main.sanitize_part.
  set (f := fun c : pychar => N.eqb c underscore).
  pose proof (strip_by_ends f (Main.sub_non_alnum false (c0 :: t0))) as Hends.
  pose proof (sub_non_alnum_us_ok (c0 :: t0) false) as Hok.
  destruct (lstrip_by_suffix f (Main.sub_non_alnum false (c0 :: t0))) as [pre E1].
  destruct (rstrip_by_prefix f (lstrip_by f (Main.sub_non_alnum false (c0 :: t0)))) as [suf E2].
  fold (strip_by f (Main.sub_non_alnum false (c0 :: t0))) in E2.
  rewrite E1, E2 in Hok. apply us_ok_app_r in Hok as [b' Hok]. apply us_ok_app_l in Hok.
  destruct (strip_by f (Main.sub_non_alnum false (c0 :: t0))) as [|c t] eqn:Es; [left; reflexivity|].
  right. split; [discriminate|]. split.
  - apply (us_ok_head _ b' Hok). apply Hends.
  - apply strip_by_fixed, Hends.
Qed.

(** X9: [sanitize_part] of [src/main.py] is idempotent: a sanitized part is
    left as it is. *)
Theorem main_sanitize_part_idempotent : forall text,
  Main.sanitize_part (Main.sanitize_part text) = Main.sanitize_part text.
Proof.
  intros text. destruct (main_sanitize_out text) as [E|[Hne [Hok Hs]]].
  - rewrite E. reflexivity.
  - destruct (Main.sanitize_part text) as [|c t] eqn:Eo; [contradiction|].
    rewrite <- Eo in *. unfold Main.sanitize_part at 1. rewrite Eo.
    rewrite <- Eo. rewrite (us_ok_sub_non_alnum _ false Hok), Hs, Eo. reflexivity.
Qed.

Lemma last_in_gen : forall {A} (xs : list A) d, xs <> [] -> In (last xs d) xs.
Proof.
  intros A xs d Hx. rewrite (app_removelast_last d Hx) at 2. apply in_or_app. right. left. reflexivity.
Qed.

(** A check of a character property over the code points below [k]. *)
Lemma forall_below : forall (P : pychar -> bool) (k : nat),
  forallb (fun n => P (N.of_nat n)) (seq 0 k) = true -> forall c, (c < N.of_nat k)%N -> P c = true.
Proof.
  intros P k H c Hc. rewrite forallb_forall in H.
  rewrite <- (N2Nat.id c). apply H. apply in_seq. lia.
Qed.

Lemma name_char_below : forall c, App.is_name_char c = true -> (c < N.of_nat 123)%N.
Proof.
  intros c H. unfold App.is_name_char, is_lower_ascii, is_digit in H.
  apply orb_true_iff in H as [H|H]; [apply orb_true_iff in H as [H|H]|].
  - apply andb_prop in H as [_ H]. apply N.leb_le in H. lia.
  - apply andb_prop in H as [_ H]. apply N.leb_le in H. lia.
  - apply N.eqb_eq in H. subst c. vm_compute. reflexivity.
Qed.

Lemma name_char_facts : forall c, App.is_name_char c = true ->
  py_isspace c = false /\ lower_char c = [c] /\ c <> 931%N.
Proof.
  intros c H.
  pose proof (forall_below (fun c => implb (App.is_name_char c)
                (negb (py_isspace c) && pystr_eqb (lower_char c) [c] && negb (c =? 931)%N))
                123 ltac:(vm_compute; reflexivity) c (name_char_below c H)) as F.
  cbv beta in F. rewrite H in F. cbn [implb] in F.
  apply andb_prop in F as [F F3]. apply andb_prop in F as [F1 F2].
  apply negb_true_iff in F1, F3. apply pystr_eqb_true in F2.
  split; [exact F1|]. split; [exact F2|]. intros E. rewrite E in F3. discriminate.
Qed.

(** [str.lower] leaves a text alone when every character lowers to itself
    and none is U+03A3. *)
Lemma lower_from_fixed : forall s before,
  Forall (fun c => lower_char c = [c] /\ c <> 931%N) s -> lower_from before s = s.
Proof.
  induction s as [|c t IH]; intros before H; [reflexivity|].
  inversion H as [|x y [Hl Hn] Ht]; subst. cbn [lower_from].
  destruct (N.eqb_spec c 931); [contradiction|]. rewrite Hl, IH by exact Ht. reflexivity.
Qed.

Lemma sub_space_runs_id : forall s b, Forall (fun c => py_isspace c = false) s ->
  App.sub_space_runs b s = s.
Proof.
  induction s as [|c t IH]; intros b H; [reflexivity|]. inversion H as [|x y Hc Ht]; subst.
  simpl. rewrite Hc. f_equal. apply IH, Ht.
Qed.

Lemma filter_all_true : forall (f : pychar -> bool) s, Forall (fun c => f c = true) s -> filter f s = s.
Proof.
  induction s as [|c t IH]; intros H; [reflexivity|]. inversion H as [|x y Hc Ht]; subst.
  simpl. rewrite Hc. f_equal. apply IH, Ht.
Qed.

Lemma app_sanitize_fixed : forall s fallback, s <> [] ->
  Forall (fun c => App.is_name_char c = true) s -> App.sanitize_part s fallback = s.
Proof.
  intros s fallback Hne H.
  assert (Hsp : Forall (fun c => py_isspace c = false) s)
    by (eapply Forall_impl; [|exact H]; intros c Hc; apply name_char_facts, Hc).
  assert (Hst : py_strip s = s).
  { apply trimmed_strip. destruct s as [|c t]; [contradiction|].
    rewrite Forall_forall in Hsp. split; [apply Hsp; left; reflexivity|].
    intros d. apply Hsp, last_in_gen. discriminate. }
  assert (Hlo : py_lower s = s).
  { unfold py_lower. apply lower_from_fixed.
    eapply Forall_impl; [|exact H]. intros c Hc. apply (proj2 (name_char_facts c Hc)). }
  unfold App.sanitize_part. rewrite Hst.
  destruct s as [|c t] eqn:Es; [contradiction|]. rewrite <- Es in *.
  rewrite Hlo, sub_space_runs_id, filter_all_true by assumption. rewrite Es. reflexivity.
Qed.

Lemma app_sanitize_out : forall text fallback,
  App.sanitize_part text fallback = fallback \/
  (App.sanitize_part text fallback <> [] /\
   Forall (fun c => App.is_name_char c = true) (App.sanitize_part text fallback)).
Proof.
  intros text fallback. unfold App.sanitize_part.
  destruct (py_strip text) as [|a l]; [left; reflexivity|].
  pose proof (Forall_filter_true App.is_name_char (App.sub_space_runs false (py_lower (a :: l)))) as F.
  destruct (filter _ _) as [|x xs]; [left; reflexivity|]. right. split; [discriminate | exact F].
Qed.

(** X10: [sanitize_part] of [src/app/utils.py] is idempotent for a fallback
    that it leaves as it is (such as "company" or "title"). *)
Theorem app_sanitize_part_idempotent (text fallback : pystr)
    (Hfb : App.sanitize_part fallback fallback = fallback) :
  App.sanitize_part (App.sanitize_part text fallback) fallback = App.sanitize_part text fallback.
Proof.
  destruct (app_sanitize_out text fallback) as [E|[Hne Hc]].
  - rewrite E. exact Hfb.
  - apply app_sanitize_fixed; assumption.
Qed.

Lemma app_sanitize_part_idempotent_witness :
  App.sanitize_part (lit "company") (lit "company") = lit "company" /\
  App.sanitize_part (App.sanitize_part (lit " Acme,  Inc. ") (lit "company")) (lit "company")
    = App.sanitize_part (lit " Acme,  Inc. ") (lit "company").
Proof.
  assert (H : App.sanitize_part (lit "company") (lit "company") = lit "company")
    by (vm_compute; reflexivity).
  split; [exact H | exact (app_sanitize_part_idempotent (lit " Acme,  Inc. ") (lit "company") H)].
Defined.

(** ** Claim C6, the statement *)

Lemma space_below : forall c, py_isspace c = true -> (c < 12289)%N.
Proof.
  intros c H. unfold py_isspace in H.
  repeat match goal with H : (_ || _) = true |- _ => apply orb_true_iff in H as [H|H] end;
  repeat match goal with
         | H : (_ && _) = true |- _ => apply andb_prop in H as [? ?]
         | H : (_ <=? _)%N = true |- _ => apply N.leb_le in H
         | H : (_ =? _)%N = true |- _ => apply N.eqb_eq in H
         end; lia.
Qed.

(** [str.lower] leaves every whitespace character as it is. *)
Lemma space_facts : forall c, py_isspace c = true -> lower_char c = [c] /\ c <> 931%N.
Proof.
  intros c H.
  pose proof (forall_below (fun c => implb (py_isspace c)
                (pystr_eqb (lower_char c) [c] && negb (c =? 931)%N))
                (N.to_nat 12289) ltac:(vm_compute; reflexivity) c
                ltac:(rewrite N2Nat.id; apply space_below, H)) as F.
  cbv beta in F. rewrite H in F. cbn [implb] in F.
  apply andb_prop in F as [F1 F2]. apply negb_true_iff in F2. apply pystr_eqb_true in F1.
  split; [exact F1|]. intros E. rewrite E in F2. discriminate.
Qed.

(** A text whose lower-cased form has no whitespace has no whitespace. *)
Lemma lower_no_space : forall s before,
  Forall (fun c => negb (py_isspace c) && negb (App.is_name_char c) = true) (lower_from before s) ->
  Forall (fun c => py_isspace c = false) s.
Proof.
  induction s as [|c t IH]; intros before H; [constructor|].
  cbn [lower_from] in H. apply Forall_app in H as [H1 H2].
  constructor; [|apply (IH (c :: before)), H2].
  destruct (py_isspace c) eqn:Ec; [|reflexivity]. exfalso.
  destruct (space_facts c Ec) as [Hl Hn]. destruct (N.eqb_spec c 931); [contradiction|].
  rewrite Hl in H1. inversion H1 as [|x y Hc _]; subst. rewrite Ec in Hc. discriminate.
Qed.

Lemma strip_no_space : forall s, Forall (fun c => py_isspace c = false) s -> py_strip s = s.
Proof.
  intros [|c t] Hsp; [reflexivity|]. apply trimmed_strip.
  rewrite Forall_forall in Hsp. split; [apply Hsp; left; reflexivity|].
  intros d. apply Hsp, last_in_gen. discriminate.
Qed.

(** C6 (amended).  [App.sanitize_part] with a fallback made of [a-z0-9_]
    returns a non-empty string of [a-z0-9_]; "Acme, Inc." becomes
    "acme_inc".  It returns the fallback when the lower-cased input has no
    whitespace and no character in [a-z0-9_] (so every all-punctuation
    input), and it returns a non-empty input made of [a-z0-9_], such as
    "__", unchanged.  [Main.sanitize_part] keeps the case: it returns a
    non-empty string of [A-Za-z0-9_], and "job" when the input has no ASCII
    letter or digit. *)
Theorem sanitize_part_charset (text fallback : pystr)
    (Hfb : fallback <> [] /\ Forall (fun c => App.is_name_char c = true) fallback) :
  (App.sanitize_part text fallback <> [] /\
   Forall (fun c => App.is_name_char c = true) (App.sanitize_part text fallback) /\
   (Forall (fun c => negb (py_isspace c) && negb (App.is_name_char c) = true) (py_lower text) ->
    App.sanitize_part text fallback = fallback) /\
   (text <> [] -> Forall (fun c => App.is_name_char c = true) text ->
    App.sanitize_part text fallback = text) /\
   App.sanitize_part (lit "Acme, Inc.") fallback = lit "acme_inc") /\
  (Main.sanitize_part text <> [] /\
   Forall (fun c => is_alnum c || N.eqb c underscore = true) (Main.sanitize_part text) /\
   (Forall (fun c => is_alnum c = false) text -> Main.sanitize_part text = lit "job")).
Proof.
  destruct Hfb as [Hne Hfc]. split; [split; [|split; [|split; [|split]]] | split; [|split]].
  - unfold App.sanitize_part. destruct (py_strip text); [exact Hne|].
    destruct (filter _ _); [exact Hne | discriminate].
  - unfold App.sanitize_part. destruct (py_strip text) as [|a l]; [exact Hfc|].
    pose proof (Forall_filter_true App.is_name_char
                  (App.sub_space_runs false (py_lower (a :: l)))) as F.
    destruct (filter _ _); [exact Hfc | exact F].
  - intros H. unfold App.sanitize_part.
    rewrite (strip_no_space text (lower_no_space text [] H)).
    destruct text as [|a l]; [reflexivity|].
    rewrite sub_space_runs_dropped by exact H. reflexivity.
  - apply app_sanitize_fixed.
  - reflexivity.
  - unfold Main.sanitize_part. destruct text; [discriminate|].
    destruct (strip_by _ _); discriminate.
  - unfold Main.sanitize_part. destruct text as [|c t]; [repeat constructor|].
    pose proof (Forall_strip_by _ (fun c => N.eqb c underscore) _
                  (sub_non_alnum_chars false (c :: t))) as F.
    destruct (strip_by _ _); [repeat constructor | exact F].
  - intros H. unfold Main.sanitize_part. destruct text as [|c t]; [reflexivity|].
    unfold strip_by, rstrip_by.
    rewrite (lstrip_by_all (fun c : pychar => N.eqb c underscore) _
               (sub_non_alnum_underscores false (c :: t) H)). reflexivity.
Qed.

(** The theorem at "!!!" and at "__" with the fallback "company"; U+0130
    lower-cases to "i" followed by U+0307, so it gives "i", not the
    fallback. *)
Lemma sanitize_part_charset_witness :
  App.sanitize_part (lit "Acme, Inc.") (lit "company") = lit "acme_inc" /\
  App.sanitize_part (lit "!!!") (lit "company") = lit "company" /\
  App.sanitize_part (lit "__") (lit "company") = lit "__" /\
  Main.sanitize_part (lit "!!!") = lit "job" /\
  App.sanitize_part [304%N] (lit "company") = lit "i".
Proof.
  assert (Hfb : lit "company" <> [] /\ Forall (fun c => App.is_name_char c = true) (lit "company"))
    by (split; [discriminate | repeat constructor]).
  destruct (sanitize_part_charset (lit "!!!") (lit "company") Hfb) as [[_ [_ [A _]]] [_ [_ M]]].
  destruct (sanitize_part_charset (lit "__") (lit "company") Hfb) as [[_ [_ [_ [U Acme]]]] _].
  split; [exact Acme|]. split; [apply A; vm_compute; repeat constructor|].
  split; [apply U; [discriminate | repeat constructor]|].
  split; [apply M; repeat constructor | vm_compute; reflexivity].
Defined.

(** Counterexample to C6 as stated: the sanitizer of [src/main.py] keeps
    upper case, and an input made of underscores is kept by the sanitizer of
    [src/app] instead of giving the fallback. *)
Lemma sanitize_part_not_lowercase :
  Main.sanitize_part (lit "Acme, Inc.") = lit "Acme_Inc" /\
  App.sanitize_part (lit "__") (lit "company") = lit "__".
Proof. split; vm_compute; reflexivity. Qed.

(** *** Folder names *)

Lemma dec_aux_digits : forall fuel n acc, Forall (fun c => is_digit c = true) acc ->
  Forall (fun c => is_digit c = true) (dec_aux fuel n acc).
Proof.
  induction fuel as [|f IH]; intros n acc H; cbn [dec_aux]; [exact H|].
  assert (D : is_digit (N.of_nat (48 + n mod 10)) = true).
  { pose proof (Nat.mod_upper_bound n 10 ltac:(lia)). unfold is_digit.
    apply andb_true_iff; split; apply N.leb_le; lia. }
  destruct (n <? 10); [constructor; assumption|]. apply IH. constructor; assumption.
Qed.

Lemma zpad_digits : forall w n, Forall (fun c => is_digit c = true) (zpad w (dec n)).
Proof.
  intros w n. unfold zpad. apply Forall_app. split.
  - apply Forall_forall. intros c Hc. apply repeat_spec in Hc. subst c. reflexivity.
  - apply dec_aux_digits. constructor.
Qed.

Lemma stamp_chars : forall d, Forall (fun c => is_digit c || N.eqb c underscore = true) (strftime_stamp d).
Proof.
  intros d. unfold strftime_stamp.
  assert (Z : forall w n, Forall (fun c => is_digit c || N.eqb c underscore = true) (zpad w (dec n)))
    by (intros w n; eapply Forall_impl; [|apply zpad_digits]; intros c Hc; rewrite Hc; reflexivity).
  repeat first [apply Z | apply Forall_app; split]; repeat constructor.
Qed.

Lemma main_sanitize_chars : forall text,
  Forall (fun c => is_alnum c || N.eqb c underscore = true) (Main.sanitize_part text).
Proof.
  intros [|c t]; unfold Main.sanitize_part; [repeat constructor|].
  pose proof (Forall_strip_by _ (fun c => N.eqb c underscore) _
                (sub_non_alnum_chars false (c :: t))) as F.
  destruct (strip_by _ _); [repeat constructor | exact F].
Qed.

(** X11: folder names are made of ASCII letters, digits and underscores in
    both variants (lower case only in [src/app]), so they hold no path
    separator and no dot. *)
Theorem folder_names_charset : forall (now : datetime) (mjob : Main.JobInput) (ajob : App.JobInput),
  Forall (fun c => is_alnum c || N.eqb c underscore = true) (Main.folder_name now mjob) /\
  Forall (fun c => App.is_name_char c = true) (App.folder_name now ajob).
Proof.
  intros now mjob ajob.
  assert (Hs : forall P : pychar -> Prop, (forall c, is_digit c || N.eqb c underscore = true -> P c) ->
            Forall P (strftime_stamp now))
    by (intros P HP; eapply Forall_impl; [exact HP | apply stamp_chars]).
  split.
  - unfold Main.folder_name.
    apply Forall_app; split.
    { apply Hs. intros c Hc. unfold is_alnum.
      apply orb_true_iff in Hc as [Hc|Hc]; rewrite Hc; [|apply orb_true_r].
      rewrite !orb_true_r. reflexivity. }
    apply Forall_app; split; [repeat constructor|].
    apply Forall_app; split; [apply main_sanitize_chars|].
    apply Forall_app; split; [repeat constructor | apply main_sanitize_chars].
  - unfold App.folder_name.
    apply Forall_app; split.
    { destruct (app_sanitize_out (App.company ajob) (lit "company")) as [E|[_ F]];
        [rewrite E; repeat constructor | exact F]. }
    apply Forall_app; split; [repeat constructor|].
    apply Forall_app; split.
    { destruct (app_sanitize_out (App.title ajob) (lit "title")) as [E|[_ F]];
        [rewrite E; repeat constructor | exact F]. }
    apply Forall_app; split; [repeat constructor|].
    apply Hs. intros c Hc. unfold App.is_name_char.
    apply orb_true_iff in Hc as [Hc|Hc]; rewrite Hc;
      [rewrite orb_true_r; reflexivity | apply orb_true_r].
Qed.

(** *** Blocks of the tagged output *)

Lemma prefixb_app_r : forall p x y, prefixb p x = true -> prefixb p (x ++ y) = true.
Proof.
  induction p as [|a p IH]; intros [|b x] y H; simpl in *; try reflexivity; try discriminate.
  apply andb_prop in H as [H1 H2]. rewrite H1. apply IH, H2.
Qed.

Lemma prefixb_firstn : forall p n x, prefixb p (firstn n x) = true ->
  prefixb p x = true /\ length p <= n.
Proof.
  induction p as [|a p IH]; intros n x H; [split; [reflexivity | simpl; lia]|].
  destruct n as [|n]; [discriminate|]. destruct x as [|b x]; [discriminate|].
  simpl in H. apply andb_prop in H as [H1 H2]. apply IH in H2 as [H2 H3].
  simpl. rewrite H1, H2. split; [reflexivity | lia].
Qed.

Lemma find_aux_none_all : forall s p i, p <> [] -> find_aux s p i = None ->
  forall k, prefixb p (skipn k s) = false.
Proof.
  induction s as [|c s IH]; intros p i Hp H k; cbn [find_aux] in H.
  - rewrite skipn_nil. apply prefixb_nil_r, Hp.
  - destruct (prefixb p (c :: s)) eqn:E; [discriminate|].
    destruct k as [|k]; [exact E|]. apply (IH p (S i) Hp H).
Qed.

Lemma find_aux_all_none : forall s p i, (forall k, prefixb p (skipn k s) = false) ->
  find_aux s p i = None.
Proof.
  induction s as [|c s IH]; intros p i H; cbn [find_aux].
  - rewrite (H 0 : prefixb p [] = false). reflexivity.
  - rewrite (H 0 : prefixb p (c :: s) = false). apply IH. intros k. apply (H (S k)).
Qed.

Lemma find_aux_first : forall s p i j, find_aux s p i = Some j ->
  forall k, i + k < j -> prefixb p (skipn k s) = false.
Proof.
  induction s as [|c s IH]; intros p i j H k Hk; cbn [find_aux] in H.
  - destruct (prefixb p []); inversion H; lia.
  - destruct (prefixb p (c :: s)) eqn:E; [inversion H; lia|].
    destruct k as [|k]; [exact E|]. apply (IH p (S i) j H). lia.
Qed.

Lemma no_occ_middle : forall p a y b, (forall k, prefixb p (skipn k (a ++ y ++ b)) = false) ->
  forall k, prefixb p (skipn k y) = false.
Proof.
  intros p a y b H k. destruct (prefixb p (skipn k y)) eqn:E; [|reflexivity].
  specialize (H (length a + k)). rewrite skipn_app, skipn_all2 in H by lia.
  replace (length a + k - length a) with k in H by lia. rewrite skipn_app, app_nil_l in H.
  rewrite (prefixb_app_r _ _ _ E) in H. discriminate.
Qed.

Lemma strip_no_occ : forall p x, (forall k, prefixb p (skipn k x) = false) ->
  forall k, prefixb p (skipn k (py_strip x)) = false.
Proof.
  intros p x H. unfold py_strip, strip_by.
  destruct (lstrip_by_suffix py_isspace x) as [pre E1].
  destruct (rstrip_by_prefix py_isspace (lstrip_by py_isspace x)) as [suf E2].
  apply (no_occ_middle p pre _ suf). rewrite <- E2, <- E1. exact H.
Qed.

Lemma slice_no_occ : forall p r n, p <> [] ->
  (forall k, k + length p <= n -> prefixb p (skipn k r) = false) ->
  forall k, prefixb p (skipn k (firstn n r)) = false.
Proof.
  intros p r n Hp H k. destruct (prefixb p (skipn k (firstn n r))) eqn:E; [|reflexivity].
  rewrite skipn_firstn_comm in E. apply prefixb_firstn in E as [E Hl].
  assert (0 < length p) by (destruct p; [congruence | simpl; lia]).
  rewrite H in E; [discriminate|]. lia.
Qed.

(** X12: the text [extract_block] returns never contains the end tag: the
    block stops at the first end tag after the start tag. *)
Theorem extract_block_no_end_tag (text start_tag end_tag : pystr) (Hend : end_tag <> []) :
  py_contains (extract_block text start_tag end_tag) end_tag = false.
Proof.
  unfold py_contains, py_find. rewrite find_aux_all_none; [reflexivity|].
  unfold extract_block. destruct (py_find text start_tag) as [i|];
    [|intros k; rewrite skipn_nil; apply prefixb_nil_r, Hend].
  apply strip_no_occ. unfold py_slice, py_find_from.
  set (st := i + length start_tag).
  destruct (py_find (skipn st text) end_tag) as [j|] eqn:Ej; cbn [option_map].
  - assert (0 < length end_tag) by (destruct end_tag; [congruence | simpl; lia]).
    replace (st + j - st) with j by lia. apply slice_no_occ; [exact Hend|].
    intros k Hk. unfold py_find in Ej. apply (find_aux_first _ _ 0 j Ej). lia.
  - apply slice_no_occ; [exact Hend|]. intros k _.
    apply (find_aux_none_all _ _ 0 Hend Ej).
Qed.

Lemma extract_block_no_end_tag_witness :
  lit "END" <> [] /\
  extract_block (lit "A: one END two END") (lit "A:") (lit "END") = lit "one" /\
  py_contains (extract_block (lit "A: one END two END") (lit "A:") (lit "END")) (lit "END") = false.
Proof.
  assert (H : lit "END" <> []) by discriminate.
  split; [exact H | split; [vm_compute; reflexivity|]].
  exact (extract_block_no_end_tag _ _ _ H).
Defined.

(** *** Output statistics *)

Lemma rpath_eqb_refl : forall p, rpath_eqb p p = true.
Proof. intros p. destruct (rpath_eqb_spec p p); congruence. Qed.

Lemma rpath_eqb_neq : forall p q, p <> q -> rpath_eqb p q = false.
Proof. intros p q H. destruct (rpath_eqb_spec p q); congruence. Qed.

Lemma In_lookup : forall m p n, In (p, n) m -> lookup m p <> None.
Proof.
  induction m as [|[q k] m IH]; intros p n H; [destruct H|]. simpl.
  destruct (rpath_eqb_spec q p); [discriminate|].
  destruct H as [E|H]; [inversion E; congruence | apply (IH p n H)].
Qed.

Lemma lookup_cons_same : forall m p n, lookup ((p, n) :: m) p = Some n.
Proof. intros m p n. simpl. rewrite rpath_eqb_refl. reflexivity. Qed.

Lemma lookup_cons_other : forall m p q n, p <> q -> lookup ((p, n) :: m) q = lookup m q.
Proof. intros m p q n H. simpl. rewrite rpath_eqb_neq by exact H. reflexivity. Qed.

Lemma filter_fresh : forall m p, lookup m p = None ->
  filter (fun e => negb (rpath_eqb (fst e) p)) m = m.
Proof.
  induction m as [|[q k] m IH]; intros p H; [reflexivity|]. simpl in *.
  destruct (rpath_eqb q p); [discriminate|]. simpl. f_equal. apply IH, H.
Qed.

Lemma set_node_fresh : forall m p n, lookup m p = None -> set_node m p n = (p, n) :: m.
Proof. intros m p n H. unfold set_node. rewrite filter_fresh by exact H. reflexivity. Qed.

Lemma iterdir_children : forall m p, is_dir m p = true -> iterdir m p = Ok (children m p).
Proof. intros m p H. unfold iterdir, children. rewrite H. reflexivity. Qed.

Lemma children_in : forall m p x, In x (children m p) -> lookup m (x :: p) <> None.
Proof.
  intros m p x H. unfold children in H. apply in_flat_map in H as [[q n] [Hin Hx]].
  simpl in Hx. destruct q as [|c q]; [destruct Hx|].
  destruct (rpath_eqb_spec q p) as [->|]; [|destruct Hx].
  destruct Hx as [<-|[]]. apply (In_lookup _ _ n Hin).
Qed.

Lemma children_absent : forall m p, (forall c, lookup m (c :: p) = None) -> children m p = [].
Proof.
  intros m p H. destruct (children m p) as [|x l] eqn:E; [reflexivity|].
  exfalso. apply (children_in m p x); [rewrite E; left; reflexivity | apply H].
Qed.

Lemma wf_below_absent : forall m root, fs_wf m = true -> root <> [] -> lookup m root = None ->
  forall rel, lookup m (rel ++ root) = None.
Proof.
  intros m root Hwf Hr Hn. induction rel as [|x rel IH]; [exact Hn|].
  apply wf_child_absent; [exact Hwf | destruct rel; [exact Hr | discriminate] | exact IH].
Qed.

Lemma is_below_app : forall root p, Diagnostics.is_below root p = true ->
  exists rel, rel <> [] /\ p = rel ++ root.
Proof.
  intros root; induction p as [|x q IH]; intros H; [discriminate|]. simpl in H.
  destruct (rpath_eqb_spec q root) as [->|Hq].
  - exists [x]. split; [discriminate | reflexivity].
  - destruct (IH H) as [rel [_ E]]. exists (x :: rel). split; [discriminate | subst q; reflexivity].
Qed.

Lemma walk_zero : forall root l seen,
  (forall p c, In (p, NFile c) l -> Diagnostics.is_below root p = false) ->
  Diagnostics.walk_aux root seen l = 0.
Proof.
  intros root; induction l as [|[p n] l IH]; intros seen H; [reflexivity|]. simpl.
  assert (H' : forall q c, In (q, NFile c) l -> Diagnostics.is_below root q = false)
    by (intros q c Hq; apply (H q c); right; exact Hq).
  destruct (existsb _ _); [apply IH, H'|].
  destruct n as [|c]; [apply IH, H'|].
  rewrite (H p c (or_introl eq_refl)). apply IH, H'.
Qed.

Lemma existsb_rpath : forall p seen, existsb (rpath_eqb p) seen = true <-> In p seen.
Proof.
  intros p seen. rewrite existsb_exists. split.
  - intros [x [Hx E]]. destruct (rpath_eqb_spec p x); [subst; exact Hx | discriminate].
  - intros H. exists p. split; [exact H | apply rpath_eqb_refl].
Qed.

Lemma walk_seen_irrel : forall root m seen1 seen2,
  (forall x, lookup m x <> None -> (In x seen1 <-> In x seen2)) ->
  Diagnostics.walk_aux root seen1 m = Diagnostics.walk_aux root seen2 m.
Proof.
  intros root; induction m as [|[q n] m IH]; intros seen1 seen2 H; [reflexivity|].
  assert (Hq : In q seen1 <-> In q seen2) by (apply H; rewrite lookup_cons_same; discriminate).
  assert (Ht : forall x, lookup m x <> None -> (In x seen1 <-> In x seen2)).
  { intros x Hx. apply H. destruct (rpath_eqb_spec q x) as [->|Hne];
      [rewrite lookup_cons_same; discriminate | rewrite lookup_cons_other; assumption]. }
  assert (Ht' : forall x, lookup m x <> None -> (In x (q :: seen1) <-> In x (q :: seen2)))
    by (intros x Hx; simpl; rewrite (Ht x Hx); tauto).
  simpl. destruct (existsb (rpath_eqb q) seen1) eqn:E1, (existsb (rpath_eqb q) seen2) eqn:E2.
  - apply IH, Ht.
  - apply existsb_rpath in E1. apply Hq, existsb_rpath in E1. congruence.
  - apply existsb_rpath in E2. apply Hq, existsb_rpath in E2. congruence.
  - destruct n as [|c]; [|destruct (Diagnostics.is_below root q); [f_equal|]]; apply IH, Ht'.
Qed.

Lemma walk_file_step : forall root seen p c t, ~ In p seen -> Diagnostics.is_below root p = true ->
  Diagnostics.walk_aux root seen ((p, NFile c) :: t)
  = Diagnostics.utf8_size c + Diagnostics.walk_aux root (p :: seen) t.
Proof.
  intros root seen p c t Hn Hb. simpl.
  destruct (existsb (rpath_eqb p) seen) eqn:E; [apply existsb_rpath in E; contradiction|].
  rewrite Hb. reflexivity.
Qed.

Lemma walk_dir_step : forall root seen p t, ~ In p seen ->
  Diagnostics.walk_aux root seen ((p, NDir) :: t) = Diagnostics.walk_aux root (p :: seen) t.
Proof.
  intros root seen p t Hn. simpl.
  destruct (existsb (rpath_eqb p) seen) eqn:E; [apply existsb_rpath in E; contradiction|].
  reflexivity.
Qed.

Lemma is_below_grandchild : forall root f name, Diagnostics.is_below root (f :: name :: root) = true.
Proof.
  intros root f name. cbn [Diagnostics.is_below]. rewrite rpath_eqb_refl, orb_true_r. reflexivity.
Qed.

Lemma stats_existing : forall m, is_dir m Diagnostics.OUTPUT_ROOT = true ->
  Diagnostics.get_output_stats m
  = Ok ((length (filter (fun x => is_dir m (x :: Diagnostics.OUTPUT_ROOT))
                        (children m Diagnostics.OUTPUT_ROOT)),
         Diagnostics.walk_bytes m Diagnostics.OUTPUT_ROOT), m).
Proof.
  intros m H. unfold Diagnostics.get_output_stats.
  rewrite (mkdir_existing m (lit "job-packages") [] eq_refl H
             : mkdir_parents m Diagnostics.OUTPUT_ROOT true = Ok m). cbn [bind].
  rewrite iterdir_children by exact H. reflexivity.
Qed.

(** X13: [get_output_stats] on a state without the output root creates it
    and reports zero jobs and zero bytes. *)
Theorem output_stats_missing_root (m : fstate) (Hwf : fs_wf m = true)
    (Hnone : lookup m Diagnostics.OUTPUT_ROOT = None) :
  Diagnostics.get_output_stats m = Ok ((0, 0), set_node m Diagnostics.OUTPUT_ROOT NDir).
Proof.
  assert (Hd : is_dir (set_node m Diagnostics.OUTPUT_ROOT NDir) Diagnostics.OUTPUT_ROOT = true)
    by (unfold is_dir, Diagnostics.OUTPUT_ROOT; rewrite lookup_set_same; reflexivity).
  unfold Diagnostics.get_output_stats.
  rewrite (mkdir_fresh m (lit "job-packages") [] eq_refl Hnone
             : mkdir_parents m Diagnostics.OUTPUT_ROOT true
               = Ok (set_node m Diagnostics.OUTPUT_ROOT NDir)). cbn [bind].
  rewrite iterdir_children by exact Hd. cbn [bind].
  rewrite children_absent.
  2:{ intros c. rewrite lookup_set_other by apply not_eq_sym, cons_neq_self.
      apply wf_child_absent; [exact Hwf | discriminate | exact Hnone]. }
  unfold Diagnostics.walk_bytes, set_node. cbn [length filter].
  rewrite walk_dir_step by (intros []).
  rewrite walk_zero; [reflexivity|].
  intros p c Hin. apply filter_In in Hin as [Hin _].
  destruct (Diagnostics.is_below Diagnostics.OUTPUT_ROOT p) eqn:Eb; [|reflexivity].
  exfalso. apply is_below_app in Eb as [rel [_ ->]].
  apply (In_lookup _ _ _ Hin). apply wf_below_absent; [exact Hwf | discriminate | exact Hnone].
Qed.

Lemma output_stats_missing_root_witness :
  let m0 := [([lit "notes.txt"], NFile (lit "hi"))] in
  fs_wf m0 = true /\ lookup m0 Diagnostics.OUTPUT_ROOT = None /\
  Diagnostics.get_output_stats m0 = Ok ((0, 0), set_node m0 Diagnostics.OUTPUT_ROOT NDir).
Proof.
  intros m0. assert (H1 : fs_wf m0 = true) by (vm_compute; reflexivity).
  assert (H2 : lookup m0 Diagnostics.OUTPUT_ROOT = None) by (vm_compute; reflexivity).
  split; [exact H1 | split; [exact H2 | exact (output_stats_missing_root m0 H1 H2)]].
Defined.

Ltac path_neq2 :=
  first [ apply cons_neq_self
        | apply not_eq_sym; apply cons_neq_self
        | apply file_neq; reflexivity
        | let E := fresh in intros E; apply (f_equal (@length pystr)) in E; simpl in E; lia ].

Ltac not_in :=
  let H := fresh in
  intros H; repeat (destruct H as [H|H]; [revert H; path_neq2 |]); exact H.

(** X14: on a well-formed state whose output root exists, a successful
    [generate_full_package] into a new folder adds one to [total_jobs] and
    the sizes of its four files to [total_bytes]. *)
Theorem output_stats_after_package (json_dumps : json -> pystr)
    (gen_resume gen_cover gen_answers : App.JobInput -> result pystr)
    (m : fstate) (now : datetime) (job : App.JobInput) (j b : nat) (name : pystr) (m' : fstate)
    (Hwf : fs_wf m = true)
    (Hroot : is_dir m App.OUTPUT_ROOT = true)
    (Hstats : Diagnostics.get_output_stats m = Ok ((j, b), m))
    (Hnew : lookup m (App.folder_name now job :: App.OUTPUT_ROOT) = None)
    (Hgen : App.generate_full_package json_dumps gen_resume gen_cover gen_answers m now job
              = Ok (name, m')) :
  Diagnostics.get_output_stats m'
  = Ok ((S j, b + package_bytes m' (name :: App.OUTPUT_ROOT)), m').
Proof.
  apply generate_full_package_ok in Hgen as (m1 & m2 & r & c & a & d & E1 & E2 & -> & ->).
  rewrite (mkdir_existing m (lit "job-packages") [] eq_refl Hroot :
             mkdir_parents m App.OUTPUT_ROOT true = Ok m) in E1.
  injection E1 as <-.
  rewrite (mkdir_fresh m (App.folder_name now job) App.OUTPUT_ROOT Hroot Hnew) in E2.
  injection E2 as <-.
  assert (Habs : forall f, lookup m (f :: App.folder_name now job :: App.OUTPUT_ROOT) = None)
    by (intros f; apply wf_child_absent; [exact Hwf | discriminate | exact Hnew]).
  rewrite (stats_existing m Hroot) in Hstats. injection Hstats as Hj Hb.
  unfold write_all. cbn [fold_left fst snd].
  - set (name := App.folder_name now job) in *.
    set (root := App.OUTPUT_ROOT) in *.
    repeat rewrite set_node_fresh by (fs_lookup; first [apply Habs | exact Hnew]).
    match goal with |- Diagnostics.get_output_stats ?M = _ => set (mm := M) end.
    assert (Hothers : forall q, q <> name :: root -> length q <> 3 -> lookup mm q = lookup m q).
    { intros q Hq Hl. unfold mm.
      repeat rewrite lookup_cons_other
        by (let E := fresh in intros E; subst q; first [apply Hq; reflexivity | apply Hl; reflexivity]).
      reflexivity. }
    assert (Hroot' : is_dir mm Diagnostics.OUTPUT_ROOT = true).
    { change Diagnostics.OUTPUT_ROOT with root. unfold is_dir, root, App.OUTPUT_ROOT.
      rewrite Hothers; [exact Hroot | apply not_eq_sym, cons_neq_self | discriminate]. }
    rewrite (stats_existing mm Hroot'). f_equal. f_equal. f_equal.
    + rewrite <- Hj. change Diagnostics.OUTPUT_ROOT with root.
      unfold mm, children. cbn [flat_map fst].
      rewrite !rpath_eqb_neq by (apply cons_neq_self). rewrite rpath_eqb_refl.
      fold (children m root). cbn [app filter].
      assert (Hd : is_dir mm (name :: root) = true)
        by (unfold is_dir, mm; rewrite lookup_cons_other, lookup_cons_other, lookup_cons_other,
              lookup_cons_other, lookup_cons_same by path_neq2; reflexivity).
      fold mm. rewrite Hd. cbn [length]. f_equal. f_equal.
      apply filter_ext_in. intros x Hx. unfold is_dir.
      rewrite Hothers; [reflexivity| |unfold root, App.OUTPUT_ROOT; discriminate].
      intros E. injection E as ->. apply (children_in m root name Hx), Hnew.
    + rewrite <- Hb. change Diagnostics.OUTPUT_ROOT with root.
      unfold Diagnostics.walk_bytes, mm, package_bytes, package_files. cbn [fold_right].
      rewrite !lookup_cons_same.
      rewrite lookup_cons_other, lookup_cons_other, lookup_cons_other, lookup_cons_same by path_neq2.
      rewrite lookup_cons_other, lookup_cons_other, lookup_cons_same by path_neq2.
      rewrite lookup_cons_other, lookup_cons_same by path_neq2.
      rewrite walk_file_step by (try not_in; apply is_below_grandchild).
      rewrite walk_file_step by (try not_in; apply is_below_grandchild).
      rewrite walk_file_step by (try not_in; apply is_below_grandchild).
      rewrite walk_file_step by (try not_in; apply is_below_grandchild).
      rewrite walk_dir_step by not_in.
      rewrite (walk_seen_irrel root m _ []).
      * lia.
      * intros x Hx. split; [|intros []].
        intros Hin. exfalso. apply Hx.
        repeat (destruct Hin as [<-|Hin]; [first [exact Hnew | apply Habs]|]). destruct Hin.
Qed.

Lemma output_stats_after_package_witness :
  let m0 := [([lit "job-packages"], NDir)] in
  let now0 := {| year := 2026; month := 10; day := 19; hour := 9; minute := 5; second := 7 |} in
  let ajob := {| App.resume_text := lit "Resume"; App.company := lit "Acme Corp";
                 App.title := lit "Staff Engineer"; App.location := None;
                 App.job_description := lit "Build things"; App.seniority_hint := None |} in
  let dumps := fun _ : json => lit "{}" in
  let gen_resume := fun _ : App.JobInput => Ok (lit "CV") in
  let gen_cover := fun _ : App.JobInput => Ok (lit "Letter") in
  let gen_answers := fun _ : App.JobInput => Ok (lit "One" ++ [nl; nl] ++ lit "Two") in
  fs_wf m0 = true /\ is_dir m0 App.OUTPUT_ROOT = true /\
  Diagnostics.get_output_stats m0 = Ok ((0, 0), m0) /\
  lookup m0 (App.folder_name now0 ajob :: App.OUTPUT_ROOT) = None /\
  exists name m', App.generate_full_package dumps gen_resume gen_cover gen_answers m0 now0 ajob
                    = Ok (name, m') /\
    Diagnostics.get_output_stats m'
    = Ok ((1, 0 + package_bytes m' (name :: App.OUTPUT_ROOT)), m').
Proof.
  intros m0 now0 ajob dumps gen_resume gen_cover gen_answers.
  assert (H1 : fs_wf m0 = true) by (vm_compute; reflexivity).
  assert (H2 : is_dir m0 App.OUTPUT_ROOT = true) by (vm_compute; reflexivity).
  assert (H3 : Diagnostics.get_output_stats m0 = Ok ((0, 0), m0)) by (vm_compute; reflexivity).
  assert (H4 : lookup m0 (App.folder_name now0 ajob :: App.OUTPUT_ROOT) = None)
    by (vm_compute; reflexivity).
  split; [exact H1 | split; [exact H2 | split; [exact H3 | split; [exact H4 |]]]].
  destruct (App.generate_full_package dumps gen_resume gen_cover gen_answers m0 now0 ajob)
    as [[name m']|f] eqn:E.
  - exists name, m'. split; [reflexivity|].
    exact (output_stats_after_package dumps gen_resume gen_cover gen_answers m0 now0 ajob 0 0
             name m' H1 H2 H3 H4 E).
  - vm_compute in E. discriminate.
Defined.
